(** * dcos-log: remote file tailing, journal formatters and task discovery

    A shallow embedding of three Go source files of dcos-log:

    - [dcos-log/mesos/files/reader/read.go]  (module [Reader]):
      the [ReadManager] cursor over the Mesos [files/read] endpoint;
    - [dcos-log/journal/reader/formatters.go] (module [Journal]):
      the journal entry formatters;
    - [dcos-log/api/v2/discovery.go]          (module [Discovery]):
      the redirect URL of a task.

    Module [Go] holds the pieces of the Go language and of its standard
    library that the three files rely on: the machine integer [int], byte
    strings, [strings.Split], the conversions between [string] and
    [[]rune], and [strings.Reader.Read]. *)

From Stdlib Require Import ZArith Zbitwise Lia List Bool.
From Stdlib.Strings Require Import Byte String.
From stdpp Require Import gmap strings list.

Local Open Scope Z_scope.

(* ===================================================================== *)
(** ** The Go runtime and library functions used by the sources          *)
(* ===================================================================== *)

Module Go.

(** A Go [string] is an immutable sequence of bytes. *)
Abbreviation gostring := (list byte).

(** A string literal of the source. *)
Definition str (s : string) : gostring := list_byte_of_string s.

(** The byte ['\n']. *)
Definition nl : byte := x0a.

#[global] Instance byte_eq_dec : EqDecision byte := Byte.byte_eq_dec.

#[global] Program Instance byte_countable : Countable byte :=
  inj_countable Byte.to_N Byte.of_N _.
Next Obligation. intros b. apply Byte.of_to_N. Qed.

(** *** [int]: 64-bit two's complement *)

Definition minInt : Z := - 2 ^ 63.
Definition maxInt : Z := 2 ^ 63 - 1.

Definition wrap (z : Z) : Z := (z + 2 ^ 63) mod 2 ^ 64 - 2 ^ 63.

Definition add (a b : Z) : Z := wrap (a + b).
Definition sub (a b : Z) : Z := wrap (a - b).

Definition isInt (z : Z) : Prop := minInt <= z <= maxInt.

(** [len(x)] of a string or of a slice. *)
Definition len {A : Type} (l : list A) : Z := Z.of_nat (length l).

(** *** [strings.Split(s, sep)] for a one-byte separator

    The slice of the substrings of [s] between the occurrences of the
    separator; a string without separator yields the one-element slice
    [[s]], so the result is never empty. *)

Fixpoint splitOn {A : Type} (isSep : A -> bool) (s : list A) : list (list A) :=
  match s with
  | [] => [[]]
  | c :: s' =>
      if isSep c then [] :: splitOn isSep s'
      else match splitOn isSep s' with
           | p :: ps => (c :: p) :: ps
           | [] => [[c]]
           end
  end.

Definition Split (s : gostring) (sep : byte) : list gostring :=
  splitOn (Byte.eqb sep) s.

(** *** UTF-8: [[]rune(s)] and [string(runes)]

    The conversion [[]rune(s)] decodes [s] with the rules of
    [utf8.DecodeRuneInString]: a byte that does not start a well-formed
    encoding is decoded as [RuneError] (U+FFFD) of width one. *)

Definition RuneError : Z := 0xFFFD.
Definition MaxRune : Z := 0x10FFFF.

Definition b2z (b : byte) : Z := Z.of_N (Byte.to_N b).

(** The conversion [byte(x)] keeps the low eight bits. *)
Definition z2b (z : Z) : byte :=
  match Byte.of_N (Z.to_N (z mod 256)) with
  | Some b => b
  | None => x00
  end.

Definition maskx : Z := 0x3F.
Definition mask2 : Z := 0x1F.
Definition mask3 : Z := 0x0F.
Definition mask4 : Z := 0x07.
Definition tx : Z := 0x80.
Definition t2 : Z := 0xC0.
Definition t3 : Z := 0xE0.
Definition t4 : Z := 0xF0.
Definition locb : Z := 0x80.
Definition hicb : Z := 0xBF.

(** The table [first] of package [utf8] joined with [acceptRanges]: for
    a leading byte of a multi-byte encoding, the size of the encoding
    and the range accepted for the second byte; [None] for the bytes
    that cannot start one. *)
Definition leadInfo (z0 : Z) : option (Z * Z * Z) :=
  if z0 <? 0xC2 then None
  else if z0 <=? 0xDF then Some (2, locb, hicb)
  else if z0 =? 0xE0 then Some (3, 0xA0, hicb)
  else if z0 <=? 0xEC then Some (3, locb, hicb)
  else if z0 =? 0xED then Some (3, locb, 0x9F)
  else if z0 <=? 0xEF then Some (3, locb, hicb)
  else if z0 =? 0xF0 then Some (4, 0x90, hicb)
  else if z0 <=? 0xF3 then Some (4, locb, hicb)
  else if z0 =? 0xF4 then Some (4, locb, 0x8F)
  else None.

Definition rune2 (z0 z1 : Z) : Z :=
  Z.lor (Z.shiftl (Z.land z0 mask2) 6) (Z.land z1 maskx).
Definition rune3 (z0 z1 z2 : Z) : Z :=
  Z.lor (Z.lor (Z.shiftl (Z.land z0 mask3) 12) (Z.shiftl (Z.land z1 maskx) 6))
        (Z.land z2 maskx).
Definition rune4 (z0 z1 z2 z3 : Z) : Z :=
  Z.lor (Z.lor (Z.lor (Z.shiftl (Z.land z0 mask4) 18) (Z.shiftl (Z.land z1 maskx) 12))
               (Z.shiftl (Z.land z2 maskx) 6))
        (Z.land z3 maskx).

(** [utf8.DecodeRuneInString]: the first rune of [s] and its width. *)
Definition DecodeRuneInString (s : gostring) : Z * nat :=
  match s with
  | [] => (RuneError, 0%nat)
  | s0 :: _ =>
      let z0 := b2z s0 in
      if z0 <? 0x80 then (z0, 1%nat)
      else
        match leadInfo z0 with
        | None => (RuneError, 1%nat)
        | Some (sz, lo, hi) =>
            if len s <? sz then (RuneError, 1%nat)
            else
              let z1 := b2z (nth 1 s x00) in
              if (z1 <? lo) || (hi <? z1) then (RuneError, 1%nat)
              else if sz <=? 2 then (rune2 z0 z1, 2%nat)
              else
                let z2 := b2z (nth 2 s x00) in
                if (z2 <? locb) || (hicb <? z2) then (RuneError, 1%nat)
                else if sz <=? 3 then (rune3 z0 z1 z2, 3%nat)
                else
                  let z3 := b2z (nth 3 s x00) in
                  if (z3 <? locb) || (hicb <? z3) then (RuneError, 1%nat)
                  else (rune4 z0 z1 z2 z3, 4%nat)
        end
  end.

(** [[]rune(s)]: decode rune after rune.  Every step consumes at least
    one byte, so [length s] steps are enough (lemma [runesFrom_fuel]). *)
Fixpoint runesFrom (fuel : nat) (s : gostring) : list Z :=
  match fuel with
  | O => []
  | S fuel' =>
      match s with
      | [] => []
      | _ :: _ =>
          let '(r, w) := DecodeRuneInString s in
          r :: runesFrom fuel' (drop w s)
      end
  end.

Definition runes (s : gostring) : list Z := runesFrom (length s) s.

(** The runtime's [encoderune]. *)
Definition encode3 (r : Z) : gostring :=
  [ z2b (Z.lor t3 (b2z (z2b (Z.shiftr r 12))));
    z2b (Z.lor tx (Z.land (b2z (z2b (Z.shiftr r 6))) maskx));
    z2b (Z.lor tx (Z.land (b2z (z2b r)) maskx)) ].

Definition encoderune (r : Z) : gostring :=
  let i := r mod 2 ^ 32 in
  if i <=? 0x7F then [ z2b r ]
  else if i <=? 0x7FF then
    [ z2b (Z.lor t2 (b2z (z2b (Z.shiftr r 6))));
      z2b (Z.lor tx (Z.land (b2z (z2b r)) maskx)) ]
  else if (MaxRune <? i) || ((0xD800 <=? i) && (i <=? 0xDFFF)) then encode3 RuneError
  else if i <=? 0xFFFF then encode3 r
  else
    [ z2b (Z.lor t4 (b2z (z2b (Z.shiftr r 18))));
      z2b (Z.lor tx (Z.land (b2z (z2b (Z.shiftr r 12))) maskx));
      z2b (Z.lor tx (Z.land (b2z (z2b (Z.shiftr r 6))) maskx));
      z2b (Z.lor tx (Z.land (b2z (z2b r)) maskx)) ].

(** [string(runes)]. *)
Definition stringOfRunes (rs : list Z) : gostring := concat (map encoderune rs).

(** [utf8.ValidString]: no decoding step yields the width-one
    [RuneError]. *)
Fixpoint validFrom (fuel : nat) (s : gostring) : bool :=
  match fuel with
  | O => match s with [] => true | _ => false end
  | S fuel' =>
      match s with
      | [] => true
      | _ :: _ =>
          let '(r, w) := DecodeRuneInString s in
          negb ((r =? RuneError) && (w =? 1)%nat) && validFrom fuel' (drop w s)
      end
  end.

Definition ValidString (s : gostring) : bool := validFrom (length s) s.

(** *** Errors *)

Inductive error : Type :=
| ErrEmptyParam                 (* reader.ErrEmptyParam *)
| EOF                           (* io.EOF *)
| ErrBadStatus (code : Z)       (* fmt.Errorf("bad status %d", ...) *)
| ErrOther (msg : gostring).    (* transport, JSON and option errors *)

(** *** [strings.NewReader(s).Read(b)] on a fresh reader

    [b] is given by its length; the result is the bytes copied into it
    and the error.  A fresh reader over the empty string is at its end
    and returns [io.EOF]. *)
Definition readerRead (s : gostring) (b : Z) : gostring * option error :=
  if len s <=? 0 then ([], Some EOF)
  else (take (Z.to_nat b) s, None).

End Go.

(* ===================================================================== *)
(** ** mesos/files/reader/read.go                                         *)
(* ===================================================================== *)

Module Reader.
Import Go.

(** [chunkSize = 1 << 16] *)
Definition chunkSize : Z := Z.shiftl 1 16.

(** [type response struct { Data string; Offset int }] *)
Record response : Type := mkResponse { Data : gostring; Offset : Z }.

(** [notEmpty]: [ErrEmptyParam] ([Some]) when there is no argument or one
    of them is the empty string, [nil] ([None]) otherwise. *)
Fixpoint anyEmpty (args : list gostring) : bool :=
  match args with
  | [] => false
  | arg :: rest => if len arg =? 0 then true else anyEmpty rest
  end.

Definition notEmpty (args : list gostring) : option error :=
  if len args =? 0 then Some ErrEmptyParam
  else if anyEmpty args then Some ErrEmptyParam
  else None.

(** [type ReadDirection int] with its two constants. *)
Inductive ReadDirection : Type := TopToBottom | BottomToTop.

(** The type [Line] is declared in a file of the package that is not among
    the sources; [read] builds its values with the three fields below. *)
Record Line : Type := mkLine { Message : gostring; LineOffset : Z; Size : Z }.

(** [type Formatter func(Line) string], as [Read] applies [rm.formatFn]. *)
Definition Formatter : Type := Line -> gostring.

(** [http.Header] *)
Definition Header : Type := gmap gostring (list gostring).

(** [type ReadManager struct].  The [client] field is the handle of the
    HTTP transport; the transport itself is part of the [World] below. *)
Record ReadManager : Type := mkReadManager {
  readEndpoint : gostring;
  sandboxPath : gostring;
  header : Header;
  readDirection : ReadDirection;
  n : Z;
  File : gostring;
  size : Z;
  offset : Z;
  lines : list Line;
  readLines : Z;
  stream : bool;
  formatFn : Formatter
}.

Definition set_offset (rm : ReadManager) (o : Z) : ReadManager :=
  mkReadManager (readEndpoint rm) (sandboxPath rm) (header rm) (readDirection rm)
    (n rm) (File rm) (size rm) o (lines rm) (readLines rm) (stream rm) (formatFn rm).

Definition set_lines (rm : ReadManager) (ls : list Line) : ReadManager :=
  mkReadManager (readEndpoint rm) (sandboxPath rm) (header rm) (readDirection rm)
    (n rm) (File rm) (size rm) (offset rm) ls (readLines rm) (stream rm) (formatFn rm).

Definition set_readLines (rm : ReadManager) (k : Z) : ReadManager :=
  mkReadManager (readEndpoint rm) (sandboxPath rm) (header rm) (readDirection rm)
    (n rm) (File rm) (size rm) (offset rm) (lines rm) k (stream rm) (formatFn rm).

Definition set_n (rm : ReadManager) (k : Z) : ReadManager :=
  mkReadManager (readEndpoint rm) (sandboxPath rm) (header rm) (readDirection rm)
    k (File rm) (size rm) (offset rm) (lines rm) (readLines rm) (stream rm) (formatFn rm).

Definition set_stream (rm : ReadManager) (s : bool) : ReadManager :=
  mkReadManager (readEndpoint rm) (sandboxPath rm) (header rm) (readDirection rm)
    (n rm) (File rm) (size rm) (offset rm) (lines rm) (readLines rm) s (formatFn rm).

Definition set_readDirection (rm : ReadManager) (d : ReadDirection) : ReadManager :=
  mkReadManager (readEndpoint rm) (sandboxPath rm) (header rm) d
    (n rm) (File rm) (size rm) (offset rm) (lines rm) (readLines rm) (stream rm) (formatFn rm).

Definition set_header (rm : ReadManager) (h : Header) : ReadManager :=
  mkReadManager (readEndpoint rm) (sandboxPath rm) h (readDirection rm)
    (n rm) (File rm) (size rm) (offset rm) (lines rm) (readLines rm) (stream rm) (formatFn rm).

(** *** The HTTP exchange

    A [GET] request of [fileLen] or [read]: the endpoint, the query
    parameters [path], [offset] and [length] (absent in [fileLen]) and the
    headers. *)
Record Request : Type := mkRequest {
  reqURL : gostring;
  reqPath : gostring;
  reqOffset : Z;
  reqLength : option Z;
  reqHeader : Header
}.

(** What [rm.client.Do] hands back when the transport did not fail: the
    status code and the body as [json.Decoder.Decode] reads it into a
    [response] (an error when the body is malformed). *)
Record HTTPResponse : Type := mkHTTPResponse {
  StatusCode : Z;
  Body : error + response
}.

(** The world outside the process: the remote side, which answers a
    request with a transport error or a response, and the requests sent
    so far, oldest first. *)
Record World : Type := mkWorld {
  transport : Request -> error + HTTPResponse;
  sent : list Request
}.

(** *** Computations that send requests and may fail *)

Inductive outcome (A : Type) : Type :=
| Ok (a : A)         (* normal return *)
| Fail (e : error)   (* return of a non-nil error *)
| Panic              (* run-time panic: index out of range *)
| OutOfFuel.         (* the loop bound of the model was reached *)
Arguments Ok {A} a.
Arguments Fail {A} e.
Arguments Panic {A}.
Arguments OutOfFuel {A}.

Definition M (A : Type) : Type := World -> outcome A * World.

Definition ret {A : Type} (a : A) : M A := fun w => (Ok a, w).

Definition fail {A : Type} (e : error) : M A := fun w => (Fail e, w).

Definition bind {A B : Type} (m : M A) (k : A -> M B) : M B :=
  fun w =>
    match m w with
    | (Ok a, w') => k a w'
    | (Fail e, w') => (Fail e, w')
    | (Panic, w') => (Panic, w')
    | (OutOfFuel, w') => (OutOfFuel, w')
    end.

Notation "x <- m ;; k" := (bind m (fun x => k))
  (at level 100, m at level 99, right associativity).

(** [rm.client.Do(req)] *)
Definition clientDo (req : Request) : M HTTPResponse :=
  fun w =>
    let w' := mkWorld (transport w) (sent w ++ [req]) in
    match transport w req with
    | inl e => (Fail e, w')
    | inr resp => (Ok resp, w')
    end.

(** [rm.do(req)]: send the request, demand status 200, decode the JSON body. *)
Definition do (req : Request) : M response :=
  resp <- clientDo req ;;
  if negb (StatusCode resp =? 200) then fail (ErrBadStatus (StatusCode resp))
  else match Body resp with
       | inl e => fail e
       | inr data => ret data
       end.

(** [rm.fileLen(ctx)]: the request with
    [offset=-1]; the answer's [Offset] is the size of the file. *)
Definition fileLen (rm : ReadManager) : M Z :=
  resp <- do (mkRequest (readEndpoint rm) (sandboxPath rm ++ File rm) (-1) None (header rm)) ;;
  ret (Offset resp).

(** [type Modifier func(s string) string] *)
Definition Modifier : Type := gostring -> gostring.

(** The loop of [read] that fills [linesWithOffset]; [accumulator] is the
    position of the line plus its terminator. *)
Fixpoint linesWithOffset (offset accumulator : Z) (ls : list gostring) : list Line :=
  match ls with
  | [] => []
  | l :: rest =>
      mkLine l (add offset accumulator) (len l)
      :: linesWithOffset offset (add accumulator (add (len l) 1)) rest
  end.

(** The part of [read] after the request: split the modified data, and
    when there is more than one piece, take the last one off and report
    its length as [delta]. *)
Definition splitChunk (data : gostring) (offset : Z) (modifier : option Modifier)
  : list Line * Z :=
  let modifier := match modifier with Some f => f | None => fun s => s end in
  let lines := Split (modifier data) nl in
  let '(delta, lines) :=
    if 1 <? len lines then (len (List.last lines []), removelast lines)
    else (0, lines) in
  (linesWithOffset offset 0 lines, delta).

(** [rm.read(ctx, offset, length, modifier)]: the lines of the chunk and
    the length of the piece taken off. *)
Definition read (rm : ReadManager) (offset length : Z) (modifier : option Modifier)
  : M (list Line * Z) :=
  resp <- do (mkRequest (readEndpoint rm) (sandboxPath rm ++ File rm) offset (Some length)
                (header rm)) ;;
  ret (splitChunk (Data resp) offset modifier).

(** [rm.Prepand(s)] *)
Definition Prepand (rm : ReadManager) (s : Line) : ReadManager :=
  let old := lines rm in
  set_lines rm ([s] ++ old).

(** [rm.Pop()]: [None] is the nil pointer. *)
Definition Pop (rm : ReadManager) : option Line * ReadManager :=
  let old := rm in
  let n := len (lines old) in
  if n =? 0 then (None, rm)
  else
    match lines old !! Z.to_nat (n - 1) with
    | Some x => (Some x, set_lines rm (take (Z.to_nat (n - 1)) (lines old)))
    | None => (None, rm)
    end.

(** [reverse(s)]: the swap loop over [[]rune(s)]. *)
Fixpoint swapLoop (fuel : nat) (i j : Z) (runes : list Z) : list Z :=
  match fuel with
  | O => runes
  | S fuel' =>
      if i <? j then
        match runes !! Z.to_nat i, runes !! Z.to_nat j with
        | Some ri, Some rj =>
            swapLoop fuel' (add i 1) (sub j 1)
              (<[Z.to_nat j := ri]> (<[Z.to_nat i := rj]> runes))
        | _, _ => runes
        end
      else runes
  end.

Definition reverse (s : gostring) : gostring :=
  let runes := runes s in
  stringOfRunes (swapLoop (length runes) 0 (sub (len runes) 1) runes).

(** [type Option]: a function on the manager under construction that
    returns an error; an option updates the manager
    or fails.  The option constructors of the package are declared in a
    file that is not among the sources. *)
Definition Option : Type := ReadManager -> error + ReadManager.

(** The loop of [NewLineReader] over [opts]; a nil option is skipped. *)
Fixpoint applyOpts (opts : list (option Option)) (rm : ReadManager) : error + ReadManager :=
  match opts with
  | [] => inr rm
  | None :: rest => applyOpts rest rm
  | Some opt :: rest =>
      match opt rm with
      | inl err => inl err
      | inr rm' => applyOpts rest rm'
      end
  end.

(** The inner loop of the backward search,
    [for i := len(lines) - diff; i < len(lines); i++ {
       rm.offset -= len(lines[i].Message) + 1 }]:
    it visits [lines[i]], ..., [lines[len(lines)-1]] in this order; a
    negative [i] is an index out of range at the first access. *)
Definition subtractLines (ls : list Line) (i : Z) (rm : ReadManager) : outcome ReadManager :=
  if i <? len ls then
    if i <? 0 then Panic
    else Ok (fold_left
               (fun rm l => set_offset rm (sub (offset rm) (add (len (Message l)) 1)))
               (drop (Z.to_nat i) ls) rm)
  else Ok rm.

Definition lift {A : Type} (o : outcome A) : M A := fun w => (o, w).

(** The backward search of [NewLineReader], one iteration of the [for]
    loop per unit of [fuel]; [foundLines] and [offset] are the local
    variables of the loop. *)
Fixpoint locate (fuel : nat) (rm : ReadManager) (foundLines offset : Z) : M ReadManager :=
  match fuel with
  | O => lift OutOfFuel
  | S fuel' =>
      if offset <? 1 then ret (set_offset rm 0)
      else
        r <- read rm offset chunkSize (Some reverse) ;;
        let '(ls, delta) := r in
        if n rm <=? add foundLines (len ls) then
          let diff := sub (n rm) foundLines in
          lift (subtractLines ls (sub (len ls) diff) rm)
        else
          let foundLines := add foundLines (len ls) in
          let offset := sub offset (sub chunkSize delta) in
          locate fuel' (set_offset rm offset) foundLines offset
  end.

(** [fmt.Sprintf] of the sandbox path. *)
Definition mkSandboxPath (agentID frameworkID executorID containerID taskPath : gostring)
  : gostring :=
  let sandboxPath :=
    str "/var/lib/mesos/slave/slaves/" ++ agentID ++ str "/frameworks/" ++ frameworkID
    ++ str "/executors/" ++ executorID ++ str "/runs/" ++ containerID ++ str "/" in
  if negb (len taskPath =? 0) then sandboxPath ++ str "tasks/" ++ taskPath ++ str "/"
  else sandboxPath.

(** [NewLineReader]: the constructor.  [fuel] bounds the iterations of
    the backward search. *)
Definition NewLineReader (fuel : nat)
    (masterURL agentID frameworkID executorID containerID taskPath file : gostring)
    (format : Formatter) (opts : list (option Option)) : M ReadManager :=
  match notEmpty [agentID; frameworkID; executorID; containerID] with
  | Some err => fail err
  | None =>
      let rm :=
        mkReadManager masterURL
          (mkSandboxPath agentID frameworkID executorID containerID taskPath)
          ∅ TopToBottom 0 file 0 0 [] 0 false format in
      match applyOpts opts rm with
      | inl err => fail err
      | inr rm =>
          match readDirection rm with
          | BottomToTop =>
              size <- fileLen rm ;;
              locate fuel (set_offset rm size) 0 (sub size chunkSize)
          | TopToBottom => ret rm
          end
      end
  end.

(** The two results [(int, error)] of [Read], with the bytes copied into
    the buffer in place of their number. *)
Record ReadResult : Type := mkReadResult { written : gostring; err : option error }.

(** The loop of [Read] over the fetched lines. *)
Definition prependAll (ls : list Line) (rm : ReadManager) : ReadManager * Z :=
  fold_left
    (fun (st : ReadManager * Z) line =>
       (Prepand (fst st) line, add (snd st) (add (len (Message line)) 1)))
    ls (rm, 0).

(** The body of [if len(lines) > 1 { ... }] in [Read]: the fetched lines
    go to the buffer and the offset advances; with at most one line
    nothing changes. *)
Definition buffer (rm : ReadManager) (ls : list Line) (delta : Z) : ReadManager :=
  if 1 <? len ls then
    let '(rm1, linesLen) := prependAll ls rm in
    if linesLen <? chunkSize then set_offset rm1 (sub (add (offset rm1) linesLen) 1)
    else set_offset rm1 (sub (sub (add (offset rm1) chunkSize) delta) 1)
  else rm.

Definition eof : ReadResult := mkReadResult [] (Some EOF).

(** The end of [Read], from [line := rm.Pop()] on. *)
Definition emit (rm : ReadManager) (b : Z) : ReadResult * ReadManager :=
  match Pop rm with
  | (None, rm) => (eof, rm)
  | (Some line, rm) =>
      if len (Message line) =? 0 then (eof, rm)
      else
        let rm := set_readLines rm (add (readLines rm) 1) in
        let '(p, e) := readerRead (formatFn rm line) b in
        (mkReadResult p e, rm)
  end.

(** [rm.Read(b)]; the buffer [b] is given by its length.  A returned
    error is a value of the result, as in the source. *)
Definition Read (rm : ReadManager) (b : Z) : M (ReadResult * ReadManager) :=
  if negb (stream rm) && (readLines rm =? n rm) then ret (eof, rm)
  else if len (lines rm) =? 0 then
    fun w =>
      match read rm (offset rm) chunkSize None w with
      | (Ok (ls, delta), w') => (Ok (emit (buffer rm ls delta) b), w')
      | (Fail e, w') => (Ok (mkReadResult [] (Some e), rm), w')
      | (Panic, w') => (Panic, w')
      | (OutOfFuel, w') => (OutOfFuel, w')
      end
  else ret (emit rm b).

(** *** The option constructors and the remote endpoint *)

(** Modelled from the spec: the option that sets [maxLines]; the option
    constructors are not among the sources.  "ReadConfig: direction,
    maxLines, stream, headers; [maxLines <= 0] is a construction error". *)
Definition OptLines (k : Z) : Option :=
  fun rm => if k <=? 0 then inl (ErrOther (str "invalid number of lines"))
            else inr (set_n rm k).

(** Modelled from the spec: the option that sets the [stream] flag. *)
Definition OptStream (s : bool) : Option := fun rm => inr (set_stream rm s).

(** Modelled from the spec: the option that sets the [direction]. *)
Definition OptReadDirection (d : ReadDirection) : Option :=
  fun rm => inr (set_readDirection rm d).

(** Modelled from the spec: the option that sets the request headers. *)
Definition OptHeaders (h : Header) : Option := fun rm => inr (set_header rm h).

(** Modelled from the spec: the remote read endpoint over a file of
    content [content] (section 6 of the spec; the endpoint is a service
    outside the repository).  The request with [offset = -1] is the size
    probe; a request with an offset [o >= 0] is answered with the bytes
    [[o, o+length)] that the file has and echoes the offset; any other
    offset is refused with status 400. *)
Definition fileTransport (content : gostring) : Request -> error + HTTPResponse :=
  fun req =>
    if reqOffset req =? -1 then inr (mkHTTPResponse 200 (inr (mkResponse [] (len content))))
    else if reqOffset req <? 0 then inr (mkHTTPResponse 400 (inl (ErrOther (str "bad request"))))
    else
      let rest := drop (Z.to_nat (reqOffset req)) content in
      let data := match reqLength req with
                  | Some l => take (Z.to_nat l) rest
                  | None => rest
                  end in
      inr (mkHTTPResponse 200 (inr (mkResponse data (reqOffset req)))).

Definition fileWorld (content : gostring) : World := mkWorld (fileTransport content) [].

(** The content of a file made of newline-terminated lines. *)
Definition fileOfLines (ls : list gostring) : gostring :=
  concat (map (fun l => l ++ [nl]) ls).

(** The byte offset at which the line of index [i] (from zero) starts. *)
Definition lineStart (ls : list gostring) (i : nat) : Z := len (fileOfLines (take i ls)).

(** *** The consumer of a cursor

    A consumer that pulls until a pull returns an error, [io.EOF]
    included (as [io.Copy] does): the byte blocks it received and the
    error that ended the loop ([None] when [fuel] pulls did not reach
    one). *)
Fixpoint pullAll (fuel : nat) (rm : ReadManager) (b : Z) (w : World)
  : list gostring * option error * ReadManager * World :=
  match fuel with
  | O => ([], None, rm, w)
  | S fuel' =>
      match Read rm b w with
      | (Ok (r, rm'), w') =>
          match err r with
          | Some e => ([], Some e, rm', w')
          | None =>
              let '(out, e, rm'', w'') := pullAll fuel' rm' b w' in
              (written r :: out, e, rm'', w'')
          end
      | (_, w') => ([], None, rm, w')
      end
  end.

(** *** Runs of pulls

    What [rm.do] makes of the remote side's reaction to a request. *)
Definition answer (w : World) (req : Request) : error + response :=
  match transport w req with
  | inl e => inl e
  | inr resp =>
      if negb (StatusCode resp =? 200) then inl (ErrBadStatus (StatusCode resp))
      else Body resp
  end.

(** The request of [rm.read(ctx, offset, length, _)]. *)
Definition readRequest (rm : ReadManager) (offset length : Z) : Request :=
  mkRequest (readEndpoint rm) (sandboxPath rm ++ File rm) offset (Some length) (header rm).

(** One pull of a consumer: the remote side as it is at the time of the
    pull (a file may have grown since the pull before) and the length of
    the buffer handed to [Read]. *)
Record Pull : Type := mkPull {
  pullTransport : Request -> error + HTTPResponse;
  pullBuf : Z
}.

(** What a pull did: the manager before and after, the result, and the
    requests it sent. *)
Record Event : Type := mkEvent {
  before : ReadManager;
  buf : Z;
  result : ReadResult;
  after : ReadManager;
  requests : list Request
}.

(** The events of a sequence of pulls on one manager; the run stops
    short if a pull does not return. *)
Fixpoint run (rm : ReadManager) (ps : list Pull) : list Event :=
  match ps with
  | [] => []
  | p :: rest =>
      match Read rm (pullBuf p) (mkWorld (pullTransport p) []) with
      | (Ok (r, rm'), w') => mkEvent rm (pullBuf p) r rm' (sent w') :: run rm' rest
      | _ => []
      end
  end.

(** A pull is successful when it returns a nil error. *)
Definition successful (e : Event) : bool :=
  match err (result e) with None => true | Some _ => false end.

Definition successes (tr : list Event) : Z := len (filter (fun e => successful e = true) tr).

(** The result of a pull that takes the line [l] from the buffer:
    [io.EOF] for an empty message, else what [strings.Reader.Read] makes
    of the encoding of the line. *)
Definition pulled (rm : ReadManager) (l : Line) (b : Z) : ReadResult :=
  if len (Message l) =? 0 then eof
  else mkReadResult (fst (readerRead (formatFn rm l) b)) (snd (readerRead (formatFn rm l) b)).

(** *** Managers and files of the examples *)

(** A formatter: the message and a newline. *)
Definition lineFormat : Formatter := fun l => Message l ++ [nl].

(** The manager that [NewLineReader] builds before it applies the
    options, for some task. *)
Definition manager0 : ReadManager :=
  mkReadManager (str "http://leader.mesos/files/read")
    (mkSandboxPath (str "agent") (str "framework") (str "executor") (str "container") [])
    ∅ TopToBottom 0 (str "stdout") 0 0 [] 0 false lineFormat.

(** [NewLineReader] for that task over a file of the given content. *)
Definition newReader (fuel : nat) (opts : list (option Option)) (content : gostring)
  : outcome ReadManager * World :=
  NewLineReader fuel (str "http://leader.mesos/files/read")
    (str "agent") (str "framework") (str "executor") (str "container") [] (str "stdout")
    lineFormat opts (fileWorld content).

(** The file ["a\nb\nc\nd\n"]. *)
Definition abcd : gostring := fileOfLines [str "a"; str "b"; str "c"; str "d"].

(** A remote side whose answers hold less than 4 GiB of data. *)
Definition boundedAnswers (w : World) : Prop :=
  forall req r, answer w req = inr r -> len (Data r) <= 2 ^ 32.

(** The world after one more request. *)
Definition afterRequest (w : World) (req : Request) : World :=
  mkWorld (transport w) (sent w ++ [req]).

(** The request of [rm.fileLen(ctx)]. *)
Definition sizeRequest (rm : ReadManager) : Request :=
  mkRequest (readEndpoint rm) (sandboxPath rm ++ File rm) (-1) None (header rm).

(** The lines of a file of newline-terminated lines, each at the byte
    offset where it starts, from the offset [off] of the first one. *)
Fixpoint linesAt (off : Z) (ls : list gostring) : list Line :=
  match ls with
  | [] => []
  | l :: rest => mkLine l off (len l) :: linesAt (off + len l + 1) rest
  end.

(** The options of a tail of [k] lines. *)
Definition tailOpts (k : Z) : list (option Option) :=
  [Some (OptReadDirection BottomToTop); Some (OptLines k)].

(** The offset of the manager that a construction returned. *)
Definition offsetOf (r : outcome ReadManager * World) : option Z :=
  match r with
  | (Ok rm, _) => Some (offset rm)
  | _ => None
  end.

(** A file of two lines, larger than one chunk: ["aa"] and 65536 times
    ["x"]. *)
Definition twoLines : gostring :=
  fileOfLines [str "aa"; repeat "x"%byte (Z.to_nat 65536)].

(** A file of three lines of 30000 bytes each. *)
Definition threeLines : gostring :=
  fileOfLines [repeat "x"%byte (Z.to_nat 30000); repeat "y"%byte (Z.to_nat 30000);
               repeat "z"%byte (Z.to_nat 30000)].

(** *** What a consumer receives *)

(** The lines of a list up to the first one with an empty message. *)
Fixpoint untilEmpty (ls : list Line) : list Line :=
  match ls with
  | [] => []
  | l :: rest => if len (Message l) =? 0 then [] else l :: untilEmpty rest
  end.

(** The byte blocks and the final error of [pullAll]. *)
Definition outputs (x : list gostring * option error * ReadManager * World) : list gostring :=
  fst (fst (fst x)).

Definition ending (x : list gostring * option error * ReadManager * World) : option error :=
  snd (fst (fst x)).

(** What a buffer of [b] bytes receives of the encoding of a line. *)
Definition encoded (rm : ReadManager) (b : Z) (line : Line) : gostring :=
  take (Z.to_nat b) (formatFn rm line).

(** The state of a pull: the result, the manager and the world. *)
Definition pullResult (x : outcome (ReadResult * ReadManager) * World) : option ReadResult :=
  match x with
  | (Ok (r, _), _) => Some r
  | _ => None
  end.

Definition pullManager (x : outcome (ReadResult * ReadManager) * World) : option ReadManager :=
  match x with
  | (Ok (_, rm), _) => Some rm
  | _ => None
  end.

(** *** Rejoining the result of a split

    The lines' messages, each followed by one terminator, and then the
    withheld fragment: the last [delta] bytes of the chunk. *)
Definition rejoin (ls : list Line) (delta : Z) (chunk : gostring) : gostring :=
  concat (map (fun l => Message l ++ [nl]) ls)
  ++ drop (length chunk - Z.to_nat delta) chunk.

(** The chunk that [splitChunk] splits: the data after the modifier. *)
Definition modified (data : gostring) (modifier : option Modifier) : gostring :=
  match modifier with Some f => f data | None => data end.

End Reader.

(* ===================================================================== *)
(** ** journal/reader/formatters.go                                       *)
(* ===================================================================== *)

Module Journal.
Import Go.

(** [sdjournal.JournalEntry], a type of go-systemd: the fields, the
    cursor and the two timestamps ([uint64]). *)
Record JournalEntry : Type := mkJournalEntry {
  Fields : gmap gostring gostring;
  Cursor : gostring;
  RealtimeTimestamp : Z;
  MonotonicTimestamp : Z
}.

Definition ContentTypePlainText : gostring := str "text/plain".
Definition ContentTypeApplicationJSON : gostring := str "application/json".
Definition ContentTypeEventStream : gostring := str "text/event-stream".

(** [type EntryFormatter interface]; the result of [FormatEntry] is the
    pair [([]byte, error)]. *)
Class EntryFormatter (F : Type) : Type := {
  GetContentType : F -> gostring;
  FormatEntry : F -> JournalEntry -> gostring * option error
}.

(** [strings.Join] *)
Fixpoint Join (elems : list gostring) (sep : gostring) : gostring :=
  match elems with
  | [] => []
  | [x] => x
  | x :: rest => x ++ sep ++ Join rest sep
  end.

(** [type logTextEntry []string] with [Add], [String] and [ToBytes]. *)
Definition logTextEntry : Type := list gostring.

Definition Add (l : logTextEntry) (s : gostring) : logTextEntry := l ++ [s].

Definition String (l : logTextEntry) : gostring := Join l (str " ") ++ [nl].

Definition ToBytes (l : logTextEntry) : gostring := String l.

(** The anonymous struct that [marshalJournalEntry] hands to
    [json.Marshal] has the four fields of the entry. *)
Definition formattedEntry : Type := JournalEntry.

Inductive FormatText : Type := mkFormatText.
Inductive FormatJSON : Type := mkFormatJSON.
Inductive FormatSSE : Type := mkFormatSSE.

Section Formatters.

(** [time.Unix(sec, 0).Format(time.ANSIC)], which depends on the local
    time zone of the process, and [json.Marshal]. *)
Variable formatANSIC : Z -> gostring.
Variable jsonMarshal : formattedEntry -> gostring * option error.

Definition marshalJournalEntry (entry : JournalEntry) : gostring * option error :=
  jsonMarshal
    (mkJournalEntry (Fields entry) (Cursor entry) (RealtimeTimestamp entry)
       (MonotonicTimestamp entry)).

(** [FormatText.FormatEntry] *)
Definition FormatText_FormatEntry (j : FormatText) (entry : JournalEntry)
  : gostring * option error :=
  let entryBytes : gostring := [] in
  match Fields entry !! str "MESSAGE" with
  | None => (entryBytes, None)
  | Some message =>
      let l : logTextEntry := [] in
      let t := Z.quot (wrap (RealtimeTimestamp entry)) 1000000 in
      let l := Add l (formatANSIC t) in
      let l := match Fields entry !! str "_HOSTNAME" with
               | Some hostname => Add l hostname
               | None => l
               end in
      let l := match Fields entry !! str "SYSLOG_IDENTIFIER" with
               | Some syslogID => Add l syslogID
               | None => l
               end in
      let l := match Fields entry !! str "_PID" with
               | Some pid => Add l (str "[" ++ pid ++ str "]")
               | None => l
               end in
      let l := Add l message in
      (ToBytes l, None)
  end.

(** [FormatJSON.FormatEntry] *)
Definition FormatJSON_FormatEntry (j : FormatJSON) (entry : JournalEntry)
  : gostring * option error :=
  match marshalJournalEntry entry with
  | (entryBytes, Some err) => (entryBytes, Some err)
  | (entryBytes, None) =>
      let entryPostfix := [nl] in
      (entryBytes ++ entryPostfix, None)
  end.

(** [FormatSSE.FormatEntry] *)
Definition FormatSSE_FormatEntry (j : FormatSSE) (entry : JournalEntry)
  : gostring * option error :=
  match marshalJournalEntry entry with
  | (entryBytes, Some err) => (entryBytes, Some err)
  | (entryBytes, None) =>
      let entryPrefix := str "data: " in
      let entryPostfix := [nl; nl] in
      let entryWithPostfix := entryBytes ++ entryPostfix in
      let entrySSE := entryPrefix ++ entryWithPostfix in
      (entrySSE, None)
  end.

#[local] Instance FormatText_EntryFormatter : EntryFormatter FormatText :=
  {| GetContentType := fun _ => ContentTypePlainText;
     FormatEntry := FormatText_FormatEntry |}.

#[local] Instance FormatJSON_EntryFormatter : EntryFormatter FormatJSON :=
  {| GetContentType := fun _ => ContentTypeApplicationJSON;
     FormatEntry := FormatJSON_FormatEntry |}.

#[local] Instance FormatSSE_EntryFormatter : EntryFormatter FormatSSE :=
  {| GetContentType := fun _ => ContentTypeEventStream;
     FormatEntry := FormatSSE_FormatEntry |}.

End Formatters.

End Journal.

(* ===================================================================== *)
(** ** api/v2/discovery.go                                                *)
(* ===================================================================== *)

Module Discovery.
Import Go.

Definition prefix : gostring := str "/system/v1/agent".

(** [nodeutil.CanonicalTaskID], a type of dcos-go, with the fields that
    [redirectURL] reads. *)
Record CanonicalTaskID : Type := mkCanonicalTaskID {
  ID : gostring;
  AgentID : gostring;
  FrameworkID : gostring;
  ExecutorID : gostring;
  ContainerIDs : list gostring
}.

(** A call returns its results or panics. *)
Inductive call (A : Type) : Type :=
| Returned (a : A)
| IndexOutOfRange (i : Z) (length : Z).
Arguments Returned {A} a.
Arguments IndexOutOfRange {A} i length.

(** The index expression [s[i]] on a slice of strings. *)
Definition index (s : list gostring) (i : Z) : call gostring :=
  if (i <? 0) || (len s <=? i) then IndexOutOfRange i (len s)
  else match s !! Z.to_nat i with
       | Some x => Returned x
       | None => IndexOutOfRange i (len s)
       end.

(** [redirectURL(id, file)]: the results [(string, error)]. *)
Definition redirectURL (id : CanonicalTaskID) (file : gostring)
  : call (gostring * option error) :=
  let isPod := negb (len (ExecutorID id) =? 0) in
  let executorID := if negb isPod then ID id else ExecutorID id in
  match index (ContainerIDs id) (sub (len (ContainerIDs id)) 1) with
  | IndexOutOfRange i l => IndexOutOfRange i l
  | Returned taskID =>
      let taskLogURL :=
        prefix ++ str "/" ++ AgentID id ++ str "/logs/v2/task/frameworks/" ++ FrameworkID id
        ++ str "/executors/" ++ executorID ++ str "/runs/" ++ taskID ++ str "/" in
      let taskLogURL :=
        if isPod then taskLogURL ++ str "/tasks/" ++ ID id ++ str "/" ++ file
        else taskLogURL ++ file in
      Returned (taskLogURL, None)
  end.

(** *** The handler [discover]

    [mux.Vars(req)]: the variables of the route; a missing key reads as
    the empty string. *)
Definition var (vars : gmap gostring gostring) (k : gostring) : gostring :=
  match vars !! k with
  | Some v => v
  | None => []
  end.

(** [nodeInfo.TaskCanonicalID(ctx, task, completed)]: the two results, a
    pointer and an error (given by its message). *)
Definition NodeInfo : Type := gostring -> bool -> option CanonicalTaskID * option gostring.

(** What the handler writes: [http.Error(w, msg, code)] or
    [http.Redirect(w, req, url, code)]. *)
Inductive reply : Type :=
| Error (msg : gostring) (code : Z)
| Redirect (url : gostring) (code : Z).

(** The handler replies or panics. *)
Inductive handled : Type :=
| Replied (r : reply)
| NilDereference
| OutOfRange (i : Z) (length : Z).

(** The loop [for _, completed := range []bool{false, true}]: it stops at
    the first lookup without error; [last] holds the results of the
    lookup before and [calls] the lookups made so far. *)
Fixpoint lookupLoop (nodeInfo : NodeInfo) (taskID : gostring) (cs : list bool)
    (last : option CanonicalTaskID * option gostring) (calls : list (gostring * bool))
  : option CanonicalTaskID * option gostring * list (gostring * bool) :=
  match cs with
  | [] => (last, calls)
  | completed :: rest =>
      let r := nodeInfo taskID completed in
      match snd r with
      | None => (r, calls ++ [(taskID, completed)])
      | Some _ => lookupLoop nodeInfo taskID rest r (calls ++ [(taskID, completed)])
      end
  end.

(** [discover(w, req, nodeInfo)]: the reply and the lookups made.
    [errorString] is the method [Error()] of an error. *)
Definition discover (errorString : error -> gostring) (vars : gmap gostring gostring)
    (nodeInfo : NodeInfo) : handled * list (gostring * bool) :=
  let taskID := var vars (str "taskID") in
  let file := var vars (str "file") in
  let file := if len file =? 0 then str "stdout" else file in
  if len taskID =? 0 then (Replied (Error (str "taskID is empty") 500), [])
  else
    let '(ptr, err, calls) := lookupLoop nodeInfo taskID [false; true] (None, None) [] in
    match err with
    | Some e =>
        (Replied (Error (str "unable to get canonical task ID: " ++ e) 500), calls)
    | None =>
        match ptr with
        | None => (NilDereference, calls)
        | Some id =>
            match redirectURL id file with
            | IndexOutOfRange i l => (OutOfRange i l, calls)
            | Returned (taskURL, Some err) =>
                (Replied (Error (str "unable to build redirect URL: " ++ errorString err) 500),
                 calls)
            | Returned (taskURL, None) => (Replied (Redirect taskURL 303), calls)
            end
        end
    end.

End Discovery.

(* ===================================================================== *)
(** ** Definitions that the proofs compute with                           *)
(* ===================================================================== *)

Module Support.
Import Go Reader.

(** The integers [lo], [lo+1], ..., [lo+n-1]. *)
Fixpoint zrange (lo : Z) (n : nat) : list Z :=
  match n with
  | O => []
  | S k => lo :: zrange (lo + 1) k
  end.

Fixpoint zlist_eqb (l k : list Z) : bool :=
  match l, k with
  | [], [] => true
  | x :: l', y :: k' => (x =? y) && zlist_eqb l' k'
  | _, _ => false
  end.

(** The second byte [z1] is accepted after the leading byte [z0] of an
    encoding of [sz] bytes. *)
Definition accepts (sz z0 z1 : Z) : bool :=
  match leadInfo z0 with
  | Some (sz', lo, hi) => (sz' =? sz) && (lo <=? z1) && (z1 <=? hi)
  | None => false
  end.

(** Encoding what was decoded gives the bytes back, and the rune is in
    range and is not an ASCII character: the checks for the encodings
    of two and of three bytes. *)
Definition ok2 (z0 z1 : Z) : bool :=
  negb (accepts 2 z0 z1)
  || (zlist_eqb (map b2z (encoderune (rune2 z0 z1))) [z0; z1]
      && (0x80 <=? rune2 z0 z1) && (rune2 z0 z1 <=? MaxRune)).

Definition ok3 (z0 z1 z2 : Z) : bool :=
  negb (accepts 3 z0 z1)
  || (zlist_eqb (map b2z (encoderune (rune3 z0 z1 z2))) [z0; z1; z2]
      && (0x80 <=? rune3 z0 z1 z2) && (rune3 z0 z1 z2 <=? MaxRune)).

Definition continuation : list Z := zrange 0x80 64.

(** A rune is a code point. *)
Definition inRange (r : Z) : Prop := 0 <= r <= MaxRune.

(** [reverse] without the index arithmetic of the swap loop. *)
Definition reverseRunes (s : gostring) : gostring :=
  stringOfRunes (rev_append (runes s) []).

(** The backward search with a modifier [m] in the place of [reverse]. *)
Fixpoint locateWith (m : Modifier) (fuel : nat) (rm : ReadManager) (foundLines offset : Z)
  : M ReadManager :=
  match fuel with
  | O => lift OutOfFuel
  | S fuel' =>
      if offset <? 1 then ret (set_offset rm 0)
      else
        r <- read rm offset chunkSize (Some m) ;;
        let '(ls, delta) := r in
        if n rm <=? add foundLines (len ls) then
          let diff := sub (n rm) foundLines in
          lift (subtractLines ls (sub (len ls) diff) rm)
        else
          let foundLines := add foundLines (len ls) in
          let offset := sub offset (sub chunkSize delta) in
          locateWith m fuel' (set_offset rm offset) foundLines offset
  end.

End Support.

(* ===================================================================== *)
(** ** Facts about the Go primitives                                      *)
(* ===================================================================== *)

Import Go Reader.

Lemma wrap_id (z : Z) : isInt z -> wrap z = z.
Proof.
  unfold isInt, minInt, maxInt, wrap. intros H.
  rewrite Z.mod_small by lia. lia.
Qed.

Lemma len_nonneg {A : Type} (l : list A) : 0 <= len l.
Proof. unfold len. lia. Qed.

Lemma len_app {A : Type} (l k : list A) : len (l ++ k) = len l + len k.
Proof. unfold len. rewrite length_app. lia. Qed.

Lemma len_cons {A : Type} (x : A) (l : list A) : len (x :: l) = 1 + len l.
Proof. unfold len. simpl. lia. Qed.

Lemma len_nil {A : Type} : len (@nil A) = 0.
Proof. reflexivity. Qed.

Lemma len_zero_nil {A : Type} (l : list A) : len l = 0 -> l = [].
Proof. destruct l; [done | rewrite len_cons; pose proof (len_nonneg l); lia]. Qed.

Lemma eqb_nl_true (c : byte) : Byte.eqb nl c = true <-> c = nl.
Proof.
  split.
  - intros H. symmetry. by apply Byte.byte_dec_bl.
  - intros ->. by apply Byte.byte_dec_lb.
Qed.

Lemma eqb_nl_false (c : byte) : Byte.eqb nl c = false <-> c <> nl.
Proof.
  rewrite <- eqb_nl_true. destruct (Byte.eqb nl c); split; congruence.
Qed.

(** *** [strings.Split] *)

Section SplitOn.
Context {A : Type} (isSep : A -> bool).

Lemma splitOn_not_nil (s : list A) : splitOn isSep s <> [].
Proof.
  destruct s as [|c s]; simpl; [done|].
  destruct (isSep c); [done|]. by destruct (splitOn isSep s).
Qed.

Lemma splitOn_length_pos (s : list A) : (0 < length (splitOn isSep s))%nat.
Proof.
  pose proof (splitOn_not_nil s). destruct (splitOn isSep s); simpl; [done | lia].
Qed.

(** Without separator the string is the only piece. *)
Lemma splitOn_no_sep (s : list A) :
  Forall (fun c => isSep c = false) s -> splitOn isSep s = [s].
Proof.
  induction 1 as [|c s Hc _ IH]; simpl; [done|]. by rewrite Hc, IH.
Qed.

(** With a separator there are at least two pieces. *)
Lemma splitOn_sep_length (s : list A) :
  Exists (fun c => isSep c = true) s -> (1 < length (splitOn isSep s))%nat.
Proof.
  induction 1 as [c s Hc | c s _ IH]; simpl.
  - rewrite Hc. simpl. pose proof (splitOn_length_pos s). lia.
  - destruct (isSep c); simpl.
    + pose proof (splitOn_length_pos s). lia.
    + destruct (splitOn isSep s); simpl in *; lia.
Qed.

(** No piece holds a separator. *)
Lemma splitOn_pieces (s : list A) :
  Forall (Forall (fun c => isSep c = false)) (splitOn isSep s).
Proof.
  induction s as [|c s IH]; simpl.
  - by repeat constructor.
  - destruct (isSep c) eqn:Hc.
    + by constructor.
    + destruct (splitOn isSep s) as [|p ps]; [by repeat constructor|].
      inversion IH; subst. by repeat constructor.
Qed.

(** A piece followed by a separator in front of a string. *)
Lemma splitOn_app_sep (p s : list A) (c : A) :
  Forall (fun c => isSep c = false) p -> isSep c = true ->
  splitOn isSep (p ++ c :: s) = p :: splitOn isSep s.
Proof.
  intros Hp Hc. induction Hp as [|x p Hx _ IH]; simpl.
  - by rewrite Hc.
  - by rewrite Hx, IH.
Qed.

(** Appending one element at the end. *)
Lemma splitOn_snoc (s : list A) (c : A) :
  splitOn isSep (s ++ [c]) =
  if isSep c then splitOn isSep s ++ [[]]
  else removelast (splitOn isSep s) ++ [List.last (splitOn isSep s) [] ++ [c]].
Proof.
  induction s as [|x s IH]; simpl.
  - by destruct (isSep c).
  - rewrite IH. destruct (isSep x) eqn:Hx.
    + destruct (isSep c); [done|].
      pose proof (splitOn_not_nil s).
      destruct (splitOn isSep s) as [|p ps] eqn:E; [done|]. done.
    + pose proof (splitOn_not_nil s).
      destruct (splitOn isSep s) as [|p ps] eqn:E; [done|].
      destruct (isSep c).
      * done.
      * destruct ps as [|q qs]; simpl; [done|].
        pose proof (app_cons_not_nil (removelast (q :: qs)) [] (List.last (q :: qs) [] ++ [c])) as Hn.
        destruct (removelast (q :: qs) ++ [List.last (q :: qs) [] ++ [c]]) eqn:E2; [by destruct Hn|].
        done.
Qed.

End SplitOn.

(** Joining the pieces with the separator gives the string back. *)
Lemma Split_join (s : gostring) :
  concat (map (fun p => p ++ [nl]) (removelast (Split s nl))) ++ List.last (Split s nl) [] = s.
Proof.
  unfold Split. induction s as [|c s IH]; simpl; [done|].
  pose proof (splitOn_not_nil (Byte.eqb nl) s) as Hne.
  destruct (Byte.eqb nl c) eqn:Hc.
  - apply eqb_nl_true in Hc as ->.
    destruct (splitOn (Byte.eqb nl) s) as [|p ps] eqn:E; [done|].
    simpl. f_equal. exact IH.
  - destruct (splitOn (Byte.eqb nl) s) as [|p ps] eqn:E; [done|].
    destruct ps as [|q qs]; simpl in *; by f_equal.
Qed.

Lemma Split_length_gt1 (s : gostring) : nl ∈ s <-> 1 < len (Split s nl).
Proof.
  unfold Split, len. split.
  - intros H. enough (1 < length (splitOn (Byte.eqb nl) s))%nat by lia.
    apply splitOn_sep_length. apply Exists_exists. exists nl. split.
    + done.
    + by apply eqb_nl_true.
  - intros H. destruct (decide (nl ∈ s)) as [|Hn]; [done|]. exfalso.
    rewrite splitOn_no_sep in H; [simpl in H; lia|].
    apply Forall_forall. intros c Hin. apply eqb_nl_false. by intros ->.
Qed.

Lemma Split_pieces_no_nl (s p : gostring) : p ∈ Split s nl -> nl ∉ p.
Proof.
  intros Hp Hin. pose proof (splitOn_pieces (Byte.eqb nl) s) as H.
  rewrite Forall_forall in H. specialize (H p Hp).
  rewrite Forall_forall in H. specialize (H nl Hin).
  by apply eqb_nl_false in H.
Qed.

(* ===================================================================== *)
(** ** The line splitter                                                  *)
(* ===================================================================== *)

Lemma linesWithOffset_Message (offset acc : Z) (ls : list gostring) :
  map Message (linesWithOffset offset acc ls) = ls.
Proof.
  revert acc. induction ls as [|l ls IH]; intros acc; simpl; [done|]. by rewrite IH.
Qed.

Lemma linesWithOffset_length (offset acc : Z) (ls : list gostring) :
  length (linesWithOffset offset acc ls) = length ls.
Proof. by rewrite <- (length_map Message), linesWithOffset_Message. Qed.

Lemma linesWithOffset_Size (offset acc : Z) (ls : list gostring) :
  Forall (fun l => Size l = len (Message l)) (linesWithOffset offset acc ls).
Proof.
  revert acc. induction ls as [|l ls IH]; intros acc; simpl; constructor; auto.
Qed.

(** What [splitChunk] returns, by the number of pieces. *)
Lemma splitChunk_many (data : gostring) (offset : Z) (modifier : option Modifier) :
  1 < len (Split (modified data modifier) nl) ->
  splitChunk data offset modifier =
  (linesWithOffset offset 0 (removelast (Split (modified data modifier) nl)),
   len (List.last (Split (modified data modifier) nl) [])).
Proof.
  intros H. unfold splitChunk, modified in *.
  apply Z.ltb_lt in H. destruct modifier as [f|]; cbv beta; by rewrite H.
Qed.

Lemma splitChunk_one (data : gostring) (offset : Z) (modifier : option Modifier) :
  len (Split (modified data modifier) nl) <= 1 ->
  splitChunk data offset modifier =
  (linesWithOffset offset 0 (Split (modified data modifier) nl), 0).
Proof.
  intros H. unfold splitChunk, modified in *.
  apply Z.ltb_ge in H. destruct modifier as [f|]; cbv beta; by rewrite H.
Qed.

Lemma last_elem_of {A : Type} (l : list A) (d : A) : l <> [] -> List.last l d ∈ l.
Proof.
  intros H. destruct (exists_last H) as (l' & a & ->).
  rewrite last_last. apply elem_of_app. right. by apply list_elem_of_singleton.
Qed.

(** C2 (amended): for every raw chunk, modifier and base offset, when the
    (modified) chunk holds at least one terminator, the messages of the
    lines, each followed by one terminator, and then the last [delta]
    bytes of the chunk make up the chunk again; [delta] is the length of
    the fragment after the last terminator, and this fragment is not
    among the lines.  When the chunk holds no terminator, the whole chunk
    is returned as the only line and [delta] is 0. *)
Theorem splitChunk_rejoin (data : gostring) (offset : Z) (modifier : option Modifier) :
  let chunk := modified data modifier in
  let ls := fst (splitChunk data offset modifier) in
  let delta := snd (splitChunk data offset modifier) in
  (nl ∈ chunk ->
     rejoin ls delta chunk = chunk
     /\ map Message ls = removelast (Split chunk nl)
     /\ delta = len (List.last (Split chunk nl) [])
     /\ drop (length chunk - Z.to_nat delta) chunk = List.last (Split chunk nl) []
     /\ nl ∉ drop (length chunk - Z.to_nat delta) chunk)
  /\ (nl ∉ chunk -> map Message ls = [chunk] /\ delta = 0).
Proof.
  intros chunk ls delta. subst ls delta. split.
  - intros Hin. apply Split_length_gt1 in Hin as Hlen.
    rewrite (splitChunk_many _ _ _ Hlen). fold chunk. simpl.
    pose proof (Split_join chunk) as Hjoin.
    set (pieces := Split chunk nl) in *.
    set (frag := List.last pieces []) in *.
    assert (Hdrop : drop (length chunk - Z.to_nat (len frag)) chunk = frag).
    { unfold len. rewrite Nat2Z.id. rewrite <- Hjoin at 1 2.
      rewrite length_app.
      replace (_ + length frag - length frag)%nat
        with (length (concat (map (fun p => p ++ [nl]) (removelast pieces)))) by lia.
      apply drop_app_length. }
    repeat split.
    + unfold rejoin. rewrite Hdrop.
      transitivity (concat (map (fun p => p ++ [nl]) (removelast pieces)) ++ frag);
        [|exact Hjoin].
      f_equal.
      rewrite <- (linesWithOffset_Message offset 0 (removelast pieces)) at 2.
      by rewrite map_map.
    + apply linesWithOffset_Message.
    + exact Hdrop.
    + rewrite Hdrop. apply (Split_pieces_no_nl chunk). apply last_elem_of.
      apply splitOn_not_nil.
  - intros Hnin.
    assert (Hone : Split chunk nl = [chunk]).
    { apply splitOn_no_sep. apply Forall_forall. intros c Hc.
      apply eqb_nl_false. by intros ->. }
    rewrite splitChunk_one; fold chunk; rewrite Hone; [|by cbv].
    simpl. done.
Qed.

(** The amended claim at the chunk ["a\nb\nc"] and at the chunk ["abc"]. *)
Lemma splitChunk_rejoin_witness :
  rejoin (fst (splitChunk (str "a" ++ [nl] ++ str "b" ++ [nl] ++ str "c") 7 None))
         (snd (splitChunk (str "a" ++ [nl] ++ str "b" ++ [nl] ++ str "c") 7 None))
         (str "a" ++ [nl] ++ str "b" ++ [nl] ++ str "c")
  = str "a" ++ [nl] ++ str "b" ++ [nl] ++ str "c"
  /\ snd (splitChunk (str "abc") 7 None) = 0.
Proof.
  split.
  - apply (splitChunk_rejoin (str "a" ++ [nl] ++ str "b" ++ [nl] ++ str "c") 7 None).
    compute_done.
  - apply (splitChunk_rejoin (str "abc") 7 None).
    compute_done.
Defined.

(** C2 as stated fails on a chunk without terminator: the chunk ["abc"]
    is emitted as a line, no fragment is withheld, and rejoining gives
    ["abc\n"]. *)
Lemma splitChunk_rejoin_counterexample :
  splitChunk (str "abc") 0 None = ([mkLine (str "abc") 0 3], 0)
  /\ rejoin [mkLine (str "abc") 0 3] 0 (str "abc") = str "abc" ++ [nl]
  /\ rejoin [mkLine (str "abc") 0 3] 0 (str "abc") <> str "abc".
Proof. by vm_compute. Qed.

(* ===================================================================== *)
(** ** The plain-text journal formatter                                   *)
(* ===================================================================== *)

(** C9: for every journal entry whose fields hold no ["MESSAGE"] key, the
    plain-text formatter returns zero bytes and a nil error, whatever the
    other fields, the timestamps and the time zone are. *)
Theorem FormatText_without_MESSAGE (formatANSIC : Z -> gostring)
    (j : Journal.FormatText) (entry : Journal.JournalEntry) :
  Journal.Fields entry !! str "MESSAGE" = None ->
  Journal.FormatText_FormatEntry formatANSIC j entry = ([], None).
Proof.
  intros H. unfold Journal.FormatText_FormatEntry. by rewrite H.
Qed.

(** An entry with a host name, a syslog identifier and a pid, but no
    message. *)
Lemma FormatText_without_MESSAGE_witness :
  Journal.FormatText_FormatEntry (fun _ => str "Thu Jan  1 00:00:00 1970")
    Journal.mkFormatText
    (Journal.mkJournalEntry
       (<[str "_HOSTNAME" := str "node1"]>
          (<[str "SYSLOG_IDENTIFIER" := str "sshd"]>
             (<[str "_PID" := str "42"]> ∅)))
       (str "s=1;i=2") 1500000000000000 77)
  = ([], None).
Proof.
  apply (FormatText_without_MESSAGE (fun _ => str "Thu Jan  1 00:00:00 1970")).
  vm_compute. reflexivity.
Defined.

(* ===================================================================== *)
(** ** The redirect URL of a task                                         *)
(* ===================================================================== *)

(** C10: [redirectURL] reads the last element of [ContainerIDs] without a
    check.  For every task id with at least one container id it returns a
    URL, built on that last container id, and a nil error; with no
    container id the index expression is out of range (index -1 of a
    slice of length 0) and the call panics. *)
Theorem redirectURL_ContainerIDs (id : Discovery.CanonicalTaskID) (file : gostring) :
  len (Discovery.ContainerIDs id) <= maxInt ->
  (Discovery.ContainerIDs id = [] <->
     Discovery.redirectURL id file = Discovery.IndexOutOfRange (-1) 0)
  /\ (Discovery.ContainerIDs id <> [] ->
      exists taskID url,
        last (Discovery.ContainerIDs id) = Some taskID
        /\ Discovery.redirectURL id file = Discovery.Returned (url, None)).
Proof.
  intros Hlen. unfold Discovery.redirectURL, Discovery.index.
  destruct (Discovery.ContainerIDs id) as [|c cs] eqn:E using rev_ind.
  - split; [|done]. split; [|done]. intros _. by vm_compute.
  - clear IHcs. rewrite len_app, len_cons, len_nil in *.
    pose proof (len_nonneg cs) as Hcs.
    unfold sub. rewrite wrap_id by (unfold isInt, minInt, maxInt in *; lia).
    replace (len cs + (1 + 0) - 1) with (len cs) by lia.
    destruct (len cs <? 0) eqn:H1; [apply Z.ltb_lt in H1; lia|].
    destruct (len cs + (1 + 0) <=? len cs) eqn:H2; [apply Z.leb_le in H2; lia|].
    assert (Hlk : (cs ++ [c]) !! Z.to_nat (len cs) = Some c).
    { unfold len. rewrite Nat2Z.id. by apply list_lookup_middle. }
    cbn [orb]. rewrite Hlk.
    split.
    + split; [intros H; by destruct cs | intros H; discriminate H].
    + intros _. eexists c, _. split; [apply last_snoc | reflexivity].
Qed.

(** A task with two container ids: the URL is built on the last one. *)
Lemma redirectURL_ContainerIDs_witness :
  exists taskID url,
    last [str "parent"; str "child"] = Some taskID
    /\ Discovery.redirectURL
         (Discovery.mkCanonicalTaskID (str "task") (str "agent") (str "fw") []
            [str "parent"; str "child"])
         (str "stdout")
       = Discovery.Returned (url, None).
Proof.
  apply (redirectURL_ContainerIDs
           (Discovery.mkCanonicalTaskID (str "task") (str "agent") (str "fw") []
              [str "parent"; str "child"])
           (str "stdout")).
  - by vm_compute.
  - done.
Defined.

(* ===================================================================== *)
(** ** Requests and the pieces of [Read]                                  *)
(* ===================================================================== *)

Lemma do_answer (req : Request) (w : World) :
  do req w =
  (match answer w req with inl e => Fail e | inr r => Ok r end,
   mkWorld (transport w) (sent w ++ [req])).
Proof.
  unfold do, bind, clientDo, answer, fail, ret.
  destruct (transport w req) as [e|resp]; [done|].
  destruct (negb (StatusCode resp =? 200)); [done|].
  by destruct (Body resp).
Qed.

Lemma read_answer (rm : ReadManager) (off l : Z) (m : option Modifier) (w : World) :
  read rm off l m w =
  (match answer w (readRequest rm off l) with
   | inl e => Fail e
   | inr r => Ok (splitChunk (Data r) off m)
   end,
   mkWorld (transport w) (sent w ++ [readRequest rm off l])).
Proof.
  unfold read, bind, readRequest. rewrite do_answer.
  by destruct (answer w _).
Qed.

Lemma fileLen_answer (rm : ReadManager) (w : World) :
  fileLen rm w =
  (match answer w (mkRequest (readEndpoint rm) (sandboxPath rm ++ File rm) (-1) None (header rm)) with
   | inl e => Fail e
   | inr r => Ok (Offset r)
   end,
   mkWorld (transport w)
     (sent w ++ [mkRequest (readEndpoint rm) (sandboxPath rm ++ File rm) (-1) None (header rm)])).
Proof.
  unfold fileLen, bind. rewrite do_answer. by destruct (answer w _).
Qed.

(** [Read] always returns: it never panics and has no loop that the
    model bounds. *)
Lemma Read_cases (rm : ReadManager) (b : Z) (w : World) :
  Read rm b w =
  if negb (stream rm) && (readLines rm =? n rm) then (Ok (eof, rm), w)
  else if len (lines rm) =? 0 then
    (Ok (match answer w (readRequest rm (offset rm) chunkSize) with
         | inl e => (mkReadResult [] (Some e), rm)
         | inr r =>
             emit (buffer rm (fst (splitChunk (Data r) (offset rm) None))
                     (snd (splitChunk (Data r) (offset rm) None))) b
         end),
     mkWorld (transport w) (sent w ++ [readRequest rm (offset rm) chunkSize]))
  else (Ok (emit rm b), w).
Proof.
  unfold Read. destruct (negb (stream rm) && (readLines rm =? n rm)); [done|].
  destruct (len (lines rm) =? 0); [|done].
  rewrite read_answer. destruct (answer w _) as [e|r]; [done|].
  by destruct (splitChunk (Data r) (offset rm) None).
Qed.

Lemma prependAll_spec (ls : list Line) (rm : ReadManager) :
  prependAll ls rm =
  (set_lines rm (rev ls ++ lines rm),
   fold_left (fun acc line => add acc (add (len (Message line)) 1)) ls 0).
Proof.
  unfold prependAll.
  assert (G : forall (acc : Z) (buf0 : list Line),
             fold_left
               (fun (st : ReadManager * Z) line =>
                  (Prepand (fst st) line, add (snd st) (add (len (Message line)) 1)))
               ls (set_lines rm buf0, acc)
             = (set_lines rm (rev ls ++ buf0),
                fold_left (fun acc line => add acc (add (len (Message line)) 1)) ls acc)).
  { induction ls as [|l ls IH]; intros acc buf0; simpl; [done|].
    unfold Prepand at 2. simpl. change (set_lines (set_lines rm buf0) (l :: buf0))
      with (set_lines rm (l :: buf0)).
    rewrite IH. by rewrite <- app_assoc. }
  specialize (G 0 (lines rm)). destruct rm; exact G.
Qed.

(** [buffer] and [emit] leave the configuration alone. *)
Lemma buffer_config (rm : ReadManager) (ls : list Line) (delta : Z) :
  stream (buffer rm ls delta) = stream rm
  /\ n (buffer rm ls delta) = n rm
  /\ readLines (buffer rm ls delta) = readLines rm
  /\ formatFn (buffer rm ls delta) = formatFn rm.
Proof.
  unfold buffer. destruct (1 <? len ls); [|done].
  rewrite prependAll_spec. by destruct (_ <? chunkSize).
Qed.

Lemma Pop_config (rm : ReadManager) :
  stream (snd (Pop rm)) = stream rm
  /\ n (snd (Pop rm)) = n rm
  /\ readLines (snd (Pop rm)) = readLines rm
  /\ formatFn (snd (Pop rm)) = formatFn rm
  /\ offset (snd (Pop rm)) = offset rm.
Proof.
  unfold Pop. destruct (len (lines rm) =? 0); [done|].
  by destruct (lines rm !! _).
Qed.

(** [Pop] takes the last element of the buffer. *)
Lemma Pop_nil (rm : ReadManager) : lines rm = [] -> Pop rm = (None, rm).
Proof. intros H. unfold Pop. by rewrite H. Qed.

Lemma Pop_snoc (rm : ReadManager) (ls : list Line) (l : Line) :
  lines rm = ls ++ [l] -> Pop rm = (Some l, set_lines rm ls).
Proof.
  intros H. unfold Pop. rewrite H, len_app, len_cons, len_nil.
  pose proof (len_nonneg ls).
  destruct (len ls + (1 + 0) =? 0) eqn:E; [apply Z.eqb_eq in E; lia|].
  replace (len ls + (1 + 0) - 1) with (len ls) by lia.
  unfold len. rewrite Nat2Z.id, list_lookup_middle by done.
  by rewrite take_app_length.
Qed.

(** What [emit] does, by the end of the buffer. *)
Lemma emit_nil (rm : ReadManager) (b : Z) : lines rm = [] -> emit rm b = (eof, rm).
Proof. intros H. unfold emit. by rewrite Pop_nil. Qed.

Lemma emit_snoc (rm : ReadManager) (b : Z) (ls : list Line) (l : Line) :
  lines rm = ls ++ [l] ->
  emit rm b =
  if len (Message l) =? 0 then (eof, set_lines rm ls)
  else (mkReadResult (fst (readerRead (formatFn rm l) b)) (snd (readerRead (formatFn rm l) b)),
        set_readLines (set_lines rm ls) (add (readLines rm) 1)).
Proof.
  intros H. unfold emit. rewrite (Pop_snoc rm ls l H).
  destruct (len (Message l) =? 0); [done|]. simpl.
  by destruct (readerRead (formatFn rm l) b).
Qed.

(** What [emit] returns: an encoded line of the buffer, with the counter
    advanced by one, or [io.EOF]. *)
Lemma emit_spec (rm : ReadManager) (b : Z) :
  stream (snd (emit rm b)) = stream rm
  /\ n (snd (emit rm b)) = n rm
  /\ formatFn (snd (emit rm b)) = formatFn rm
  /\ offset (snd (emit rm b)) = offset rm
  /\ ((err (fst (emit rm b)) = None
       /\ readLines (snd (emit rm b)) = add (readLines rm) 1
       /\ exists line, line ∈ lines rm /\ Message line <> [] /\ formatFn rm line <> []
                       /\ written (fst (emit rm b)) = take (Z.to_nat b) (formatFn rm line))
      \/ (err (fst (emit rm b)) = Some EOF
          /\ written (fst (emit rm b)) = []
          /\ (readLines (snd (emit rm b)) = readLines rm
              \/ readLines (snd (emit rm b)) = add (readLines rm) 1))).
Proof.
  destruct (lines rm) as [|l ls _] eqn:E using rev_ind.
  - rewrite (emit_nil rm b E). simpl. repeat split; auto.
  - rewrite (emit_snoc rm b ls l E).
    destruct (len (Message l) =? 0) eqn:Hm; simpl; [repeat split; auto|].
    repeat split. unfold readerRead.
    destruct (len (formatFn rm l) <=? 0) eqn:Hf; simpl.
    + right. auto.
    + left. repeat split. exists l. repeat split.
      * apply elem_of_app. right. by apply list_elem_of_singleton.
      * intros H. rewrite H in Hm. discriminate Hm.
      * intros H. rewrite H in Hf. discriminate Hf.
Qed.

(** One pull: it returns, keeps the configuration, and advances the
    counter by one exactly when it returns a nil error; a non-streaming
    manager whose counter is at [n] answers [io.EOF] at once. *)
Lemma Read_step (rm : ReadManager) (b : Z) (w : World) :
  exists r rm' w',
    Read rm b w = (Ok (r, rm'), w')
    /\ transport w' = transport w
    /\ stream rm' = stream rm /\ n rm' = n rm /\ formatFn rm' = formatFn rm
    /\ (err r = None ->
        readLines rm' = add (readLines rm) 1
        /\ exists line, Message line <> [] /\ formatFn rm line <> []
                        /\ written r = take (Z.to_nat b) (formatFn rm line))
    /\ (err r <> None ->
        written r = []
        /\ (readLines rm' = readLines rm \/ readLines rm' = add (readLines rm) 1))
    /\ (stream rm = false -> readLines rm = n rm ->
        r = eof /\ rm' = rm /\ w' = w)
    /\ (stream rm = false -> readLines rm <> n rm -> err r = None ->
        readLines rm' = add (readLines rm) 1).
Proof.
  rewrite Read_cases.
  destruct (negb (stream rm) && (readLines rm =? n rm)) eqn:Hlim.
  { exists eof, rm, w. split_and!; try done.
    intros _. split; [done | by left]. }
  assert (Hnolim : stream rm = false -> readLines rm <> n rm).
  { intros Hs Hr. rewrite Hs in Hlim. simpl in Hlim. apply Z.eqb_neq in Hlim. done. }
  assert (Hemit : forall rm0 : ReadManager,
             stream rm0 = stream rm -> n rm0 = n rm -> formatFn rm0 = formatFn rm ->
             readLines rm0 = readLines rm ->
             forall w0, transport w0 = transport w ->
             exists r rm' w',
               (Ok (emit rm0 b), w0) = (Ok (r, rm'), w')
               /\ transport w' = transport w
               /\ stream rm' = stream rm /\ n rm' = n rm /\ formatFn rm' = formatFn rm
               /\ (err r = None ->
                   readLines rm' = add (readLines rm) 1
                   /\ exists line, Message line <> [] /\ formatFn rm line <> []
                                   /\ written r = take (Z.to_nat b) (formatFn rm line))
               /\ (err r <> None ->
                   written r = []
                   /\ (readLines rm' = readLines rm \/ readLines rm' = add (readLines rm) 1))
               /\ (stream rm = false -> readLines rm = n rm ->
                   r = eof /\ rm' = rm /\ w' = w)
               /\ (stream rm = false -> readLines rm <> n rm -> err r = None ->
                   readLines rm' = add (readLines rm) 1)).
  { intros rm0 Hs Hn Hf Hr w0 Hw.
    destruct (emit_spec rm0 b) as (Es & En & Ef & _ & Ecase).
    exists (fst (emit rm0 b)), (snd (emit rm0 b)), w0.
    split; [by destruct (emit rm0 b)|].
    split; [done|]. split; [congruence|]. split; [congruence|]. split; [congruence|].
    destruct Ecase as [(He & Hrl & line & _ & Hm & Hfl & Hwr) | (He & Hwr & Hrl)].
    - split_and!.
      + intros _. split; [congruence|]. exists line. by rewrite <- Hf.
      + intros Hne. congruence.
      + intros Hs' Hr'. by destruct (Hnolim Hs' Hr').
      + intros _ _ _. congruence.
    - split_and!.
      + intros Hn'. congruence.
      + intros _. split; [done|]. destruct Hrl; [left | right]; congruence.
      + intros Hs' Hr'. by destruct (Hnolim Hs' Hr').
      + intros _ _ Hn'. congruence. }
  destruct (len (lines rm) =? 0).
  - destruct (answer w _) as [e|r].
    + eexists _, rm, _. split; [reflexivity|]. split_and!; try done.
      * intros _. split; [done | by left].
      * intros Hs' Hr'. by destruct (Hnolim Hs' Hr').
    + destruct (buffer_config rm (fst (splitChunk (Data r) (offset rm) None))
                  (snd (splitChunk (Data r) (offset rm) None))) as (Bs & Bn & Br & Bf).
      by apply Hemit.
  - by apply Hemit.
Qed.

(* ===================================================================== *)
(** ** The line limit of a non-streaming cursor                           *)
(* ===================================================================== *)

Lemma successes_cons (e : Event) (tr : list Event) :
  successes (e :: tr) = (if successful e then 1 else 0) + successes tr.
Proof.
  unfold successes. rewrite filter_cons.
  destruct (successful e); simpl; [rewrite len_cons|]; lia.
Qed.

Lemma successes_nonneg (tr : list Event) : 0 <= successes tr.
Proof. apply len_nonneg. Qed.

Lemma add_one (z : Z) : minInt <= z < maxInt -> add z 1 = z + 1.
Proof. intros H. unfold add. apply wrap_id. unfold isInt. lia. Qed.

Lemma run_nonstreaming (ps : list Pull) :
  forall (rm : ReadManager) (s : Z),
    stream rm = false -> 0 <= s <= readLines rm -> readLines rm <= n rm <= maxInt ->
    length (run rm ps) = length ps
    /\ forall (i : nat) (e : Event),
        run rm ps !! i = Some e ->
        0 <= readLines (after e) <= n rm
        /\ s + successes (take i (run rm ps)) <= n rm
        /\ (successful e = true ->
            s + successes (take i (run rm ps)) < n rm
            /\ exists line, Message line <> []
                 /\ result e
                    = mkReadResult (take (Z.to_nat (buf e)) (formatFn rm line)) None)
        /\ (s + successes (take i (run rm ps)) = n rm ->
            result e = eof /\ requests e = [] /\ after e = before e).
Proof.
  induction ps as [|p ps IH]; intros rm s Hs Hsr Hrn; [by split|].
  simpl.
  destruct (Read_step rm (pullBuf p) (mkWorld (pullTransport p) []))
    as (r & rm' & w' & HR & _ & Hs' & Hn' & Hf' & Hok & Herr & Hlim & _).
  rewrite HR.
  assert (Hmin : minInt <= readLines rm) by (unfold minInt; lia).
  (* the counter after this pull, and whether the pull was successful *)
  assert (Hstep : 0 <= readLines rm' <= n rm
                  /\ s + (if successful (mkEvent rm (pullBuf p) r rm' (sent w')) then 1 else 0)
                     <= readLines rm'
                  /\ (err r = None -> s < n rm)).
  { unfold successful. simpl.
    destruct (decide (readLines rm = n rm)) as [Heq|Hne].
    - destruct (Hlim Hs Heq) as (-> & -> & _). simpl. split_and!; [lia | lia | lia | done].
    - destruct (err r) as [e|] eqn:Er.
      + destruct Herr as (_ & [Hr|Hr]); [done| |]; rewrite Hr;
          [|rewrite add_one by lia]; split_and!; try lia; done.
      + destruct (Hok eq_refl) as (Hr & _). rewrite Hr, add_one by lia.
        split_and!; lia. }
  destruct Hstep as (Hr' & Hsucc & Hlt).
  destruct (IH rm' (s + (if successful (mkEvent rm (pullBuf p) r rm' (sent w')) then 1 else 0)))
    as (IHlen & IHev).
  { congruence. }
  { pose proof (successes_nonneg []). destruct (successful _); lia. }
  { rewrite Hn'. lia. }
  split; [simpl; by rewrite IHlen|].
  intros [|i] e He; simpl in He.
  - injection He as <-. simpl. change (successes []) with 0.
    split; [done|]. split; [lia|]. split.
    + unfold successful. simpl. intros Hsuc.
      destruct (err r) as [e|] eqn:Er; [done|].
      split; [specialize (Hlt eq_refl); lia|].
      destruct (Hok eq_refl) as (_ & line & Hm & _ & Hw).
      exists line. split; [done|]. destruct r as [wr er]. simpl in *. by subst.
    + intros Hfull.
      assert (Heq : readLines rm = n rm) by lia.
      destruct (Hlim Hs Heq) as (-> & -> & ->). done.
  - rewrite firstn_cons, successes_cons.
    specialize (IHev i e He). rewrite Hn', Hf' in IHev.
    replace (s + ((if successful (mkEvent rm (pullBuf p) r rm' (sent w')) then 1 else 0)
                  + successes (take i (run rm' ps))))
      with (s + (if successful (mkEvent rm (pullBuf p) r rm' (sent w')) then 1 else 0)
            + successes (take i (run rm' ps))) by lia.
    exact IHev.
Qed.

(** C4: a non-streaming cursor with line limit [n], pulled any number of
    times against any remote side.  Every pull returns; the counter of
    emitted lines never exceeds [n]; a successful pull is one of the
    first [n] successful pulls and returns an encoded line; once [n]
    pulls were successful every pull returns [io.EOF] with no byte,
    sends no request and leaves the cursor as it is. *)
Theorem Read_nonstreaming_limit (rm : ReadManager) (ps : list Pull) :
  stream rm = false -> readLines rm = 0 -> 0 <= n rm <= maxInt ->
  length (run rm ps) = length ps
  /\ forall (i : nat) (e : Event),
      run rm ps !! i = Some e ->
      0 <= readLines (after e) <= n rm
      /\ successes (take i (run rm ps)) <= n rm
      /\ (successful e = true ->
          successes (take i (run rm ps)) < n rm
          /\ exists line, Message line <> []
               /\ result e = mkReadResult (take (Z.to_nat (buf e)) (formatFn rm line)) None)
      /\ (successes (take i (run rm ps)) = n rm ->
          result e = eof /\ requests e = [] /\ after e = before e).
Proof.
  intros Hs Hr Hn.
  destruct (run_nonstreaming ps rm 0) as (Hlen & Hev); [done | lia | lia |].
  split; [done|]. intros i e He. specialize (Hev i e He).
  by rewrite !Z.add_0_l in Hev.
Qed.

(** Four pulls with a limit of two lines on the file ["a\nb\nc\nd\n"]. *)
Lemma Read_nonstreaming_limit_witness :
  length (run (set_n manager0 2) (repeat (mkPull (fileTransport abcd) 100) 4)) = 4%nat
  /\ forall (i : nat) (e : Event),
      run (set_n manager0 2) (repeat (mkPull (fileTransport abcd) 100) 4) !! i = Some e ->
      0 <= readLines (after e) <= 2
      /\ successes (take i (run (set_n manager0 2) (repeat (mkPull (fileTransport abcd) 100) 4)))
         <= 2
      /\ (successful e = true ->
          successes (take i (run (set_n manager0 2) (repeat (mkPull (fileTransport abcd) 100) 4)))
          < 2
          /\ exists line, Message line <> []
               /\ result e = mkReadResult (take (Z.to_nat (buf e)) (lineFormat line)) None)
      /\ (successes (take i (run (set_n manager0 2) (repeat (mkPull (fileTransport abcd) 100) 4)))
          = 2 ->
          result e = eof /\ requests e = [] /\ after e = before e).
Proof.
  apply (Read_nonstreaming_limit (set_n manager0 2) (repeat (mkPull (fileTransport abcd) 100) 4)).
  - reflexivity.
  - reflexivity.
  - by vm_compute.
Defined.

(** The results of these four pulls: two lines, then [io.EOF] twice, and
    one request in all. *)
Example Read_nonstreaming_limit_abcd :
  map (fun e => (result e, length (requests e)))
    (run (set_n manager0 2) (repeat (mkPull (fileTransport abcd) 100) 4))
  = [ (mkReadResult (str "a" ++ [nl]) None, 1%nat);
      (mkReadResult (str "b" ++ [nl]) None, 0%nat);
      (eof, 0%nat); (eof, 0%nat) ].
Proof. by vm_compute. Qed.

(* ===================================================================== *)
(** ** The end of data of a streaming cursor                              *)
(* ===================================================================== *)

Lemma buffer_few (rm : ReadManager) (ls : list Line) (delta : Z) :
  len ls <= 1 -> buffer rm ls delta = rm.
Proof. intros H. unfold buffer. apply Z.ltb_ge in H. by rewrite H. Qed.

Lemma buffer_many (rm : ReadManager) (ls : list Line) (delta : Z) :
  1 < len ls ->
  lines (buffer rm ls delta) = rev ls ++ lines rm
  /\ formatFn (buffer rm ls delta) = formatFn rm
  /\ readLines (buffer rm ls delta) = readLines rm.
Proof.
  intros H. unfold buffer. apply Z.ltb_lt in H. rewrite H.
  rewrite prependAll_spec. by destruct (_ <? chunkSize).
Qed.

Lemma emit_pulled (rm : ReadManager) (b : Z) (ls : list Line) (l : Line) :
  lines rm = ls ++ [l] -> fst (emit rm b) = pulled rm l b.
Proof.
  intros H. rewrite (emit_snoc rm b ls l H). unfold pulled.
  by destruct (len (Message l) =? 0).
Qed.

Lemma pulled_EOF (rm : ReadManager) (l : Line) (b : Z) :
  err (pulled rm l b) = Some EOF <-> Message l = [] \/ formatFn rm l = [].
Proof.
  unfold pulled, readerRead.
  destruct (len (Message l) =? 0) eqn:Hm.
  - apply Z.eqb_eq, len_zero_nil in Hm. split; auto.
  - apply Z.eqb_neq in Hm.
    destruct (len (formatFn rm l) <=? 0) eqn:Hf; simpl.
    + apply Z.leb_le in Hf. pose proof (len_nonneg (formatFn rm l)).
      assert (Hz : len (formatFn rm l) = 0) by lia.
      apply len_zero_nil in Hz. split; auto.
    + apply Z.leb_gt in Hf. split; [done|].
      intros [H|H]; rewrite H in *; by cbv in *.
Qed.

(** In streaming mode the first test of [Read] is off, so a pull does not
    look at [n] and at the counter. *)
Lemma Read_streaming_any_limit (rm : ReadManager) (b : Z) (w : World) (k j : Z) :
  stream rm = true ->
  exists r rm' rm2' w',
    Read rm b w = (Ok (r, rm'), w')
    /\ Read (set_readLines (set_n rm k) j) b w = (Ok (r, rm2'), w')
    /\ lines rm2' = lines rm' /\ offset rm2' = offset rm'.
Proof.
  intros Hs. rewrite !Read_cases. simpl. rewrite Hs. simpl.
  assert (Hemit : forall rm1 rm2 : ReadManager,
             lines rm2 = lines rm1 -> offset rm2 = offset rm1 ->
             formatFn rm2 = formatFn rm1 ->
             fst (emit rm2 b) = fst (emit rm1 b)
             /\ lines (snd (emit rm2 b)) = lines (snd (emit rm1 b))
             /\ offset (snd (emit rm2 b)) = offset (snd (emit rm1 b))).
  { intros rm1 rm2 Hl Ho Hf.
    destruct (lines rm1) as [|l ls _] eqn:E using rev_ind.
    - rewrite (emit_nil rm1), (emit_nil rm2) by congruence.
      simpl. split_and!; congruence.
    - rewrite (emit_snoc rm1 b ls l), (emit_snoc rm2 b ls l) by congruence.
      rewrite Hf. destruct (len (Message l) =? 0); simpl; split_and!; congruence. }
  destruct (len (lines rm) =? 0).
  - change (readRequest (set_readLines (set_n rm k) j) (offset rm) chunkSize)
      with (readRequest rm (offset rm) chunkSize).
    destruct (answer w _) as [e|resp].
    + by eexists _, _, _, _.
    + set (ls := fst (splitChunk (Data resp) (offset rm) None)).
      set (delta := snd (splitChunk (Data resp) (offset rm) None)).
      destruct (Hemit (buffer rm ls delta) (buffer (set_readLines (set_n rm k) j) ls delta))
        as (H1 & H2 & H3).
      { unfold buffer. destruct (1 <? len ls); [|done].
        rewrite !prependAll_spec. by destruct (_ <? chunkSize). }
      { unfold buffer. destruct (1 <? len ls); [|done].
        rewrite !prependAll_spec. by destruct (_ <? chunkSize). }
      { unfold buffer. destruct (1 <? len ls); [|done].
        rewrite !prependAll_spec. by destruct (_ <? chunkSize). }
      exists (fst (emit (buffer rm ls delta) b)), (snd (emit (buffer rm ls delta) b)),
        (snd (emit (buffer (set_readLines (set_n rm k) j) ls delta) b)).
      eexists. split; [by destruct (emit (buffer rm ls delta) b)|].
      split; [|done]. rewrite <- H1.
      by destruct (emit (buffer (set_readLines (set_n rm k) j) ls delta) b).
  - destruct (Hemit rm (set_readLines (set_n rm k) j)) as (H1 & H2 & H3); try done.
    exists (fst (emit rm b)), (snd (emit rm b)),
      (snd (emit (set_readLines (set_n rm k) j) b)).
    eexists. split; [by destruct (emit rm b)|].
    split; [|done]. rewrite <- H1.
    by destruct (emit (set_readLines (set_n rm k) j) b).
Qed.

(** C5 (amended): a pull of a streaming cursor always returns, and its
    result is the same whatever [n] and the counter of emitted lines are:
    it never returns [io.EOF] because of the line limit.  With a line in
    the buffer it sends no request and returns what the line at the
    consuming end gives.  With an empty buffer it sends one request; when
    the fetch yields at most one line nothing is buffered and the pull
    returns [io.EOF]; when it yields two lines or more, the pull returns
    what the first of them gives.  What a line gives is [io.EOF] exactly
    when its message or its encoding is empty, else its encoding. *)
Theorem Read_streaming_EOF (rm : ReadManager) (b : Z) (w : World) :
  stream rm = true ->
  exists r rm' w',
    Read rm b w = (Ok (r, rm'), w')
    /\ (forall k j, exists rm2',
           Read (set_readLines (set_n rm k) j) b w = (Ok (r, rm2'), w'))
    /\ (forall ls l, lines rm = ls ++ [l] -> r = pulled rm l b /\ w' = w)
    /\ (lines rm = [] ->
        sent w' = sent w ++ [readRequest rm (offset rm) chunkSize]
        /\ match answer w (readRequest rm (offset rm) chunkSize) with
           | inl e => r = mkReadResult [] (Some e) /\ rm' = rm
           | inr resp =>
               let ls := fst (splitChunk (Data resp) (offset rm) None) in
               (len ls <= 1 -> r = eof /\ rm' = rm)
               /\ (forall l rest, ls = l :: rest -> 1 < len ls -> r = pulled rm l b)
           end)
    /\ (forall l, err (pulled rm l b) = Some EOF <-> Message l = [] \/ formatFn rm l = []).
Proof.
  intros Hs.
  destruct (Read_streaming_any_limit rm b w 0 0 Hs) as (r & rm' & _ & w' & HR & _).
  exists r, rm', w'. split; [exact HR|]. split_and!.
  - intros k j.
    destruct (Read_streaming_any_limit rm b w k j Hs) as (r2 & rm2 & rm2' & w2 & HR2 & HR2' & _).
    rewrite HR in HR2. injection HR2 as <- <- <-. by exists rm2'.
  - intros ls l Hl. rewrite Read_cases, Hs in HR. simpl in HR.
    rewrite Hl, len_app, len_cons, len_nil in HR. pose proof (len_nonneg ls).
    destruct (len ls + (1 + 0) =? 0) eqn:E; [apply Z.eqb_eq in E; lia|].
    injection HR as HR <-. split; [|done].
    rewrite <- (emit_pulled rm b ls l Hl). by rewrite HR.
  - intros Hl. rewrite Read_cases, Hs in HR. simpl in HR. rewrite Hl in HR. simpl in HR.
    injection HR as HR <-. split; [done|].
    destruct (answer w _) as [e|resp].
    + by injection HR as <- <-.
    + cbv zeta. set (ls := fst (splitChunk (Data resp) (offset rm) None)) in *.
      set (delta := snd (splitChunk (Data resp) (offset rm) None)) in *.
      split.
      * intros Hfew. rewrite (buffer_few rm ls delta Hfew), (emit_nil rm b Hl) in HR.
        by injection HR as <- <-.
      * intros l rest Els Hmany.
        destruct (buffer_many rm ls delta Hmany) as (Hb & Hf & _).
        assert (Hb' : lines (buffer rm ls delta) = rev rest ++ [l]).
        { rewrite Hb, Hl, app_nil_r. subst ls. by rewrite Els. }
        pose proof (emit_pulled _ b _ _ Hb') as Hp. rewrite HR in Hp. simpl in Hp.
        rewrite Hp. unfold pulled. by rewrite Hf.
  - intros l. apply pulled_EOF.
Qed.

(** The first pull of a streaming cursor on the file ["a\nb\nc\nd\n"]. *)
Lemma Read_streaming_EOF_witness :
  exists r rm' w',
    Read (set_stream manager0 true) 100 (fileWorld abcd) = (Ok (r, rm'), w')
    /\ forall k j, exists rm2',
         Read (set_readLines (set_n (set_stream manager0 true) k) j) 100 (fileWorld abcd)
         = (Ok (r, rm2'), w').
Proof.
  destruct (Read_streaming_EOF (set_stream manager0 true) 100 (fileWorld abcd) eq_refl)
    as (r & rm' & w' & HR & Hany & _).
  by exists r, rm', w'.
Defined.

(** C5 as stated fails: a streaming cursor has read ["a\nb\n"]; the file
    grows to ["a\nb\nc\nd\n"]; the fetch of the next pull yields three
    lines, two of them new and not empty, and the pull returns
    [io.EOF]. *)
Lemma Read_streaming_EOF_counterexample :
  exists e,
    run (set_stream manager0 true)
      (repeat (mkPull (fileTransport (fileOfLines [str "a"; str "b"])) 100) 3
       ++ repeat (mkPull (fileTransport abcd) 100) 3) !! 3%nat = Some e
    /\ stream (before e) = true
    /\ lines (before e) = []
    /\ fst (read (before e) (offset (before e)) chunkSize None (fileWorld abcd))
       = Ok ([mkLine [] 3 0; mkLine (str "c") 4 1; mkLine (str "d") 6 1], 0)
    /\ length (requests e) = 1%nat
    /\ result e = eof.
Proof. eexists. split; [by vm_compute|]. by vm_compute. Qed.

(** The whole run: the two lines, [io.EOF] on the file as it is,
    [io.EOF] again after the file has grown, then the two new lines. *)
Example Read_streaming_follow :
  map result
    (run (set_stream manager0 true)
       (repeat (mkPull (fileTransport (fileOfLines [str "a"; str "b"])) 100) 3
        ++ repeat (mkPull (fileTransport abcd) 100) 3))
  = [ mkReadResult (str "a" ++ [nl]) None; mkReadResult (str "b" ++ [nl]) None; eof;
      eof; mkReadResult (str "c" ++ [nl]) None; mkReadResult (str "d" ++ [nl]) None ].
Proof. by vm_compute. Qed.

(* ===================================================================== *)
(** ** Lengths under [reverse]                                            *)
(* ===================================================================== *)

Lemma removelast_length {A : Type} (l : list A) : length (removelast l) = (length l - 1)%nat.
Proof. rewrite removelast_firstn_len. rewrite length_take. lia. Qed.

Lemma splitOn_length_le {A : Type} (isSep : A -> bool) (s : list A) :
  (length (splitOn isSep s) <= length s + 1)%nat.
Proof.
  induction s as [|c s IH]; simpl; [lia|].
  destruct (isSep c); simpl; [lia|].
  destruct (splitOn isSep s); simpl in *; lia.
Qed.

Lemma DecodeRuneInString_width (s : gostring) :
  s <> [] -> (1 <= snd (DecodeRuneInString s) <= 4)%nat.
Proof.
  intros Hs. destruct s as [|s0 t]; [done|]. unfold DecodeRuneInString.
  repeat match goal with
         | |- context [if ?c then _ else _] => destruct c
         | |- context [match leadInfo ?z with _ => _ end] =>
             destruct (leadInfo z) as [[[? ?] ?]|]
         end; simpl; lia.
Qed.

Lemma runesFrom_length (fuel : nat) (s : gostring) :
  (length (runesFrom fuel s) <= length s)%nat.
Proof.
  revert s. induction fuel as [|fuel IH]; intros s; simpl; [lia|].
  destruct s as [|s0 t]; [simpl; lia|].
  pose proof (DecodeRuneInString_width (s0 :: t)) as Hw.
  destruct (DecodeRuneInString (s0 :: t)) as [r w]. simpl in Hw.
  specialize (Hw ltac:(done)). simpl length at 1.
  specialize (IH (drop w (s0 :: t))). rewrite length_drop in IH. simpl in *. lia.
Qed.

Lemma swapLoop_length (fuel : nat) (i j : Z) (rs : list Z) :
  length (swapLoop fuel i j rs) = length rs.
Proof.
  revert i j rs. induction fuel as [|fuel IH]; intros i j rs; simpl; [done|].
  destruct (i <? j); [|done].
  destruct (rs !! Z.to_nat i); [|done]. destruct (rs !! Z.to_nat j); [|done].
  by rewrite IH, !length_insert.
Qed.

Lemma encoderune_length (r : Z) : (1 <= length (encoderune r) <= 4)%nat.
Proof.
  unfold encoderune, encode3.
  repeat match goal with |- context [if ?c then _ else _] => destruct c end; simpl; lia.
Qed.

Lemma stringOfRunes_length (rs : list Z) : (length (stringOfRunes rs) <= 4 * length rs)%nat.
Proof.
  unfold stringOfRunes. induction rs as [|r rs IH]; simpl; [lia|].
  rewrite length_app. pose proof (encoderune_length r). lia.
Qed.

Lemma reverse_length_le (s : gostring) : len (reverse s) <= 4 * len s.
Proof.
  unfold reverse, len.
  pose proof (stringOfRunes_length
                (swapLoop (length (runes s)) 0 (sub (Z.of_nat (length (runes s))) 1) (runes s))) as H.
  rewrite swapLoop_length in H.
  pose proof (runesFrom_length (length s) s). unfold runes in *. lia.
Qed.

(** The number of lines of a chunk, with or without [reverse]. *)
Lemma splitChunk_length (data : gostring) (offset : Z) (modifier : option Modifier) :
  1 <= len (fst (splitChunk data offset modifier)) <= len (modified data modifier) + 1.
Proof.
  pose proof (splitOn_length_pos (Byte.eqb nl) (modified data modifier)) as Hpos.
  pose proof (splitOn_length_le (Byte.eqb nl) (modified data modifier)) as Hle.
  destruct (decide (1 < len (Split (modified data modifier) nl))) as [H|H].
  - rewrite (splitChunk_many _ _ _ H). simpl. unfold len in *.
    rewrite linesWithOffset_length, removelast_length.
    unfold Split in *. lia.
  - rewrite (splitChunk_one data offset modifier) by lia. simpl. unfold len in *.
    rewrite linesWithOffset_length. unfold Split in *. lia.
Qed.

(* ===================================================================== *)
(** ** Construction: errors and termination                               *)
(* ===================================================================== *)

Lemma answer_transport (w w' : World) (req : Request) :
  transport w' = transport w -> answer w' req = answer w req.
Proof. intros H. unfold answer. by rewrite H. Qed.

(** One iteration of the backward search. *)
Lemma locate_step (fuel : nat) (rm : ReadManager) (f off : Z) (w : World) :
  locate (S fuel) rm f off w =
  if off <? 1 then (Ok (set_offset rm 0), w)
  else
    match answer w (readRequest rm off chunkSize) with
    | inl e => (Fail e, afterRequest w (readRequest rm off chunkSize))
    | inr r =>
        let ls := fst (splitChunk (Data r) off (Some reverse)) in
        let delta := snd (splitChunk (Data r) off (Some reverse)) in
        if n rm <=? add f (len ls) then
          (subtractLines ls (sub (len ls) (sub (n rm) f)) rm,
           afterRequest w (readRequest rm off chunkSize))
        else
          locate fuel (set_offset rm (sub off (sub chunkSize delta))) (add f (len ls))
            (sub off (sub chunkSize delta)) (afterRequest w (readRequest rm off chunkSize))
    end.
Proof.
  cbn [locate]. destruct (off <? 1); [done|].
  unfold bind. rewrite read_answer. fold (afterRequest w (readRequest rm off chunkSize)).
  destruct (answer w _) as [e|r]; [done|].
  destruct (splitChunk (Data r) off (Some reverse)) as [ls delta]. cbn [fst snd].
  by destruct (n rm <=? add f (len ls)).
Qed.

Lemma set_offset_config (rm : ReadManager) (o : Z) :
  n (set_offset rm o) = n rm
  /\ readRequest (set_offset rm o) = readRequest rm.
Proof. done. Qed.

Lemma subtract_fold_config (l : list Line) (rm : ReadManager) :
  let rm' := fold_left
               (fun rm l => set_offset rm (sub (offset rm) (add (len (Message l)) 1))) l rm in
  n rm' = n rm /\ readDirection rm' = readDirection rm
  /\ stream rm' = stream rm /\ lines rm' = lines rm /\ readLines rm' = readLines rm.
Proof.
  revert rm. induction l as [|x l IHl]; intros rm; [done|]. simpl.
  specialize (IHl (set_offset rm (sub (offset rm) (add (len (Message x)) 1)))).
  simpl in IHl. exact IHl.
Qed.

(** With enough fuel the backward search returns a manager or the error
    of a request that failed; it sends its requests one after the other
    and stops at the first that fails. *)
Lemma locate_returns (fuel : nat) :
  forall (rm : ReadManager) (f off : Z) (w : World),
    - 2 ^ 62 <= n rm <= 2 ^ 62 ->
    0 <= f -> (f = 0 \/ f < n rm) ->
    Z.max 1 (n rm - f) <= Z.of_nat fuel ->
    boundedAnswers w ->
    exists o w' reqs,
      locate fuel rm f off w = (o, w')
      /\ transport w' = transport w
      /\ sent w' = sent w ++ reqs
      /\ ((exists rm', o = Ok rm' /\ n rm' = n rm /\ readDirection rm' = readDirection rm
                       /\ stream rm' = stream rm /\ lines rm' = lines rm
                       /\ readLines rm' = readLines rm)
          /\ Forall (fun req => exists r, answer w req = inr r) reqs
          \/ (exists e req, o = Fail e /\ req ∈ reqs /\ answer w req = inl e)).
Proof.
  induction fuel as [|fuel IH]; intros rm f off w Hn Hf Hfn Hfuel Hb; [lia|].
  rewrite locate_step. destruct (off <? 1).
  { exists (Ok (set_offset rm 0)), w, []. rewrite app_nil_r. split_and!; try done.
    left. split; [by eexists|]. constructor. }
  set (req := readRequest rm off chunkSize).
  destruct (answer w req) as [e|r] eqn:Ea.
  { exists (Fail e), (afterRequest w req), [req]. split_and!; try done.
    right. exists e, req. split_and!; try done. by apply list_elem_of_singleton. }
  cbv zeta.
  pose proof (splitChunk_length (Data r) off (Some reverse)) as Hlen.
  pose proof (reverse_length_le (Data r)) as Hrev.
  pose proof (Hb req r Ea) as Hdata. simpl in Hlen.
  set (ls := fst (splitChunk (Data r) off (Some reverse))) in *.
  set (delta := snd (splitChunk (Data r) off (Some reverse))) in *.
  assert (Hadd : add f (len ls) = f + len ls).
  { unfold add. apply wrap_id. unfold isInt, minInt, maxInt. lia. }
  rewrite Hadd. destruct (n rm <=? f + len ls) eqn:Hfound.
  - apply Z.leb_le in Hfound.
    assert (Hi : sub (len ls) (sub (n rm) f) = len ls - (n rm - f)).
    { unfold sub. rewrite (wrap_id (n rm - f)) by (unfold isInt, minInt, maxInt; lia).
      apply wrap_id. unfold isInt, minInt, maxInt. lia. }
    rewrite Hi. unfold subtractLines.
    assert (Hsub : exists rm', (if len ls - (n rm - f) <? len ls
                                then if len ls - (n rm - f) <? 0 then Panic
                                     else Ok (fold_left
                                                (fun rm l => set_offset rm (sub (offset rm) (add (len (Message l)) 1)))
                                                (drop (Z.to_nat (len ls - (n rm - f))) ls) rm)
                                else Ok rm) = Ok rm'
                               /\ n rm' = n rm /\ readDirection rm' = readDirection rm
                               /\ stream rm' = stream rm /\ lines rm' = lines rm
                               /\ readLines rm' = readLines rm).
    { destruct (len ls - (n rm - f) <? len ls); [|by eexists].
      destruct (len ls - (n rm - f) <? 0) eqn:Hneg; [apply Z.ltb_lt in Hneg; lia|].
      eexists. split; [reflexivity|]. apply subtract_fold_config. }
    destruct Hsub as (rm' & -> & Hcfg).
    exists (Ok rm'), (afterRequest w req), [req]. split_and!; try done.
    left. split; [by exists rm'|]. constructor; [by exists r | constructor].
  - apply Z.leb_gt in Hfound.
    destruct (IH (set_offset rm (sub off (sub chunkSize delta))) (f + len ls)
                (sub off (sub chunkSize delta)) (afterRequest w req))
      as (o & w' & reqs & HL & Ht & Hsent & Hcase).
    + done.
    + lia.
    + right. simpl. lia.
    + simpl. lia.
    + intros q r' Hq. apply (Hb q r'). by rewrite <- Hq.
    + exists o, w', (req :: reqs). split; [exact HL|]. split; [exact Ht|].
      split; [rewrite Hsent; simpl; by rewrite <- app_assoc|].
      destruct Hcase as [((rm' & -> & Hcfg) & Hall) | (e & q & -> & Hq & Hqa)].
      * left. split; [by exists rm'|]. constructor; [by exists r|].
        eapply Forall_impl; [exact Hall|]. intros q (r' & Hr'). by exists r'.
      * right. exists e, q. split_and!; [done | by apply elem_of_cons; right | done].
Qed.

Lemma notEmpty_four (a b c d : gostring) :
  ((a = [] \/ b = [] \/ c = [] \/ d = []) /\ notEmpty [a; b; c; d] = Some ErrEmptyParam)
  \/ (a <> [] /\ b <> [] /\ c <> [] /\ d <> [] /\ notEmpty [a; b; c; d] = None).
Proof.
  destruct a as [|a0 a]; [left; split; [auto | done]|].
  destruct b as [|b0 b]; [left; split; [auto | done]|].
  destruct c as [|c0 c]; [left; split; [auto | done]|].
  destruct d as [|d0 d]; [left; split; [auto | done]|].
  right. split_and!; done.
Qed.

(** C6: construction returns a manager or an error, and nothing else
    (for a line count below [2^62], answers of less than 4 GiB, and a
    loop bound of the model above the line count).  It returns an error
    exactly when one of the four identifiers is empty (the error is then
    [ErrEmptyParam]), when an option fails, or when the direction is
    [BottomToTop] and one of the requests it sent failed; in the first
    two cases no request is sent.  The option that sets [maxLines]
    fails exactly for [maxLines <= 0].  [taskPath] is not constrained. *)
Theorem NewLineReader_errors (fuel : nat)
    (masterURL agentID frameworkID executorID containerID taskPath file : gostring)
    (format : Formatter) (opts : list (option Option)) (w : World) :
  let rm0 :=
    mkReadManager masterURL
      (mkSandboxPath agentID frameworkID executorID containerID taskPath)
      ∅ TopToBottom 0 file 0 0 [] 0 false format in
  (forall rm1, applyOpts opts rm0 = inr rm1 ->
               - 2 ^ 62 <= n rm1 <= 2 ^ 62 /\ Z.max 1 (n rm1) <= Z.of_nat fuel) ->
  boundedAnswers w ->
  exists o w' reqs,
    NewLineReader fuel masterURL agentID frameworkID executorID containerID taskPath file
      format opts w = (o, w')
    /\ transport w' = transport w
    /\ sent w' = sent w ++ reqs
    /\ ((exists rm, o = Ok rm) \/ (exists e, o = Fail e))
    /\ ((exists e, o = Fail e) <->
        (agentID = [] \/ frameworkID = [] \/ executorID = [] \/ containerID = [])
        \/ (exists e, applyOpts opts rm0 = inl e)
        \/ (exists rm1 req e,
               applyOpts opts rm0 = inr rm1 /\ readDirection rm1 = BottomToTop
               /\ req ∈ reqs /\ answer w req = inl e))
    /\ (agentID = [] \/ frameworkID = [] \/ executorID = [] \/ containerID = []
        -> o = Fail ErrEmptyParam /\ reqs = [])
    /\ ((exists e, applyOpts opts rm0 = inl e) -> reqs = [])
    /\ (forall k rm, (k <= 0 -> exists e, OptLines k rm = inl e)
                     /\ (0 < k -> OptLines k rm = inr (set_n rm k))).
Proof.
  intros rm0 Hopts Hb.
  assert (HoptLines : forall k rm, (k <= 0 -> exists e, OptLines k rm = inl e)
                                   /\ (0 < k -> OptLines k rm = inr (set_n rm k))).
  { intros k rm. unfold OptLines. destruct (k <=? 0) eqn:E.
    - apply Z.leb_le in E. split; [by eexists | lia].
    - apply Z.leb_gt in E. split; [lia | done]. }
  unfold NewLineReader. fold rm0.
  destruct (notEmpty_four agentID frameworkID executorID containerID)
    as [(Hempty & ->) | (Ha & Hf & He & Hc & ->)].
  { exists (Fail ErrEmptyParam), w, []. rewrite app_nil_r.
    split_and!; try done.
    - right. by eexists.
    - split; [by left | by eexists]. }
  assert (Hnonempty : ~ (agentID = [] \/ frameworkID = [] \/ executorID = [] \/ containerID = []))
    by (intros [?|[?|[?|?]]]; done).
  destruct (applyOpts opts rm0) as [e|rm1] eqn:Eopts.
  { exists (Fail e), w, []. rewrite app_nil_r. split_and!; try done.
    - right. by eexists.
    - split; [intros _; right; left; by eexists | by eexists]. }
  destruct (Hopts rm1 eq_refl) as (Hn & Hfuel).
  destruct (readDirection rm1) eqn:Edir.
  { exists (Ok rm1), w, []. rewrite app_nil_r. split_and!; try done.
    - left. by eexists.
    - split; [by intros (e & He') |].
      intros [H|[(e & H)|(rm & req & e & H & Hd & _)]]; [done | done |].
      injection H as <-. congruence. }
  unfold bind. rewrite fileLen_answer. fold (sizeRequest rm1).
  fold (afterRequest w (sizeRequest rm1)).
  destruct (answer w (sizeRequest rm1)) as [e|r] eqn:Esize.
  { exists (Fail e), (afterRequest w (sizeRequest rm1)), [sizeRequest rm1].
    split_and!; try done.
    - right. by eexists.
    - split; [|by eexists]. intros _. right. right.
      exists rm1, (sizeRequest rm1), e. split_and!; try done.
      by apply list_elem_of_singleton.
    - by intros (e' & H). }
  destruct (locate_returns fuel (set_offset rm1 (Offset r)) 0 (sub (Offset r) chunkSize)
              (afterRequest w (sizeRequest rm1)))
    as (o & w' & reqs & HL & Ht & Hsent & Hcase).
  { done. } { done. } { by left. } { simpl. lia. }
  { intros q r' Hq. by apply (Hb q r'). }
  exists o, w', (sizeRequest rm1 :: reqs). rewrite HL.
  split; [done|]. split; [exact Ht|].
  split; [rewrite Hsent; simpl; by rewrite <- app_assoc|].
  destruct Hcase as [((rm' & -> & Hcfg) & Hall) | (e & q & -> & Hq & Hqa)].
  - split_and!; try done.
    + left. by eexists.
    + split; [by intros (e & H)|].
      intros [H|[(e & H)|(rm & req & e & H & Hd & Hin & Hfail)]]; [done | done |].
      exfalso. apply elem_of_cons in Hin as [->|Hin].
      * injection H as <-. congruence.
      * rewrite Forall_forall in Hall. destruct (Hall req Hin) as (r' & Hr').
        change (answer (afterRequest w (sizeRequest rm1)) req)
          with (answer w req) in Hr'. congruence.
    + by intros (e & H).
  - split_and!; try done.
    + right. by eexists.
    + split; [|by eexists]. intros _. right. right.
      exists rm1, q, e. split_and!; try done. by apply elem_of_cons; right.
    + by intros (e' & H).
Qed.

(** *** The endpoint over a file *)

Lemma chunkSize_eq : chunkSize = 65536.
Proof. reflexivity. Qed.

Lemma fileTransport_answer (content : gostring) (s : list Request) (req : Request) :
  answer (mkWorld (fileTransport content) s) req =
  if reqOffset req =? -1 then inr (mkResponse [] (len content))
  else if reqOffset req <? 0 then inl (ErrBadStatus 400)
  else inr (mkResponse
              (match reqLength req with
               | Some l => take (Z.to_nat l) (drop (Z.to_nat (reqOffset req)) content)
               | None => drop (Z.to_nat (reqOffset req)) content
               end)
              (reqOffset req)).
Proof.
  unfold answer, fileTransport. simpl.
  destruct (reqOffset req =? -1); [done|]. by destruct (reqOffset req <? 0).
Qed.

Lemma fileWorld_bounded (content : gostring) (s : list Request) :
  len content <= 2 ^ 32 -> boundedAnswers (mkWorld (fileTransport content) s).
Proof.
  intros H req r. rewrite fileTransport_answer.
  destruct (reqOffset req =? -1); [intros [= <-]; by cbv|].
  destruct (reqOffset req <? 0); [done|]. intros [= <-]. simpl.
  unfold len in *. destruct (reqLength req).
  - rewrite length_take, length_drop. lia.
  - rewrite length_drop. lia.
Qed.

(** A tail of two lines of the file ["a\nb\nc\nd\n"]. *)
Lemma NewLineReader_errors_witness :
  exists o w' reqs,
    newReader 10 (tailOpts 2) abcd = (o, w')
    /\ sent w' = reqs
    /\ ((exists rm, o = Ok rm) \/ (exists e, o = Fail e)).
Proof.
  destruct (NewLineReader_errors 10 (str "http://leader.mesos/files/read")
              (str "agent") (str "framework") (str "executor") (str "container") []
              (str "stdout") lineFormat (tailOpts 2) (fileWorld abcd))
    as (o & w' & reqs & HN & _ & Hsent & Hcase & _).
  - intros rm1 H. vm_compute in H. injection H as <-. by vm_compute.
  - apply fileWorld_bounded. by vm_compute.
  - exists o, w', reqs. split; [exact HN|]. split; [exact Hsent | exact Hcase].
Defined.

(* ===================================================================== *)
(** ** Construction from the bottom of a file                             *)
(* ===================================================================== *)

(** C1 (amended): for every remote file of at most [chunkSize] bytes and
    every tail request, construction with direction [BottomToTop] sends
    the size probe only and sets the initial offset to 0, the start of
    the first line. *)
Theorem NewLineReader_BottomToTop_small (fuel : nat)
    (masterURL agentID frameworkID executorID containerID taskPath file : gostring)
    (format : Formatter) (opts : list (option Option)) (content : gostring)
    (rm1 : ReadManager) :
  agentID <> [] -> frameworkID <> [] -> executorID <> [] -> containerID <> [] ->
  applyOpts opts
    (mkReadManager masterURL
       (mkSandboxPath agentID frameworkID executorID containerID taskPath)
       ∅ TopToBottom 0 file 0 0 [] 0 false format) = inr rm1 ->
  readDirection rm1 = BottomToTop ->
  len content <= chunkSize ->
  (0 < fuel)%nat ->
  NewLineReader fuel masterURL agentID frameworkID executorID containerID taskPath file
    format opts (fileWorld content)
  = (Ok (set_offset rm1 0), afterRequest (fileWorld content) (sizeRequest rm1))
  /\ offset (set_offset rm1 0) = 0.
Proof.
  intros Ha Hf He Hc Hopts Hdir Hlen Hfuel. split; [|done].
  unfold NewLineReader.
  destruct (notEmpty_four agentID frameworkID executorID containerID)
    as [([?|[?|[?|?]]] & _) | (_ & _ & _ & _ & ->)]; try done.
  rewrite Hopts, Hdir. unfold bind. rewrite fileLen_answer.
  fold (sizeRequest rm1). unfold fileWorld at 1. rewrite fileTransport_answer.
  simpl reqOffset. simpl Z.eqb. cbn iota. cbn [Offset].
  destruct fuel as [|fuel]; [lia|]. rewrite locate_step.
  pose proof (len_nonneg content) as Hpos.
  assert (Hsub : sub (len content) chunkSize = len content - chunkSize).
  { unfold sub. apply wrap_id. rewrite chunkSize_eq in *.
    unfold isInt, minInt, maxInt. lia. }
  assert (Hlt : (len content - chunkSize <? 1) = true).
  { apply Z.ltb_lt. rewrite chunkSize_eq in *. lia. }
  by rewrite Hsub, Hlt.
Qed.

(** The tail of two lines of ["a\nb\nc\nd\n"] starts at offset 0. *)
Lemma NewLineReader_BottomToTop_small_witness :
  exists rm w', newReader 1 (tailOpts 2) abcd = (Ok rm, w') /\ offset rm = 0.
Proof.
  eexists _, _.
  apply (NewLineReader_BottomToTop_small 1 (str "http://leader.mesos/files/read")
           (str "agent") (str "framework") (str "executor") (str "container") []
           (str "stdout") lineFormat (tailOpts 2) abcd); try done.
  by vm_compute.
Defined.

(** C1 as stated fails on its own example: for ["a\nb\nc\nd\n"] and
    [N = 2] the offset after construction is 0, and the line [k-N+1],
    the line ["c"], starts at offset 4. *)
Lemma NewLineReader_BottomToTop_counterexample :
  exists rm w',
    newReader 10 (tailOpts 2) abcd = (Ok rm, w')
    /\ offset rm = 0
    /\ lineStart [str "a"; str "b"; str "c"; str "d"] (4 - 2) = 4
    /\ offset rm <> lineStart [str "a"; str "b"; str "c"; str "d"] (4 - 2).
Proof. eexists _, _. split; [by vm_compute|]. by vm_compute. Qed.

(* ===================================================================== *)
(** ** UTF-8: decoding, encoding and [reverse]                            *)
(* ===================================================================== *)

Import Support.

(** *** Bytes and their values *)

Lemma b2z_range (b : byte) : 0 <= b2z b < 256.
Proof. unfold b2z. pose proof (Byte.to_N_bounded b). lia. Qed.

Lemma z2b_b2z (b : byte) : z2b (b2z b) = b.
Proof.
  unfold z2b. pose proof (b2z_range b). rewrite Z.mod_small by lia.
  unfold b2z. by rewrite N2Z.id, Byte.of_to_N.
Qed.

Lemma b2z_z2b (z : Z) : b2z (z2b z) = z mod 256.
Proof.
  unfold z2b, b2z. pose proof (Z.mod_pos_bound z 256 ltac:(lia)) as Hm.
  destruct (Byte.of_N (Z.to_N (z mod 256))) as [b|] eqn:E.
  - apply Byte.to_of_N in E. rewrite E. lia.
  - exfalso. pose proof (Byte.to_of_N_option_map (Z.to_N (z mod 256))) as H.
    rewrite E in H. simpl in H.
    destruct (N.leb_spec (Z.to_N (z mod 256)) 255); [done | lia].
Qed.

Lemma b2z_inj (a b : byte) : b2z a = b2z b -> a = b.
Proof. intros H. by rewrite <- (z2b_b2z a), <- (z2b_b2z b), H. Qed.

Lemma b2z_list_inj (l k : gostring) : map b2z l = map b2z k -> l = k.
Proof.
  revert k. induction l as [|a l IH]; intros [|b k] H; try done.
  simpl in H. injection H as Hab Hlk. f_equal; [by apply b2z_inj | by apply IH].
Qed.

(** *** Checking a property on a range of integers *)

Lemma zrange_In (n : nat) (lo z : Z) : lo <= z < lo + Z.of_nat n -> In z (zrange lo n).
Proof.
  revert lo. induction n as [|n IH]; intros lo H; [lia|]. simpl.
  destruct (decide (z = lo)) as [->|Hne]; [by left|]. right. apply IH. lia.
Qed.

Lemma forallb_zrange (f : Z -> bool) (lo : Z) (n : nat) (z : Z) :
  forallb f (zrange lo n) = true -> lo <= z < lo + Z.of_nat n -> f z = true.
Proof.
  intros H Hz. rewrite forallb_forall in H. apply H. by apply zrange_In.
Qed.

Lemma zlist_eqb_eq (l k : list Z) : zlist_eqb l k = true -> l = k.
Proof.
  revert k. induction l as [|x l IH]; intros [|y k] H; try done.
  simpl in H. apply andb_true_iff in H as [Hxy Hlk].
  apply Z.eqb_eq in Hxy. f_equal; [done | by apply IH].
Qed.

(** *** Encodings of two and three bytes, by enumeration *)

Lemma check2_true :
  forallb (fun z0 => forallb (fun z1 => ok2 z0 z1) continuation) (zrange 0xC2 30) = true.
Proof. vm_compute. reflexivity. Qed.

Lemma check3_true :
  forallb (fun z0 =>
     forallb (fun z1 => forallb (fun z2 => ok3 z0 z1 z2) continuation) continuation)
    (zrange 0xE0 16) = true.
Proof. vm_compute. reflexivity. Qed.

Lemma accepts_range (sz z0 z1 : Z) :
  accepts sz z0 z1 = true ->
  0x80 <= z1 <= 0xBF
  /\ ((sz = 2 /\ 0xC2 <= z0 <= 0xDF) \/ (sz = 3 /\ 0xE0 <= z0 <= 0xEF)
      \/ (sz = 4 /\ 0xF0 <= z0 <= 0xF4
          /\ (z0 = 0xF0 -> 0x90 <= z1) /\ (z0 = 0xF4 -> z1 <= 0x8F))).
Proof.
  unfold accepts, leadInfo, locb, hicb.
  repeat match goal with
         | |- context [if ?c then _ else _] => destruct c eqn:?
         end; try done;
    rewrite !andb_true_iff; intros [[Hs Hlo] Hhi]; lia.
Qed.

Lemma forallb2_In {A : Type} (f : A -> A -> bool) (l0 l1 : list A) (a b : A) :
  forallb (fun a => forallb (fun b => f a b) l1) l0 = true ->
  In a l0 -> In b l1 -> f a b = true.
Proof.
  intros H Ha Hb. rewrite forallb_forall in H. specialize (H a Ha). cbv beta in H.
  rewrite forallb_forall in H. exact (H b Hb).
Qed.

Lemma forallb3_In {A : Type} (f : A -> A -> A -> bool) (l0 l1 l2 : list A) (a b c : A) :
  forallb (fun a => forallb (fun b => forallb (fun c => f a b c) l2) l1) l0 = true ->
  In a l0 -> In b l1 -> In c l2 -> f a b c = true.
Proof.
  intros H Ha Hb Hc. rewrite forallb_forall in H. specialize (H a Ha). cbv beta in H.
  rewrite forallb_forall in H. specialize (H b Hb). cbv beta in H.
  rewrite forallb_forall in H. exact (H c Hc).
Qed.

Lemma continuation_In (z : Z) : 0x80 <= z <= 0xBF -> In z continuation.
Proof. intros H. apply zrange_In. lia. Qed.

Lemma encode_decode2 (z0 z1 : Z) :
  accepts 2 z0 z1 = true ->
  map b2z (encoderune (rune2 z0 z1)) = [z0; z1] /\ 0x80 <= rune2 z0 z1 <= MaxRune.
Proof.
  intros Ha. destruct (accepts_range _ _ _ Ha) as (H1 & [(_ & H0)|[(? & _)|(? & _)]]); try lia.
  pose proof (forallb2_In ok2 (zrange 0xC2 30) continuation z0 z1 check2_true
                (zrange_In 30 0xC2 z0 ltac:(lia)) (continuation_In z1 H1)) as Hc.
  unfold ok2 in Hc. rewrite Ha in Hc. cbn [negb orb] in Hc.
  apply andb_true_iff in Hc as [Hc Hhi]. apply andb_true_iff in Hc as [Heq Hlo].
  apply zlist_eqb_eq in Heq. apply Z.leb_le in Hlo, Hhi.
  split; [exact Heq | split; [exact Hlo | exact Hhi]].
Qed.

Lemma encode_decode3 (z0 z1 z2 : Z) :
  accepts 3 z0 z1 = true -> 0x80 <= z2 <= 0xBF ->
  map b2z (encoderune (rune3 z0 z1 z2)) = [z0; z1; z2] /\ 0x80 <= rune3 z0 z1 z2 <= MaxRune.
Proof.
  intros Ha H2. destruct (accepts_range _ _ _ Ha) as (H1 & [(? & _)|[(_ & H0)|(? & _)]]); try lia.
  pose proof (forallb3_In ok3 (zrange 0xE0 16) continuation continuation z0 z1 z2 check3_true
                (zrange_In 16 0xE0 z0 ltac:(lia)) (continuation_In z1 H1)
                (continuation_In z2 H2)) as Hc.
  unfold ok3 in Hc. rewrite Ha in Hc. cbn [negb orb] in Hc.
  apply andb_true_iff in Hc as [Hc Hhi]. apply andb_true_iff in Hc as [Heq Hlo].
  apply zlist_eqb_eq in Heq. apply Z.leb_le in Hlo, Hhi.
  split; [exact Heq | split; [exact Hlo | exact Hhi]].
Qed.

(** *** Encodings of four bytes, by arithmetic *)

Lemma lor_shift_add (a n b : Z) :
  0 <= n -> 0 <= b < 2 ^ n -> Z.lor (a * 2 ^ n) b = a * 2 ^ n + b.
Proof.
  intros Hn Hb.
  assert (Hland : Z.land (a * 2 ^ n) b = 0).
  { apply Z.bits_inj'. intros m Hm. rewrite Z.land_spec, Z.bits_0.
    destruct (Z.lt_ge_cases m n) as [Hlt|Hge].
    - by rewrite Z.mul_pow2_bits_low.
    - rewrite andb_false_iff. right.
      destruct (decide (b = 0)) as [->|Hb0]; [apply Z.bits_0|].
      apply Z.bits_above_log2; [lia|].
      apply Z.log2_lt_pow2; [lia|].
      pose proof (Z.pow_le_mono_r 2 n m ltac:(lia) Hge). lia. }
  pose proof (Z.add_lor_land (a * 2 ^ n) b). lia.
Qed.

Lemma land_maskx (z : Z) : Z.land z maskx = z mod 64.
Proof. change maskx with (Z.ones 6). by rewrite Z.land_ones. Qed.

Lemma land_mask4 (z : Z) : Z.land z mask4 = z mod 8.
Proof. change mask4 with (Z.ones 3). by rewrite Z.land_ones. Qed.

Lemma lor_tx (v : Z) : 0 <= v < 64 -> Z.lor tx v = 128 + v.
Proof. intros H. change tx with (2 * 2 ^ 6). rewrite lor_shift_add; lia. Qed.

Lemma lor_t4 (v : Z) : 0 <= v < 8 -> Z.lor t4 v = 240 + v.
Proof. intros H. change t4 with (15 * 2 ^ 4). rewrite lor_shift_add; lia. Qed.

Lemma rune4_value (z0 z1 z2 z3 : Z) :
  rune4 z0 z1 z2 z3 = (((z0 mod 8) * 64 + z1 mod 64) * 64 + z2 mod 64) * 64 + z3 mod 64.
Proof.
  unfold rune4. rewrite !land_maskx, land_mask4, !Z.shiftl_mul_pow2 by lia.
  pose proof (Z.mod_pos_bound z0 8 ltac:(lia)).
  pose proof (Z.mod_pos_bound z1 64 ltac:(lia)).
  pose proof (Z.mod_pos_bound z2 64 ltac:(lia)).
  pose proof (Z.mod_pos_bound z3 64 ltac:(lia)).
  rewrite (lor_shift_add (z0 mod 8) 18) by lia.
  replace (z0 mod 8 * 2 ^ 18 + z1 mod 64 * 2 ^ 12)
    with ((z0 mod 8 * 64 + z1 mod 64) * 2 ^ 12) by lia.
  rewrite (lor_shift_add _ 12) by lia.
  replace ((z0 mod 8 * 64 + z1 mod 64) * 2 ^ 12 + z2 mod 64 * 2 ^ 6)
    with (((z0 mod 8 * 64 + z1 mod 64) * 64 + z2 mod 64) * 2 ^ 6) by lia.
  rewrite (lor_shift_add _ 6) by lia. lia.
Qed.

Lemma encode_decode4 (z0 z1 z2 z3 : Z) :
  accepts 4 z0 z1 = true -> 0x80 <= z2 <= 0xBF -> 0x80 <= z3 <= 0xBF ->
  map b2z (encoderune (rune4 z0 z1 z2 z3)) = [z0; z1; z2; z3]
  /\ 0x80 <= rune4 z0 z1 z2 z3 <= MaxRune.
Proof.
  intros Ha H2 H3.
  destruct (accepts_range _ _ _ Ha) as (H1 & [(? & _)|[(? & _)|(_ & H0 & Hlo & Hhi)]]);
    try lia.
  rewrite rune4_value.
  set (r := (((z0 mod 8) * 64 + z1 mod 64) * 64 + z2 mod 64) * 64 + z3 mod 64).
  assert (Hr : r = (((z0 - 240) * 64 + (z1 - 128)) * 64 + (z2 - 128)) * 64 + (z3 - 128)).
  { subst r. Z.to_euclidean_division_equations. lia. }
  clearbody r.
  assert (Hrange : 0x10000 <= r <= MaxRune) by (unfold MaxRune; lia).
  split; [|unfold MaxRune in *; lia].
  unfold encoderune. rewrite (Z.mod_small r (2 ^ 32)) by (unfold MaxRune in *; lia).
  destruct (r <=? 127) eqn:E1; [apply Z.leb_le in E1; lia|].
  destruct (r <=? 2047) eqn:E2; [apply Z.leb_le in E2; lia|].
  destruct (MaxRune <? r) eqn:E3; [apply Z.ltb_lt in E3; lia|].
  assert (E4 : ((55296 <=? r) && (r <=? 57343)) = false).
  { apply andb_false_iff. right. apply Z.leb_gt. lia. }
  rewrite E4.
  destruct (r <=? 65535) eqn:E6; [apply Z.leb_le in E6; lia|].
  cbn [orb map]. rewrite !b2z_z2b, !land_maskx, !Z.shiftr_div_pow2 by lia.
  assert (Hb0 : (r / 2 ^ 18) mod 256 = z0 - 240)
    by (Z.to_euclidean_division_equations; lia).
  assert (Hb1 : ((r / 2 ^ 12) mod 256) mod 64 = z1 - 128)
    by (Z.to_euclidean_division_equations; lia).
  assert (Hb2 : ((r / 2 ^ 6) mod 256) mod 64 = z2 - 128)
    by (Z.to_euclidean_division_equations; lia).
  assert (Hb3 : (r mod 256) mod 64 = z3 - 128)
    by (Z.to_euclidean_division_equations; lia).
  rewrite Hb0, Hb1, Hb2, Hb3.
  rewrite lor_t4, !lor_tx by lia.
  rewrite !Z.mod_small by lia.
  repeat f_equal; lia.
Qed.

(** *** One decoding step *)

Lemma leadInfo_Some (z0 sz lo hi : Z) :
  leadInfo z0 = Some (sz, lo, hi) -> (sz = 2 \/ sz = 3 \/ sz = 4) /\ 0x80 <= z0.
Proof.
  unfold leadInfo, locb, hicb.
  repeat match goal with
         | |- context [if ?c then _ else _] => destruct c eqn:?
         end; try done; intros [= <- <- <-]; lia.
Qed.

Lemma accepts_leadInfo (z0 z1 sz lo hi : Z) :
  leadInfo z0 = Some (sz, lo, hi) -> (z1 <? lo) || (hi <? z1) = false ->
  accepts sz z0 z1 = true.
Proof.
  intros Hl Hr. unfold accepts. rewrite Hl.
  apply orb_false_iff in Hr as [H1 H2]. apply Z.ltb_ge in H1, H2.
  rewrite !andb_true_iff. split_and!; [apply Z.eqb_refl | by apply Z.leb_le..].
Qed.

(** A decoding step yields the width-one [RuneError], or a rune in range
    whose encoding is the bytes that the step consumed. *)
Lemma DecodeRuneInString_step (s : gostring) :
  s <> [] ->
  (DecodeRuneInString s = (RuneError, 1%nat))
  \/ (encoderune (fst (DecodeRuneInString s)) = take (snd (DecodeRuneInString s)) s
      /\ (1 <= snd (DecodeRuneInString s) <= length s)%nat
      /\ 0 <= fst (DecodeRuneInString s) <= MaxRune).
Proof.
  intros Hs. destruct s as [|b0 t]; [done|]. unfold DecodeRuneInString.
  pose proof (b2z_range b0) as Hb0. set (z0 := b2z b0) in *.
  destruct (z0 <? 128) eqn:Eascii.
  { right. apply Z.ltb_lt in Eascii. cbn [fst snd].
    split_and!; try (simpl; unfold MaxRune; lia).
    unfold encoderune. rewrite Z.mod_small by lia.
    destruct (z0 <=? 127) eqn:E; [|apply Z.leb_gt in E; lia].
    subst z0. by rewrite z2b_b2z. }
  destruct (leadInfo z0) as [[[sz lo] hi]|] eqn:Elead; [|by left].
  destruct (leadInfo_Some _ _ _ _ Elead) as (Hsz & _).
  destruct (len (b0 :: t) <? sz) eqn:Elen; [by left|]. apply Z.ltb_ge in Elen.
  destruct t as [|b1 t1]; [rewrite len_cons, len_nil in Elen; lia|].
  cbn [nth]. pose proof (b2z_range b1) as Hb1. set (z1 := b2z b1) in *.
  destruct ((z1 <? lo) || (hi <? z1)) eqn:Eacc; [by left|].
  pose proof (accepts_leadInfo _ _ _ _ _ Elead Eacc) as Ha.
  destruct (sz <=? 2) eqn:E2.
  { right. apply Z.leb_le in E2. assert (sz = 2) as -> by lia.
    destruct (encode_decode2 z0 z1 Ha) as (Henc & Hr).
    cbn [fst snd]. split_and!; try (simpl; lia).
    apply b2z_list_inj. by rewrite Henc. }
  apply Z.leb_gt in E2.
  rewrite !len_cons in Elen.
  destruct t1 as [|b2 t2]; [rewrite len_nil in Elen; lia|].
  cbn [nth]. pose proof (b2z_range b2) as Hb2. set (z2 := b2z b2) in *.
  destruct ((z2 <? locb) || (hicb <? z2)) eqn:Ec2; [by left|].
  apply orb_false_iff in Ec2 as [Hc2 Hc2']. apply Z.ltb_ge in Hc2, Hc2'.
  unfold locb, hicb in *.
  destruct (sz <=? 3) eqn:E3.
  { right. apply Z.leb_le in E3. assert (sz = 3) as -> by lia.
    destruct (encode_decode3 z0 z1 z2 Ha ltac:(lia)) as (Henc & Hr).
    cbn [fst snd]. split_and!; try (simpl; lia).
    apply b2z_list_inj. by rewrite Henc. }
  apply Z.leb_gt in E3. assert (sz = 4) as -> by lia.
  rewrite !len_cons in Elen.
  destruct t2 as [|b3 t3]; [rewrite len_nil in Elen; lia|].
  cbn [nth]. pose proof (b2z_range b3) as Hb3. set (z3 := b2z b3) in *.
  destruct ((z3 <? 128) || (191 <? z3)) eqn:Ec3; [by left|].
  apply orb_false_iff in Ec3 as [Hc3 Hc3']. apply Z.ltb_ge in Hc3, Hc3'.
  right. destruct (encode_decode4 z0 z1 z2 z3 Ha ltac:(lia) ltac:(lia)) as (Henc & Hr).
  cbn [fst snd]. split_and!; try (simpl; lia).
  apply b2z_list_inj. by rewrite Henc.
Qed.

(** *** [[]rune(s)] and [string(runes)] *)

Lemma runesFrom_inRange (fuel : nat) (s : gostring) : Forall inRange (runesFrom fuel s).
Proof.
  revert s. induction fuel as [|fuel IH]; intros s; simpl; [constructor|].
  destruct s as [|b0 t]; [constructor|].
  destruct (DecodeRuneInString_step (b0 :: t) ltac:(done)) as [H|(_ & _ & H)].
  - rewrite H. constructor; [by cbv | apply IH].
  - destruct (DecodeRuneInString (b0 :: t)) as [r w]. constructor; [exact H | apply IH].
Qed.

(** On a valid string, encoding the runes gives the string back. *)
Lemma stringOfRunes_runesFrom (fuel : nat) (s : gostring) :
  (length s <= fuel)%nat -> validFrom fuel s = true ->
  stringOfRunes (runesFrom fuel s) = s.
Proof.
  revert s. induction fuel as [|fuel IH]; intros s Hlen Hv.
  - destruct s; [done | simpl in Hlen; lia].
  - destruct s as [|b0 t]; [done|].
    cbn [validFrom runesFrom] in *.
    destruct (DecodeRuneInString_step (b0 :: t) ltac:(done)) as [H|(Henc & Hw & _)].
    + rewrite H in Hv. by vm_compute in Hv.
    + destruct (DecodeRuneInString (b0 :: t)) as [r w]. cbn [fst snd] in *.
      apply andb_true_iff in Hv as [_ Hv].
      unfold stringOfRunes in *. cbn [map concat].
      rewrite IH; [|rewrite length_drop; simpl in *; lia | exact Hv].
      rewrite Henc. apply take_drop.
Qed.

Lemma stringOfRunes_runes (s : gostring) :
  ValidString s = true -> stringOfRunes (runes s) = s.
Proof. intros H. by apply stringOfRunes_runesFrom. Qed.

(** *** The swap loop reverses *)

Lemma insert_middle {A : Type} (l1 l2 : list A) (x y : A) :
  <[length l1 := y]> (l1 ++ x :: l2) = l1 ++ y :: l2.
Proof. induction l1 as [|a l1 IH]; simpl; [done | by rewrite IH]. Qed.

Lemma swapLoop_middle (fuel : nat) :
  forall (p m q : list Z),
    (length m <= fuel)%nat ->
    len (p ++ m ++ q) <= maxInt ->
    swapLoop fuel (len p) (len p + len m - 1) (p ++ m ++ q) = p ++ rev m ++ q.
Proof.
  induction fuel as [|fuel IH]; intros p m q Hfuel Hlen.
  - destruct m; [done | simpl in Hfuel; lia].
  - cbn [swapLoop].
    destruct m as [|x m]; [rewrite len_nil; destruct (_ <? _) eqn:E; [apply Z.ltb_lt in E; lia | done]|].
    destruct m as [|y' m' _] using rev_ind.
    { rewrite len_cons, len_nil.
      destruct (_ <? _) eqn:E; [apply Z.ltb_lt in E; lia | done]. }
    rename y' into y.
    rewrite !len_app, !len_cons, !len_app, !len_cons, !len_nil in *.
    pose proof (len_nonneg p). pose proof (len_nonneg m'). pose proof (len_nonneg q).
    destruct (_ <? _) eqn:E; [|apply Z.ltb_ge in E; lia]. clear E.
    assert (Hi : ((p ++ (x :: m' ++ [y]) ++ q) !! Z.to_nat (len p)) = Some x).
    { unfold len. rewrite Nat2Z.id. by apply list_lookup_middle. }
    assert (Hj : ((p ++ (x :: m' ++ [y]) ++ q) !! Z.to_nat (len p + (1 + (len m' + (1 + 0))) - 1))
                 = Some y).
    { replace (p ++ (x :: m' ++ [y]) ++ q) with ((p ++ x :: m') ++ y :: q)
        by (by rewrite <- !app_assoc; simpl; rewrite <- app_assoc).
      apply list_lookup_middle. unfold len. rewrite length_app. simpl. lia. }
    rewrite Hi, Hj.
    assert (Hins : <[Z.to_nat (len p + (1 + (len m' + (1 + 0))) - 1) := x]>
                     (<[Z.to_nat (len p) := y]> (p ++ (x :: m' ++ [y]) ++ q))
                   = (p ++ [y]) ++ m' ++ ([x] ++ q)).
    { replace (Z.to_nat (len p)) with (length p) by (unfold len; lia).
      simpl app. rewrite insert_middle.
      replace (p ++ y :: (m' ++ [y]) ++ q) with ((p ++ y :: m') ++ y :: q)
        by (rewrite <- ?app_assoc; simpl; by rewrite <- ?app_assoc).
      replace (Z.to_nat (len p + (1 + (len m' + (1 + 0))) - 1)) with (length (p ++ y :: m'))
        by (unfold len; rewrite length_app; simpl; lia).
      rewrite insert_middle. by rewrite <- !app_assoc. }
    rewrite Hins.
    assert (Hadd : add (len p) 1 = len (p ++ [y])).
    { rewrite len_app, len_cons, len_nil. unfold add. rewrite wrap_id; [lia|].
      unfold isInt, minInt, maxInt in *. lia. }
    assert (Hsub : sub (len p + (1 + (len m' + (1 + 0))) - 1) 1
                   = len (p ++ [y]) + len m' - 1).
    { rewrite (len_app p [y]). change (len [y]) with 1. unfold sub.
      rewrite wrap_id by (unfold isInt, minInt, maxInt in *; lia). lia. }
    rewrite Hadd, Hsub. rewrite IH.
    + simpl. rewrite rev_app_distr. simpl. by rewrite <- !app_assoc.
    + simpl in Hfuel. rewrite length_app in Hfuel. simpl in Hfuel. lia.
    + rewrite !len_app, !len_cons, !len_nil. lia.
Qed.

Lemma swapLoop_rev (rs : list Z) :
  len rs <= maxInt -> swapLoop (length rs) 0 (sub (len rs) 1) rs = rev rs.
Proof.
  intros H. pose proof (len_nonneg rs).
  assert (Hsub : sub (len rs) 1 = len (@nil Z) + len rs - 1).
  { rewrite len_nil. unfold sub. rewrite wrap_id; [lia|].
    unfold isInt, minInt, maxInt in *. lia. }
  rewrite Hsub. change 0 with (len (@nil Z)) at 1.
  pose proof (swapLoop_middle (length rs) [] rs [] ltac:(lia)) as G.
  rewrite !app_nil_r in G. simpl in G. apply G. exact H.
Qed.

Lemma reverse_reverseRunes (s : gostring) :
  len s <= maxInt -> reverse s = reverseRunes s.
Proof.
  intros H. unfold reverse, reverseRunes. rewrite <- rev_alt, swapLoop_rev; [done|].
  pose proof (runesFrom_length (length s) s). unfold runes, len in *. lia.
Qed.

(** *** Lengths and lines under [reverse] *)

Lemma stringOfRunes_app (rs qs : list Z) :
  stringOfRunes (rs ++ qs) = stringOfRunes rs ++ stringOfRunes qs.
Proof. unfold stringOfRunes. by rewrite map_app, concat_app. Qed.

Lemma stringOfRunes_rev_length (rs : list Z) :
  length (stringOfRunes (rev rs)) = length (stringOfRunes rs).
Proof.
  induction rs as [|r rs IH]; [done|]. simpl rev.
  rewrite stringOfRunes_app. change (r :: rs) with ([r] ++ rs).
  rewrite stringOfRunes_app, !length_app, IH. lia.
Qed.

Lemma splitOn_rev {A : Type} (isSep : A -> bool) (s : list A) :
  splitOn isSep (rev s) = rev (map (@rev A) (splitOn isSep s)).
Proof.
  induction s as [|c s IH]; [done|]. simpl rev. rewrite splitOn_snoc, IH. simpl splitOn.
  destruct (isSep c); [done|].
  pose proof (splitOn_not_nil isSep s) as Hne.
  destruct (splitOn isSep s) as [|p ps]; [done|]. simpl map. simpl rev.
  by rewrite removelast_last, last_last.
Qed.

Lemma splitOn_app_nosep {A : Type} (isSep : A -> bool) (p s : list A) :
  Forall (fun c => isSep c = false) p ->
  splitOn isSep (p ++ s) =
  match splitOn isSep s with
  | q :: qs => (p ++ q) :: qs
  | [] => [p]
  end.
Proof.
  intros Hp. pose proof (splitOn_not_nil isSep s) as Hne.
  induction Hp as [|c p Hc _ IH]; simpl.
  - by destruct (splitOn isSep s).
  - rewrite Hc, IH. by destruct (splitOn isSep s).
Qed.

Lemma high_byte_check :
  forallb (fun T => forallb (fun v => 128 <=? (Z.lor T v) mod 256) (zrange 0 256))
    [tx; t2; t3; t4] = true.
Proof. vm_compute. reflexivity. Qed.

(** A byte made of a marker and payload bits is not ['\n']. *)
Lemma high_byte (T v : Z) :
  In T [tx; t2; t3; t4] -> 0 <= v < 256 -> Byte.eqb nl (z2b (Z.lor T v)) = false.
Proof.
  intros HT Hv.
  pose proof (forallb2_In (fun T v => 128 <=? (Z.lor T v) mod 256) [tx; t2; t3; t4]
                (zrange 0 256) T v high_byte_check HT (zrange_In 256 0 v ltac:(lia))) as H.
  cbv beta in H. apply Z.leb_le in H.
  apply eqb_nl_false. intros E. apply (f_equal b2z) in E. rewrite b2z_z2b in E.
  change (b2z nl) with 10 in E. lia.
Qed.

Lemma encoderune_newline : encoderune 10 = [nl].
Proof. reflexivity. Qed.

Lemma encoderune_no_newline (r : Z) :
  inRange r -> r <> 10 -> Forall (fun b => Byte.eqb nl b = false) (encoderune r).
Proof.
  unfold inRange, MaxRune. intros Hr Hne.
  assert (Hpay : forall x, 0 <= Z.land (b2z (z2b x)) maskx < 256).
  { intros x. rewrite land_maskx. pose proof (Z.mod_pos_bound (b2z (z2b x)) 64 ltac:(lia)). lia. }
  assert (Hin : forall T, In T [tx; t2; t3; t4] -> In T [tx; t2; t3; t4]) by done.
  unfold encoderune, encode3. rewrite Z.mod_small by lia.
  destruct (r <=? 127) eqn:E1.
  { apply Z.leb_le in E1. constructor; [|constructor].
    apply eqb_nl_false. intros E. apply (f_equal b2z) in E. rewrite b2z_z2b in E.
    change (b2z nl) with 10 in E. rewrite Z.mod_small in E by lia. done. }
  repeat match goal with
         | |- context [if ?c then _ else _] => destruct c
         end;
    repeat (constructor;
            [apply high_byte; [simpl; tauto | first [apply b2z_range | apply Hpay]]|]);
    constructor.
Qed.

(** Splitting the encoding of runes at ['\n'] is splitting the runes at
    the rune 10. *)
Lemma Split_stringOfRunes (rs : list Z) :
  Forall inRange rs ->
  Split (stringOfRunes rs) nl = map stringOfRunes (splitOn (fun r => r =? 10) rs).
Proof.
  unfold Split. induction 1 as [|r rs Hr _ IH]; [done|].
  change (stringOfRunes (r :: rs)) with (encoderune r ++ stringOfRunes rs).
  simpl splitOn. destruct (r =? 10) eqn:E.
  - apply Z.eqb_eq in E as ->. rewrite encoderune_newline. simpl. by rewrite IH.
  - apply Z.eqb_neq in E.
    rewrite (splitOn_app_nosep _ _ _ (encoderune_no_newline r Hr E)), IH.
    pose proof (splitOn_not_nil (fun r => r =? 10) rs) as Hne.
    by destruct (splitOn (fun r => r =? 10) rs).
Qed.

(** C8 (amended): [len] counts bytes.  For every chunk that is valid
    UTF-8 (ASCII or not), [reverse] keeps the byte length of the chunk,
    and the pieces between the terminators of the reversed chunk have
    the byte lengths of the pieces of the chunk, in the opposite
    order. *)
Theorem reverse_preserves_lengths (s : gostring) :
  ValidString s = true -> len s <= maxInt ->
  len (reverse s) = len s
  /\ map len (Split (reverse s) nl) = rev (map len (Split s nl)).
Proof.
  intros Hv Hlen. rewrite (reverse_reverseRunes s Hlen). unfold reverseRunes.
  rewrite <- rev_alt.
  pose proof (stringOfRunes_runes s Hv) as Hs.
  pose proof (runesFrom_inRange (length s) s) as Hr. fold (runes s) in Hr.
  split.
  - unfold len. by rewrite stringOfRunes_rev_length, Hs.
  - rewrite <- Hs at 2.
    rewrite !Split_stringOfRunes by (try apply Forall_rev; exact Hr).
    rewrite splitOn_rev, !map_rev, !map_map. f_equal.
    apply map_ext. intros q. unfold len. by rewrite stringOfRunes_rev_length.
Qed.

(** The text ["héllo\nça va\n"], in UTF-8. *)
Lemma reverse_preserves_lengths_witness :
  len (reverse (str "h" ++ [xc3; xa9] ++ str "llo" ++ [nl; xc3; xa7] ++ str "a va" ++ [nl]))
  = 14
  /\ map len (Split (reverse (str "h" ++ [xc3; xa9] ++ str "llo" ++ [nl; xc3; xa7]
                                ++ str "a va" ++ [nl])) nl)
     = rev (map len (Split (str "h" ++ [xc3; xa9] ++ str "llo" ++ [nl; xc3; xa7]
                              ++ str "a va" ++ [nl]) nl)).
Proof.
  apply (reverse_preserves_lengths
           (str "h" ++ [xc3; xa9] ++ str "llo" ++ [nl; xc3; xa7] ++ str "a va" ++ [nl])).
  - by vm_compute.
  - by vm_compute.
Defined.

(** C8 as stated fails on bytes that are not valid UTF-8: the byte [0xFF]
    becomes the three bytes of U+FFFD, and so does the second byte of
    ["é"] that a chunk boundary has cut from the first: the line ["\xa9a"]
    of two bytes comes back with four. *)
Lemma reverse_preserves_lengths_counterexample :
  len [xff] = 1 /\ len (reverse [xff]) = 3
  /\ map len (Split [xa9; "a"%byte; nl] nl) = [2; 0]
  /\ map len (Split (reverse [xa9; "a"%byte; nl]) nl) = [0; 4].
Proof. by vm_compute. Qed.

(* ===================================================================== *)
(** ** The backward search on a file larger than one chunk                *)
(* ===================================================================== *)

Lemma splitChunk_modified (data : gostring) (off : Z) (m1 m2 : option Modifier) :
  modified data m1 = modified data m2 -> splitChunk data off m1 = splitChunk data off m2.
Proof.
  unfold splitChunk, modified. intros H.
  destruct m1 as [f1|], m2 as [f2|]; cbv beta in *;
    first [done | by rewrite H | by rewrite <- H].
Qed.

(** The search may be run with any modifier that agrees with [reverse]
    on the data of the answers. *)
Lemma locate_locateWith (m : Modifier) (fuel : nat) :
  forall (rm : ReadManager) (f off : Z) (w : World),
    (forall req r, answer w req = inr r -> reverse (Data r) = m (Data r)) ->
    locate fuel rm f off w = locateWith m fuel rm f off w.
Proof.
  induction fuel as [|fuel IH]; intros rm f off w Hm; [done|].
  cbn [locate locateWith]. destruct (off <? 1); [done|].
  unfold bind. rewrite !read_answer.
  destruct (answer w (readRequest rm off chunkSize)) as [e|r] eqn:Ea; [done|].
  rewrite (splitChunk_modified (Data r) off (Some reverse) (Some m)) by apply (Hm _ _ Ea).
  destruct (splitChunk (Data r) off (Some m)) as [ls delta].
  destruct (n rm <=? add f (len ls)); [done|].
  apply IH. intros req r' Hr'. by apply (Hm req r').
Qed.

(** C7 fails on the code: a tail of two lines of a file of two lines,
    ["aa"] and a line of 65536 bytes.  The first chunk, the last 65536
    bytes, holds one (empty) piece before its partial piece; the search
    moves back to offset 3, sets [rm.offset] to it, finds the missing
    line in the second chunk, and subtracts its 65537 bytes. *)
Theorem NewLineReader_negative_offset :
  len twoLines = 65540
  /\ offsetOf (newReader 3 (tailOpts 2) twoLines) = Some (-65534).
Proof.
  split; [by vm_compute|].
  unfold newReader, NewLineReader.
  destruct (notEmpty_four (str "agent") (str "framework") (str "executor") (str "container"))
    as [([H|[H|[H|H]]] & _) | (_ & _ & _ & _ & ->)]; [discriminate H..|].
  set (rm0 := mkReadManager _ _ _ _ _ _ _ _ _ _ _ _).
  assert (Eopts : applyOpts (tailOpts 2) rm0
                  = inr (set_n (set_readDirection rm0 BottomToTop) 2)) by reflexivity.
  rewrite Eopts. set (rm1 := set_n (set_readDirection rm0 BottomToTop) 2).
  change (readDirection rm1) with BottomToTop. cbv iota.
  unfold bind. rewrite fileLen_answer. unfold fileWorld at 1. rewrite fileTransport_answer.
  change (reqOffset (mkRequest (readEndpoint rm1) (sandboxPath rm1 ++ File rm1) (-1) None
                       (header rm1)) =? -1) with true.
  cbv iota. cbn [Offset].
  rewrite (locate_locateWith reverseRunes).
  - by vm_compute.
  - intros req r. cbn [sent transport fileWorld]. rewrite fileTransport_answer.
    destruct (reqOffset req =? -1); [intros [= <-]; by vm_compute|].
    destruct (reqOffset req <? 0); [done|]. intros [= <-]. cbn [Data].
    apply reverse_reverseRunes.
    assert (len twoLines <= 65540) by (by vm_compute).
    unfold len in *. destruct (reqLength req).
    + rewrite length_take, length_drop. unfold maxInt. lia.
    + rewrite length_drop. unfold maxInt. lia.
Qed.

(* ===================================================================== *)
(** ** More on the reader: arguments, buffer and requests                 *)
(* ===================================================================== *)

Lemma anyEmpty_spec (args : list gostring) :
  anyEmpty args = true <-> Exists (fun a => a = []) args.
Proof.
  induction args as [|a args IH]; simpl.
  - split; [done | by intros H; inversion H].
  - destruct (len a =? 0) eqn:E.
    + apply Z.eqb_eq, len_zero_nil in E. split; [by constructor | done].
    + apply Z.eqb_neq in E. rewrite IH. split.
      * by apply Exists_cons_tl.
      * intros H. apply Exists_cons in H as [Ha|Ht]; [by rewrite Ha in E | done].
Qed.

(** X1: [notEmpty] returns [ErrEmptyParam] when there is no argument or when
    one of them is the empty string, and nil in every other case. *)
Theorem notEmpty_spec (args : list gostring) :
  (notEmpty args = Some ErrEmptyParam <-> args = [] \/ Exists (fun a => a = []) args)
  /\ (notEmpty args = None <-> args <> [] /\ Forall (fun a => a <> []) args).
Proof.
  unfold notEmpty. destruct args as [|a args].
  - split; split; try done; [by left | by intros [? _]].
  - rewrite len_cons. pose proof (len_nonneg args).
    destruct (1 + len args =? 0) eqn:E; [apply Z.eqb_eq in E; lia|].
    destruct (anyEmpty (a :: args)) eqn:Ea.
    + apply anyEmpty_spec in Ea. split; split.
      * intros _. by right.
      * done.
      * intros H'. discriminate H'.
      * intros [_ Hf]. exfalso. apply Exists_exists in Ea as (x & Hin & ->).
        rewrite Forall_forall in Hf. by apply (Hf [] Hin).
    + assert (Hnone : ~ Exists (fun a => a = []) (a :: args)).
      { intros Hex. apply anyEmpty_spec in Hex. congruence. }
      split; split.
      * intros H'. discriminate H'.
      * intros [?|Hex]; [done | by destruct Hnone].
      * intros _. split; [done|]. apply Forall_forall. intros x Hin ->.
        apply Hnone. apply Exists_exists. by exists [].
      * done.
Qed.

Lemma fold_Prepand (ls : list Line) (rm : ReadManager) :
  fold_left Prepand ls rm = set_lines rm (rev ls ++ lines rm).
Proof.
  revert rm. induction ls as [|l ls IH]; intros rm; simpl.
  - by destruct rm.
  - rewrite IH. unfold Prepand. simpl. by rewrite <- app_assoc.
Qed.

(** X2: the buffer is a queue: of the lines prepended to an empty buffer the
    first one is the first that [Pop] returns, and what is left is the
    buffer to which only the other lines were prepended; [Pop] on an
    empty buffer returns nil and changes nothing. *)
Theorem Prepand_Pop_queue (rm : ReadManager) (l : Line) (ls : list Line) :
  lines rm = [] ->
  Pop (fold_left Prepand (l :: ls) rm) = (Some l, fold_left Prepand ls rm)
  /\ Pop rm = (None, rm).
Proof.
  intros H. split; [|by apply Pop_nil].
  rewrite !fold_Prepand, H, !app_nil_r. simpl rev.
  rewrite (Pop_snoc _ (rev ls) l); [|done]. by destruct rm.
Qed.

Lemma Prepand_Pop_queue_witness :
  Pop (fold_left Prepand [mkLine (str "a") 0 1; mkLine (str "b") 2 1] manager0)
  = (Some (mkLine (str "a") 0 1), fold_left Prepand [mkLine (str "b") 2 1] manager0)
  /\ Pop manager0 = (None, manager0).
Proof.
  apply (Prepand_Pop_queue manager0 (mkLine (str "a") 0 1) [mkLine (str "b") 2 1]).
  reflexivity.
Defined.

(** X3: a pull sends at most one request, for [chunkSize] bytes at the
    offset of the manager, and none when the buffer holds a line. *)
Theorem Read_one_request (rm : ReadManager) (b : Z) (w : World) :
  exists r rm' w',
    Read rm b w = (Ok (r, rm'), w')
    /\ transport w' = transport w
    /\ (sent w' = sent w \/ sent w' = sent w ++ [readRequest rm (offset rm) chunkSize])
    /\ (lines rm <> [] -> sent w' = sent w).
Proof.
  rewrite Read_cases.
  destruct (negb (stream rm) && (readLines rm =? n rm)).
  { exists eof, rm, w. split_and!; auto. }
  destruct (len (lines rm) =? 0) eqn:E.
  - apply Z.eqb_eq, len_zero_nil in E.
    set (x := match answer w (readRequest rm (offset rm) chunkSize) with
              | inl e => (mkReadResult [] (Some e), rm)
              | inr r0 =>
                  emit (buffer rm (fst (splitChunk (Data r0) (offset rm) None))
                          (snd (splitChunk (Data r0) (offset rm) None))) b
              end).
    exists (fst x), (snd x). eexists. split; [by destruct x|].
    simpl. split_and!; auto. by intros H.
  - exists (fst (emit rm b)), (snd (emit rm b)), w.
    split; [by destruct (emit rm b)|]. split_and!; auto.
Qed.

(** X4: a fetch that fails leaves the manager as it is, so that the next
    pull asks for the same bytes again, and the pull returns the error:
    the error of the transport, [bad status] for a status other than
    200 whatever the body is, or the error of the JSON decoder. *)
Theorem Read_fetch_error (rm : ReadManager) (b : Z) (w : World) :
  lines rm = [] -> stream rm = true \/ readLines rm <> n rm ->
  let req := readRequest rm (offset rm) chunkSize in
  (forall e, transport w req = inl e ->
     Read rm b w = (Ok (mkReadResult [] (Some e), rm), afterRequest w req))
  /\ (forall resp, transport w req = inr resp -> StatusCode resp <> 200 ->
        Read rm b w
        = (Ok (mkReadResult [] (Some (ErrBadStatus (StatusCode resp))), rm), afterRequest w req))
  /\ (forall resp e, transport w req = inr resp -> StatusCode resp = 200 ->
        Body resp = inl e ->
        Read rm b w = (Ok (mkReadResult [] (Some e), rm), afterRequest w req)).
Proof.
  intros Hl Hlim req. rewrite Read_cases.
  assert (Hno : negb (stream rm) && (readLines rm =? n rm) = false).
  { destruct Hlim as [->|Hne]; [done|]. apply andb_false_iff. right. by apply Z.eqb_neq. }
  rewrite Hno, Hl. simpl (len [] =? 0). cbv iota. fold req. unfold answer.
  split_and!.
  - intros e ->. done.
  - intros resp -> Hs. apply Z.eqb_neq in Hs. by rewrite Hs.
  - intros resp e -> Hs Hb. rewrite Hs, Hb. done.
Qed.

Lemma Read_fetch_error_witness :
  Read (set_stream manager0 true) 8 (mkWorld (fun _ => inr (mkHTTPResponse 404 (inl EOF))) [])
  = (Ok (mkReadResult [] (Some (ErrBadStatus 404)), set_stream manager0 true),
     afterRequest (mkWorld (fun _ => inr (mkHTTPResponse 404 (inl EOF))) [])
       (readRequest (set_stream manager0 true) 0 chunkSize)).
Proof.
  destruct (Read_fetch_error (set_stream manager0 true) 8
              (mkWorld (fun _ => inr (mkHTTPResponse 404 (inl EOF))) [])
              eq_refl (or_introl eq_refl)) as (_ & H & _).
  apply (H (mkHTTPResponse 404 (inl EOF)) eq_refl). done.
Defined.


(* ===================================================================== *)
(** ** More on [read] and [Read]                                          *)
(* ===================================================================== *)

Lemma add_id (a b : Z) : isInt (a + b) -> add a b = a + b.
Proof. apply wrap_id. Qed.

Lemma linesWithOffset_at (off : Z) (pcs : list gostring) :
  forall (pre rest : gostring) (acc : Z),
    acc = len pre -> 0 <= off ->
    off + len (pre ++ concat (map (fun p => p ++ [nl]) pcs) ++ rest) <= maxInt ->
    Forall (fun l =>
              Size l = len (Message l)
              /\ off <= LineOffset l
              /\ LineOffset l + Size l
                 < off + len (pre ++ concat (map (fun p => p ++ [nl]) pcs) ++ rest)
              /\ take (Z.to_nat (Size l))
                   (drop (Z.to_nat (LineOffset l - off))
                      (pre ++ concat (map (fun p => p ++ [nl]) pcs) ++ rest))
                 = Message l)
           (linesWithOffset off acc pcs).
Proof.
  induction pcs as [|p ps IH]; intros pre rest acc Hacc Hoff Hmax; [constructor|].
  cbn [linesWithOffset map concat] in *.
  pose proof (len_nonneg pre). pose proof (len_nonneg p). pose proof (len_nonneg rest).
  pose proof (len_nonneg (concat (map (fun p => p ++ [nl]) ps))).
  rewrite !len_app, len_cons, len_nil in Hmax.
  assert (Hadd : add off acc = off + acc).
  { apply add_id. unfold isInt, minInt, maxInt in *. lia. }
  assert (Hacc' : add acc (add (len p) 1) = len (pre ++ p ++ [nl])).
  { rewrite !len_app, len_cons, len_nil.
    rewrite (add_id (len p) 1) by (unfold isInt, minInt, maxInt in *; lia).
    rewrite add_id by (unfold isInt, minInt, maxInt in *; lia). lia. }
  constructor.
  - cbn [Size Message LineOffset]. rewrite Hadd, Hacc.
    rewrite !len_app, len_cons, len_nil. split_and!; try lia.
    replace (off + len pre - off) with (len pre) by lia.
    unfold len. rewrite !Nat2Z.id, drop_app_length, <- !app_assoc.
    by rewrite take_app_length.
  - specialize (IH (pre ++ p ++ [nl]) rest (add acc (add (len p) 1)) Hacc' Hoff).
    replace ((pre ++ p ++ [nl]) ++ concat (map (fun p0 => p0 ++ [nl]) ps) ++ rest)
      with (pre ++ ((p ++ [nl]) ++ concat (map (fun p0 => p0 ++ [nl]) ps)) ++ rest) in IH
      by (by rewrite <- !app_assoc).
    apply IH. rewrite !len_app, len_cons, len_nil. lia.
Qed.

(** X5: forward reading is byte-accurate: every line that [read] returns for
    a chunk fetched at [offset] has [Size = len(Message)], lies inside
    the chunk, and its message is the [Size] bytes of the chunk at
    [Offset - offset]. *)
Theorem splitChunk_offsets (data : gostring) (off : Z) :
  0 <= off -> off + len data <= maxInt ->
  Forall (fun l =>
            Size l = len (Message l)
            /\ off <= LineOffset l
            /\ LineOffset l + Size l <= off + len data
            /\ take (Z.to_nat (Size l)) (drop (Z.to_nat (LineOffset l - off)) data)
               = Message l)
         (fst (splitChunk data off None)).
Proof.
  intros Hoff Hmax.
  destruct (decide (1 < len (Split (modified data None) nl))) as [H|H].
  - rewrite (splitChunk_many data off None H). cbn [fst]. unfold modified.
    pose proof (Split_join data) as Hjoin.
    pose proof (linesWithOffset_at off (removelast (Split data nl)) []
                  (List.last (Split data nl) []) 0 eq_refl Hoff) as G.
    cbn [app] in G. rewrite Hjoin in G. specialize (G Hmax).
    eapply Forall_impl; [exact G|]. intros l (H1 & H2 & H3 & H4). split_and!; try done. lia.
  - rewrite (splitChunk_one data off None) by lia. unfold modified in *.
    assert (Hno : nl ∉ data) by (rewrite Split_length_gt1; lia).
    assert (Hone : Split data nl = [data]).
    { apply splitOn_no_sep. apply Forall_forall. intros c Hc.
      apply eqb_nl_false. by intros ->. }
    rewrite Hone. cbn [fst linesWithOffset]. constructor; [|constructor].
    cbn [Size Message LineOffset]. pose proof (len_nonneg data).
    rewrite add_id by (unfold isInt, minInt, maxInt in *; lia).
    split_and!; try lia. replace (off + 0 - off) with 0 by lia.
    unfold len. rewrite Nat2Z.id. simpl. apply take_ge. lia.
Qed.

Lemma splitChunk_offsets_witness :
  Forall (fun l =>
            Size l = len (Message l)
            /\ 100 <= LineOffset l
            /\ LineOffset l + Size l <= 100 + len (str "ab" ++ [nl] ++ str "cde" ++ [nl] ++ str "f")
            /\ take (Z.to_nat (Size l))
                 (drop (Z.to_nat (LineOffset l - 100))
                    (str "ab" ++ [nl] ++ str "cde" ++ [nl] ++ str "f"))
               = Message l)
         (fst (splitChunk (str "ab" ++ [nl] ++ str "cde" ++ [nl] ++ str "f") 100 None)).
Proof.
  apply (splitChunk_offsets (str "ab" ++ [nl] ++ str "cde" ++ [nl] ++ str "f") 100).
  - lia.
  - by vm_compute.
Defined.

Lemma splitOn_length_count (s : gostring) :
  length (Split s nl) = S (count_occ Byte.byte_eq_dec s nl).
Proof.
  unfold Split. induction s as [|c s IH]; [done|]. cbn [splitOn].
  destruct (Byte.eqb nl c) eqn:E.
  - apply eqb_nl_true in E as ->. rewrite count_occ_cons_eq by done. simpl. by rewrite IH.
  - apply eqb_nl_false in E. rewrite count_occ_cons_neq by done.
    pose proof (splitOn_not_nil (Byte.eqb nl) s).
    destruct (splitOn (Byte.eqb nl) s); [done|]. by rewrite <- IH.
Qed.

Lemma Read_nothing_new (rm : ReadManager) (b : Z) (w : World) (resp : response) :
  lines rm = [] -> stream rm = true \/ readLines rm <> n rm ->
  answer w (readRequest rm (offset rm) chunkSize) = inr resp ->
  (count_occ Byte.byte_eq_dec (Data resp) nl <= 1)%nat ->
  Read rm b w = (Ok (eof, rm), afterRequest w (readRequest rm (offset rm) chunkSize)).
Proof.
  intros Hl Hlim Ha Hc. rewrite Read_cases.
  assert (Hno : negb (stream rm) && (readLines rm =? n rm) = false).
  { destruct Hlim as [->|Hne]; [done|]. apply andb_false_iff. right. by apply Z.eqb_neq. }
  rewrite Hno, Hl, Ha. simpl (len [] =? 0). cbv iota.
  pose proof (splitOn_length_count (Data resp)) as Hn.
  assert (Hfew : len (fst (splitChunk (Data resp) (offset rm) None)) <= 1).
  { destruct (decide (1 < len (Split (modified (Data resp) None) nl))) as [H|H].
    - rewrite (splitChunk_many _ _ _ H). cbn [fst]. unfold len, modified in *.
      rewrite linesWithOffset_length, removelast_length. lia.
    - rewrite (splitChunk_one (Data resp) (offset rm) None) by lia. cbn [fst].
      unfold len, modified in *. rewrite linesWithOffset_length. lia. }
  rewrite (buffer_few _ _ _ Hfew), (emit_nil rm b Hl). done.
Qed.

(** X6: a fetch whose data holds at most one terminator brings nothing: the
    pull returns [io.EOF] and leaves the manager, offset included, as it
    is.  So the only line of a one-line file is never emitted, and
    neither is the end of a file after its last terminator. *)
Theorem Read_at_most_one_terminator (rm : ReadManager) (b : Z) (w : World) (resp : response) :
  lines rm = [] -> stream rm = true \/ readLines rm <> n rm ->
  answer w (readRequest rm (offset rm) chunkSize) = inr resp ->
  (count_occ Byte.byte_eq_dec (Data resp) nl <= 1)%nat ->
  Read rm b w = (Ok (eof, rm), afterRequest w (readRequest rm (offset rm) chunkSize)).
Proof. apply Read_nothing_new. Qed.

(** The file ["abc\n"], read from the top by a streaming cursor. *)
Lemma Read_at_most_one_terminator_witness :
  Read (set_stream manager0 true) 100 (fileWorld (fileOfLines [str "abc"]))
  = (Ok (eof, set_stream manager0 true),
     afterRequest (fileWorld (fileOfLines [str "abc"]))
       (readRequest (set_stream manager0 true) 0 chunkSize)).
Proof.
  apply (Read_at_most_one_terminator (set_stream manager0 true) 100
           (fileWorld (fileOfLines [str "abc"])) (mkResponse (fileOfLines [str "abc"]) 0)).
  - reflexivity.
  - by left.
  - reflexivity.
  - vm_compute. lia.
Defined.

Lemma Read_buffered_line (rm : ReadManager) (b : Z) (w : World) (q : list Line) (l : Line) :
  lines rm = q ++ [l] -> stream rm = true \/ readLines rm <> n rm ->
  Message l <> [] -> formatFn rm l <> [] ->
  Read rm b w
  = (Ok (mkReadResult (take (Z.to_nat b) (formatFn rm l)) None,
         set_readLines (set_lines rm q) (add (readLines rm) 1)), w).
Proof.
  intros Hl Hlim Hm Hf. rewrite Read_cases.
  assert (Hno : negb (stream rm) && (readLines rm =? n rm) = false).
  { destruct Hlim as [->|Hne]; [done|]. apply andb_false_iff. right. by apply Z.eqb_neq. }
  rewrite Hno. rewrite Hl at 1. rewrite len_app, len_cons, len_nil.
  pose proof (len_nonneg q).
  destruct (len q + (1 + 0) =? 0) eqn:E; [apply Z.eqb_eq in E; lia|].
  rewrite (emit_snoc rm b q l Hl).
  destruct (len (Message l) =? 0) eqn:Em; [by apply Z.eqb_eq, len_zero_nil in Em|].
  unfold readerRead.
  destruct (len (formatFn rm l) <=? 0) eqn:Ef; [|done].
  apply Z.leb_le in Ef. pose proof (len_nonneg (formatFn rm l)).
  assert (Hz : len (formatFn rm l) = 0) by lia. by apply len_zero_nil in Hz.
Qed.

(** X7: a pull with a line in the buffer takes the line out whatever the
    length of the caller's buffer is: it delivers the first [len(b)]
    bytes of the encoding, and the rest of the line is not delivered by
    any later pull. *)
Theorem Read_short_buffer (rm : ReadManager) (b : Z) (w : World) (q : list Line) (l : Line) :
  lines rm = q ++ [l] -> stream rm = true \/ readLines rm <> n rm ->
  Message l <> [] -> formatFn rm l <> [] ->
  Read rm b w
  = (Ok (mkReadResult (take (Z.to_nat b) (formatFn rm l)) None,
         set_readLines (set_lines rm q) (add (readLines rm) 1)), w).
Proof. apply Read_buffered_line. Qed.

(** A buffer of one byte on the line ["abc"]: the pull delivers ["a"]
    and the buffer of the manager is empty afterwards. *)
Lemma Read_short_buffer_witness :
  Read (set_lines (set_n manager0 5) [mkLine (str "abc") 0 3]) 1 (fileWorld abcd)
  = (Ok (mkReadResult (str "a") None,
         set_readLines (set_lines (set_lines (set_n manager0 5) [mkLine (str "abc") 0 3]) []) 1),
     fileWorld abcd).
Proof.
  apply (Read_short_buffer (set_lines (set_n manager0 5) [mkLine (str "abc") 0 3]) 1
           (fileWorld abcd) [] (mkLine (str "abc") 0 3)).
  - reflexivity.
  - right. by vm_compute.
  - done.
  - done.
Defined.


(* ===================================================================== *)
(** ** Reading a small file from the top                                  *)
(* ===================================================================== *)

Lemma fileOfLines_cons (l : gostring) (ls : list gostring) :
  fileOfLines (l :: ls) = l ++ nl :: fileOfLines ls.
Proof. unfold fileOfLines. simpl. by rewrite <- app_assoc. Qed.

Lemma fileOfLines_snoc (ls : list gostring) (l : gostring) :
  fileOfLines (ls ++ [l]) = (fileOfLines ls ++ l) ++ [nl].
Proof. unfold fileOfLines. rewrite map_app, concat_app. simpl. by rewrite app_nil_r, app_assoc. Qed.

Lemma Split_fileOfLines (ls : list gostring) :
  Forall (fun l => nl ∉ l) ls -> Split (fileOfLines ls) nl = ls ++ [[]].
Proof.
  unfold Split. induction 1 as [|l ls Hl _ IH]; [done|].
  rewrite fileOfLines_cons, splitOn_app_sep, IH; [done| |by apply eqb_nl_true].
  apply Forall_forall. intros c Hc. apply eqb_nl_false. by intros ->.
Qed.

Lemma linesWithOffset_linesAt (ls : list gostring) :
  forall off acc : Z,
    0 <= off -> 0 <= acc -> off + acc + len (fileOfLines ls) <= maxInt ->
    linesWithOffset off acc ls = linesAt (off + acc) ls.
Proof.
  induction ls as [|l ls IH]; intros off acc Hoff Hacc Hmax; [done|].
  rewrite fileOfLines_cons, len_app, len_cons in Hmax.
  pose proof (len_nonneg l). pose proof (len_nonneg (fileOfLines ls)).
  cbn [linesWithOffset linesAt].
  rewrite (add_id off acc) by (unfold isInt, minInt, maxInt in *; lia).
  rewrite (add_id (len l) 1) by (unfold isInt, minInt, maxInt in *; lia).
  rewrite (add_id acc) by (unfold isInt, minInt, maxInt in *; lia).
  rewrite IH by lia. do 2 f_equal. lia.
Qed.

Lemma linesAt_Message (off : Z) (ls : list gostring) : map Message (linesAt off ls) = ls.
Proof. revert off. induction ls as [|l ls IH]; intros off; simpl; [done | by rewrite IH]. Qed.

Lemma linesAt_length (off : Z) (ls : list gostring) : length (linesAt off ls) = length ls.
Proof. by rewrite <- (length_map Message), linesAt_Message. Qed.

(** The sum that [Read] makes over the fetched lines. *)
Lemma linesLen_sum (ls : list Line) :
  forall a : Z,
    0 <= a -> a + len (fileOfLines (map Message ls)) <= maxInt ->
    fold_left (fun acc line => add acc (add (len (Message line)) 1)) ls a
    = a + len (fileOfLines (map Message ls)).
Proof.
  induction ls as [|l ls IH]; intros a Ha Hmax.
  - simpl. change (len (fileOfLines [])) with 0. lia.
  - cbn [fold_left map] in *. rewrite fileOfLines_cons, len_app, len_cons in *.
    pose proof (len_nonneg (Message l)).
    pose proof (len_nonneg (fileOfLines (map Message ls))).
    rewrite (add_id (len (Message l)) 1) by (unfold isInt, minInt, maxInt in *; lia).
    rewrite add_id by (unfold isInt, minInt, maxInt in *; lia).
    rewrite IH by lia. lia.
Qed.

Lemma take_all_Z {A : Type} (l : list A) (k : Z) : len l <= k -> take (Z.to_nat k) l = l.
Proof. intros H. apply take_ge. unfold len in H. lia. Qed.

(** The first pull on a small file of at least two lines: all the lines
    go to the buffer and the offset goes to the last terminator. *)
Lemma Read_top_small (rm : ReadManager) (b : Z) (ls : list gostring) (s : list Request) :
  lines rm = [] -> offset rm = 0 -> stream rm = true \/ readLines rm <> n rm ->
  Forall (fun l => nl ∉ l) ls -> (2 <= length ls)%nat ->
  len (fileOfLines ls) <= chunkSize ->
  Read rm b (mkWorld (fileTransport (fileOfLines ls)) s)
  = (Ok (emit (set_offset (set_lines rm (rev (linesAt 0 ls))) (len (fileOfLines ls) - 1)) b),
     afterRequest (mkWorld (fileTransport (fileOfLines ls)) s) (readRequest rm 0 chunkSize)).
Proof.
  intros Hl Ho Hlim Hnl Hk Hsize. rewrite Read_cases.
  assert (Hno : negb (stream rm) && (readLines rm =? n rm) = false).
  { destruct Hlim as [->|Hne]; [done|]. apply andb_false_iff. right. by apply Z.eqb_neq. }
  rewrite Hno, Hl, Ho. simpl (len [] =? 0). cbv iota.
  rewrite fileTransport_answer. cbn [reqOffset reqLength readRequest].
  change (0 =? -1) with false. change (0 <? 0) with false. cbv iota.
  change (Z.to_nat 0) with 0%nat. rewrite drop_0, (take_all_Z _ _ Hsize). cbn [Data].
  unfold afterRequest. cbn [transport sent]. f_equal. f_equal.
  pose proof (Split_fileOfLines ls Hnl) as Hsplit.
  assert (Hmany : 1 < len (Split (modified (fileOfLines ls) None) nl)).
  { unfold modified. rewrite Hsplit, len_app, len_cons, len_nil. unfold len. lia. }
  rewrite (splitChunk_many _ _ _ Hmany). unfold modified. rewrite Hsplit.
  rewrite removelast_last, last_last. cbn [fst snd].
  rewrite chunkSize_eq in Hsize. pose proof (len_nonneg (fileOfLines ls)).
  rewrite linesWithOffset_linesAt by (unfold maxInt; lia). change (0 + 0) with 0.
  assert (Hb : (1 <? len (linesAt 0 ls)) = true).
  { apply Z.ltb_lt. unfold len. rewrite linesAt_length. lia. }
  unfold buffer. rewrite Hb.
  rewrite prependAll_spec, Hl, app_nil_r.
  rewrite linesLen_sum by (rewrite ?linesAt_Message; unfold maxInt; lia).
  rewrite linesAt_Message. cbn [offset set_lines]. rewrite Ho.
  change (len []) with 0.
  destruct (0 + len (fileOfLines ls) <? chunkSize) eqn:E.
  - do 2 f_equal. rewrite add_id by (unfold isInt, minInt, maxInt; lia).
    unfold sub. rewrite wrap_id; [lia|]. unfold isInt, minInt, maxInt. lia.
  - apply Z.ltb_ge in E. rewrite chunkSize_eq in *. do 2 f_equal.
    rewrite add_id by (unfold isInt, minInt, maxInt; lia).
    unfold sub. rewrite (wrap_id (0 + 65536 - 0)) by (unfold isInt, minInt, maxInt; lia).
    rewrite wrap_id; [lia|]. unfold isInt, minInt, maxInt. lia.
Qed.

(** One step of a consumer. *)
Lemma pullAll_emit (fuel : nat) (rm rm' : ReadManager) (b : Z) (w w' : World) (p : gostring) :
  Read rm b w = (Ok (mkReadResult p None, rm'), w') ->
  outputs (pullAll (S fuel) rm b w) = p :: outputs (pullAll fuel rm' b w')
  /\ ending (pullAll (S fuel) rm b w) = ending (pullAll fuel rm' b w').
Proof.
  intros H. unfold outputs, ending. cbn [pullAll]. rewrite H. cbn [err written].
  by destruct (pullAll fuel rm' b w') as [[[out e] rm2] w2].
Qed.

Lemma pullAll_stop (fuel : nat) (rm rm' : ReadManager) (b : Z) (w w' : World)
    (p : gostring) (e : error) :
  Read rm b w = (Ok (mkReadResult p (Some e), rm'), w') ->
  outputs (pullAll (S fuel) rm b w) = [] /\ ending (pullAll (S fuel) rm b w) = Some e.
Proof. intros H. unfold outputs, ending. cbn [pullAll]. by rewrite H. Qed.

(** The pulls that empty the buffer of a cursor that has fetched all of
    a file and rests on its last terminator. *)
Lemma pullAll_drain (content : gostring) (b : Z) (q : list Line) :
  forall (fuel : nat) (rm : ReadManager) (s : list Request),
    lines rm = rev q -> offset rm = len content - 1 ->
    (exists c, content = c ++ [nl]) -> len content <= 2 ^ 62 ->
    stream rm = true \/ readLines rm + len q < n rm ->
    0 <= readLines rm -> readLines rm + len q < maxInt ->
    Forall (fun line => formatFn rm line <> []) (untilEmpty q) ->
    (length q < fuel)%nat ->
    outputs (pullAll fuel rm b (mkWorld (fileTransport content) s))
    = map (encoded rm b) (untilEmpty q)
    /\ ending (pullAll fuel rm b (mkWorld (fileTransport content) s)) = Some EOF.
Proof.
  induction q as [|l q IH]; intros fuel rm s Hl Ho (c & Hc) Hsize Hlim Hr Hmax Hf Hfuel.
  - destruct fuel as [|fuel]; [simpl in Hfuel; lia|].
    apply (pullAll_stop fuel rm rm b _
             (afterRequest (mkWorld (fileTransport content) s)
                (readRequest rm (offset rm) chunkSize)) []).
    apply (Read_nothing_new rm b _ (mkResponse [nl] (offset rm))).
    + exact Hl.
    + destruct Hlim as [?|Hlt]; [by left | right]. rewrite len_nil in Hlt. lia.
    + rewrite fileTransport_answer. cbn [reqOffset reqLength readRequest]. rewrite Ho.
      pose proof (len_nonneg c) as Hcn.
      assert (Hlen : len content - 1 = len c) by (rewrite Hc, len_app, len_cons, len_nil; lia).
      rewrite Hlen.
      destruct (len c =? -1) eqn:E1; [apply Z.eqb_eq in E1; lia|].
      destruct (len c <? 0) eqn:E2; [apply Z.ltb_lt in E2; lia|].
      do 2 f_equal. rewrite Hc. unfold len. rewrite Nat2Z.id, drop_app_length. done.
    + simpl. lia.
  - destruct fuel as [|fuel]; [simpl in Hfuel; lia|].
    simpl in Hl. rewrite len_cons in *. pose proof (len_nonneg q) as Hq.
    assert (Hno : negb (stream rm) && (readLines rm =? n rm) = false).
    { destruct Hlim as [->|Hlt]; [done|]. apply andb_false_iff. right. apply Z.eqb_neq. lia. }
    cbn [untilEmpty] in *.
    destruct (len (Message l) =? 0) eqn:Em.
    + apply (pullAll_stop fuel rm (set_lines rm (rev q)) b _ (mkWorld (fileTransport content) s) []).
      rewrite Read_cases, Hno. rewrite Hl at 1. rewrite len_app, len_cons, len_nil.
      pose proof (len_nonneg (rev q)).
      destruct (len (rev q) + (1 + 0) =? 0) eqn:E; [apply Z.eqb_eq in E; lia|].
      by rewrite (emit_snoc rm b (rev q) l Hl), Em.
    + apply Z.eqb_neq in Em. apply Forall_cons in Hf as [Hfl Hfq].
      pose proof (Read_buffered_line rm b (mkWorld (fileTransport content) s) (rev q) l Hl) as HR.
      destruct (pullAll_emit fuel rm _ b _ _ _
                  (HR ltac:(destruct Hlim as [?|?]; [by left | right; lia])
                      ltac:(intros E; by rewrite E in Em) Hfl)) as (Hout & Hend).
      rewrite Hout, Hend. cbn [map].
      destruct (IH fuel (set_readLines (set_lines rm (rev q)) (add (readLines rm) 1)) s)
        as (IHout & IHend); try done.
      * by exists c.
      * cbn [stream readLines n set_readLines set_lines].
        rewrite add_one by (unfold minInt; lia).
        destruct Hlim as [?|?]; [by left | right; lia].
      * cbn [readLines set_readLines]. rewrite add_one by (unfold minInt; lia). lia.
      * cbn [readLines set_readLines]. rewrite add_one by (unfold minInt; lia). lia.
      * simpl in Hfuel. lia.
      * rewrite IHout, IHend. done.
Qed.

(** X8: a cursor that starts at the top of a file of at least two
    newline-terminated lines and of at most [chunkSize] bytes, with no
    line limit in the way: a consumer that pulls until [io.EOF] receives
    the encodings of the lines, each once and in the order of the file,
    up to the first empty line, at which the cursor reports [io.EOF];
    without empty line it receives all the lines. *)
Theorem pullAll_small_file (rm : ReadManager) (b : Z) (ls : list gostring) (fuel : nat) :
  lines rm = [] -> offset rm = 0 -> readLines rm = 0 ->
  stream rm = true \/ len ls < n rm ->
  Forall (fun l => nl ∉ l) ls -> (2 <= length ls)%nat ->
  len (fileOfLines ls) <= chunkSize ->
  Forall (fun line => formatFn rm line <> []) (untilEmpty (linesAt 0 ls)) ->
  (length ls < fuel)%nat ->
  outputs (pullAll fuel rm b (fileWorld (fileOfLines ls)))
  = map (encoded rm b) (untilEmpty (linesAt 0 ls))
  /\ ending (pullAll fuel rm b (fileWorld (fileOfLines ls))) = Some EOF
  /\ (Forall (fun l => l <> []) ls -> untilEmpty (linesAt 0 ls) = linesAt 0 ls).
Proof.
  intros Hl Ho Hr Hlim Hnl Hk Hsize Hf Hfuel.
  assert (Hls : len ls = Z.of_nat (length ls)) by done.
  assert (Hlim0 : stream rm = true \/ readLines rm <> n rm).
  { destruct Hlim as [?|?]; [by left | right; lia]. }
  pose proof (Read_top_small rm b ls [] Hl Ho Hlim0 Hnl Hk Hsize) as HR1.
  set (rm1 := set_offset (set_lines rm (rev (linesAt 0 ls))) (len (fileOfLines ls) - 1)) in *.
  set (w1 := afterRequest (mkWorld (fileTransport (fileOfLines ls)) []) (readRequest rm 0 chunkSize))
    in *.
  assert (HR2 : Read rm1 b w1 = (Ok (emit rm1 b), w1)).
  { rewrite Read_cases.
    assert (Hno : negb (stream rm1) && (readLines rm1 =? n rm1) = false).
    { subst rm1. cbn [stream readLines n set_offset set_lines].
      destruct Hlim as [->|Hlt]; [done|]. apply andb_false_iff. right. apply Z.eqb_neq. lia. }
    rewrite Hno. subst rm1. cbn [lines set_offset set_lines].
    destruct (len (rev (linesAt 0 ls)) =? 0) eqn:E; [|done].
    apply Z.eqb_eq in E. unfold len in E. rewrite length_rev, linesAt_length in E. lia. }
  assert (Hsame : pullAll fuel rm b (fileWorld (fileOfLines ls)) = pullAll fuel rm1 b w1).
  { destruct fuel as [|fuel]; [lia|]. cbn [pullAll]. unfold fileWorld.
    rewrite HR1, HR2. done. }
  rewrite Hsame. split_and!.
  - apply (pullAll_drain (fileOfLines ls) b (linesAt 0 ls) fuel rm1
             (sent w1)); subst rm1; cbn [lines offset stream readLines n formatFn set_offset set_lines];
      try done.
    + destruct ls as [|l0 ls'] using rev_ind; [simpl in Hk; lia|].
      rewrite fileOfLines_snoc. by eexists.
    + rewrite chunkSize_eq in Hsize. lia.
    + destruct Hlim as [?|?]; [by left|right]. unfold len. rewrite linesAt_length. lia.
    + lia.
    + unfold len. rewrite linesAt_length. unfold maxInt.
      pose proof (linesAt_length 0 ls).
      assert (Z.of_nat (length ls) <= len (fileOfLines ls)); [|rewrite chunkSize_eq in Hsize; lia].
      clear. induction ls as [|l ls IH]; [done|].
      rewrite fileOfLines_cons, len_app, len_cons. pose proof (len_nonneg l).
      simpl length. lia.
    + by rewrite linesAt_length.
  - apply (pullAll_drain (fileOfLines ls) b (linesAt 0 ls) fuel rm1
             (sent w1)); subst rm1; cbn [lines offset stream readLines n formatFn set_offset set_lines];
      try done.
    + destruct ls as [|l0 ls'] using rev_ind; [simpl in Hk; lia|].
      rewrite fileOfLines_snoc. by eexists.
    + rewrite chunkSize_eq in Hsize. lia.
    + destruct Hlim as [?|?]; [by left|right]. unfold len. rewrite linesAt_length. lia.
    + lia.
    + unfold len. rewrite linesAt_length. unfold maxInt.
      assert (Z.of_nat (length ls) <= len (fileOfLines ls)); [|rewrite chunkSize_eq in Hsize; lia].
      clear. induction ls as [|l ls IH]; [done|].
      rewrite fileOfLines_cons, len_app, len_cons. pose proof (len_nonneg l).
      simpl length. lia.
    + by rewrite linesAt_length.
  - clear. generalize 0. induction ls as [|l ls IH]; intros o Hne; [done|].
    inversion Hne as [|? ? Hl Hls]; subst. cbn [linesAt untilEmpty Message].
    destruct (len l =? 0) eqn:E; [by apply Z.eqb_eq, len_zero_nil in E|].
    by rewrite IH.
Qed.

Lemma pullAll_small_file_witness :
  outputs (pullAll 5 (set_stream manager0 true) 100 (fileWorld abcd))
  = map (encoded (set_stream manager0 true) 100)
      (untilEmpty (linesAt 0 [str "a"; str "b"; str "c"; str "d"]))
  /\ ending (pullAll 5 (set_stream manager0 true) 100 (fileWorld abcd)) = Some EOF
  /\ (Forall (fun l => l <> []) [str "a"; str "b"; str "c"; str "d"] ->
      untilEmpty (linesAt 0 [str "a"; str "b"; str "c"; str "d"])
      = linesAt 0 [str "a"; str "b"; str "c"; str "d"]).
Proof.
  apply (pullAll_small_file (set_stream manager0 true) 100
           [str "a"; str "b"; str "c"; str "d"] 5).
  - reflexivity.
  - reflexivity.
  - reflexivity.
  - left. reflexivity.
  - repeat constructor; vm_compute; intros H; repeat (inversion H as [|? ? ? H']; clear H; rename H' into H).
  - simpl. lia.
  - vm_compute. discriminate.
  - repeat constructor; discriminate.
  - simpl. lia.
Defined.

(* ===================================================================== *)
(** ** Where a refill leaves the cursor                                   *)
(* ===================================================================== *)

Lemma fileOfLines_removelast (s : gostring) :
  fileOfLines (removelast (Split s nl)) ++ List.last (Split s nl) [] = s.
Proof. apply Split_join. Qed.

Lemma emit_offset (rm : ReadManager) (b : Z) : offset (snd (emit rm b)) = offset rm.
Proof. by destruct (emit_spec rm b) as (_ & _ & _ & H & _). Qed.

(** X9: a refill of [Read] that fetches at least two terminators from a
    remote side that returns at most the [chunkSize] bytes asked for
    moves the offset of the manager forward, onto the last terminator of
    the chunk and not behind it: the byte of the chunk at the new offset
    is the terminator, and no terminator follows it.  The next refill
    therefore starts on that terminator. *)
Theorem Read_refill_offset (rm : ReadManager) (b : Z) (w : World) (resp : response) :
  lines rm = [] -> stream rm = true \/ readLines rm <> n rm ->
  answer w (readRequest rm (offset rm) chunkSize) = inr resp ->
  (2 <= count_occ Byte.byte_eq_dec (Data resp) nl)%nat ->
  len (Data resp) <= chunkSize -> 0 <= offset rm <= 2 ^ 62 ->
  exists r rm',
    Read rm b w = (Ok (r, rm'), afterRequest w (readRequest rm (offset rm) chunkSize))
    /\ offset rm < offset rm' < offset rm + len (Data resp)
    /\ Data resp !! Z.to_nat (offset rm' - offset rm) = Some nl
    /\ nl ∉ drop (S (Z.to_nat (offset rm' - offset rm))) (Data resp).
Proof.
  intros Hl Hlim Ha Hc Hsize Ho. rewrite Read_cases.
  assert (Hno : negb (stream rm) && (readLines rm =? n rm) = false).
  { destruct Hlim as [->|Hne]; [done|]. apply andb_false_iff. right. by apply Z.eqb_neq. }
  rewrite Hno, Hl, Ha. simpl (len [] =? 0). cbv iota.
  set (d := Data resp) in *.
  pose proof (splitOn_length_count d) as Hn.
  assert (Hmany : 1 < len (Split (modified d None) nl)) by (unfold modified, len; lia).
  rewrite (splitChunk_many _ _ _ Hmany). unfold modified. cbn [fst snd].
  set (ps := removelast (Split d nl)). set (tl := List.last (Split d nl) []).
  pose proof (fileOfLines_removelast d) as Hjoin. fold ps tl in Hjoin.
  assert (Hps : (2 <= length ps)%nat).
  { subst ps. destruct (Split d nl) as [|p0 sp] eqn:E using rev_ind; [simpl in Hn; lia|].
    rewrite removelast_last. rewrite length_app in Hn. simpl in Hn. lia. }
  clearbody ps.
  assert (Hb : (1 <? len (linesWithOffset (offset rm) 0 ps)) = true).
  { apply Z.ltb_lt. unfold len. rewrite linesWithOffset_length. lia. }
  assert (Hlen : len (fileOfLines ps) + len tl = len d) by (rewrite <- len_app; by rewrite Hjoin).
  pose proof (len_nonneg (fileOfLines ps)) as HF. pose proof (len_nonneg tl) as Htl.
  rewrite chunkSize_eq in Hsize.
  assert (HF2 : 2 <= len (fileOfLines ps)).
  { clear -Hps. destruct ps as [|p1 [|p2 ps]]; [simpl in Hps; lia..|].
    rewrite !fileOfLines_cons, len_app, len_cons, len_app, len_cons.
    pose proof (len_nonneg p1). pose proof (len_nonneg p2).
    pose proof (len_nonneg (fileOfLines ps)). lia. }
  set (bf := buffer rm _ _).
  exists (fst (emit bf b)), (snd (emit bf b)).
  split; [unfold afterRequest; by destruct (emit bf b)|].
  rewrite emit_offset. subst bf. unfold buffer. rewrite Hb, prependAll_spec.
  rewrite linesLen_sum by (rewrite ?linesWithOffset_Message; unfold maxInt; lia).
  rewrite linesWithOffset_Message. cbn [offset set_lines].
  assert (Hoff : offset (if 0 + len (fileOfLines ps) <? chunkSize
                         then set_offset (set_lines rm (rev (linesWithOffset (offset rm) 0 ps) ++ lines rm))
                                (sub (add (offset rm) (0 + len (fileOfLines ps))) 1)
                         else set_offset (set_lines rm (rev (linesWithOffset (offset rm) 0 ps) ++ lines rm))
                                (sub (sub (add (offset rm) chunkSize) (len tl)) 1))
                 = offset rm + len (fileOfLines ps) - 1).
  { rewrite chunkSize_eq. destruct (0 + len (fileOfLines ps) <? 65536) eqn:E; cbn [offset set_offset].
    - rewrite add_id by (unfold isInt, minInt, maxInt; lia).
      unfold sub. rewrite wrap_id; [lia|]. unfold isInt, minInt, maxInt. lia.
    - apply Z.ltb_ge in E.
      rewrite add_id by (unfold isInt, minInt, maxInt; lia).
      unfold sub. rewrite (wrap_id (offset rm + 65536 - len tl)) by (unfold isInt, minInt, maxInt; lia).
      rewrite wrap_id; [lia|]. unfold isInt, minInt, maxInt. lia. }
  rewrite Hoff. replace (offset rm + len (fileOfLines ps) - 1 - offset rm)
    with (len (fileOfLines ps) - 1) by lia.
  destruct ps as [|p0 ps0] eqn:Eps using rev_ind; [simpl in Hps; lia|]. clear IHps0.
  rewrite fileOfLines_snoc in *. set (F := fileOfLines ps0 ++ p0) in *.
  rewrite len_app, len_cons, len_nil in *.
  replace (len F + (1 + 0) - 1) with (len F) by lia.
  split_and!; try lia.
  - rewrite <- Hjoin, <- app_assoc. unfold len. rewrite Nat2Z.id. by apply list_lookup_middle.
  - rewrite <- Hjoin. unfold len. rewrite Nat2Z.id.
    replace (S (length F)) with (length (F ++ [nl])) by (rewrite length_app; simpl; lia).
    rewrite drop_app_length. subst tl.
    apply (Split_pieces_no_nl d). apply last_elem_of. intros E. by rewrite E in Hn.
Qed.

Lemma Read_refill_offset_witness :
  exists r rm',
    Read (set_stream manager0 true) 100 (fileWorld abcd)
    = (Ok (r, rm'), afterRequest (fileWorld abcd)
                      (readRequest (set_stream manager0 true)
                         (offset (set_stream manager0 true)) chunkSize))
    /\ offset (set_stream manager0 true) < offset rm'
       < offset (set_stream manager0 true) + len (Data (mkResponse abcd 0))
    /\ Data (mkResponse abcd 0) !! Z.to_nat (offset rm' - offset (set_stream manager0 true))
       = Some nl
    /\ nl ∉ drop (S (Z.to_nat (offset rm' - offset (set_stream manager0 true))))
              (Data (mkResponse abcd 0)).
Proof.
  apply (Read_refill_offset (set_stream manager0 true) 100 (fileWorld abcd)
           (mkResponse abcd 0)).
  - reflexivity.
  - left. reflexivity.
  - reflexivity.
  - vm_compute. lia.
  - vm_compute. discriminate.
  - vm_compute. split; discriminate.
Defined.

(* ===================================================================== *)
(** ** The handler of the task discovery                                  *)
(* ===================================================================== *)

Lemma redirectURL_nil_error (id : Discovery.CanonicalTaskID) (file url : gostring)
    (e : option error) :
  Discovery.redirectURL id file = Discovery.Returned (url, e) -> e = None.
Proof.
  unfold Discovery.redirectURL.
  destruct (Discovery.index _ _); [|discriminate]. by intros [= _ <-].
Qed.

(** X10: the URL of a task of a pod (a task with an executor id) is the URL
    that a standalone task, named after the executor, has for the file
    ["/tasks/<task id>/<file>"]: after the run directory, which ends in a
    slash, comes a second slash. *)
Theorem redirectURL_pod (id : Discovery.CanonicalTaskID) (file : gostring) :
  Discovery.ExecutorID id <> [] ->
  Discovery.redirectURL id file
  = Discovery.redirectURL
      (Discovery.mkCanonicalTaskID (Discovery.ExecutorID id) (Discovery.AgentID id)
         (Discovery.FrameworkID id) [] (Discovery.ContainerIDs id))
      (str "/tasks/" ++ Discovery.ID id ++ str "/" ++ file).
Proof.
  intros He. unfold Discovery.redirectURL. cbn [Discovery.ExecutorID Discovery.ID
    Discovery.AgentID Discovery.FrameworkID Discovery.ContainerIDs].
  assert (Hpod : (len (Discovery.ExecutorID id) =? 0) = false).
  { apply Z.eqb_neq. intros E. by apply len_zero_nil in E. }
  rewrite Hpod. change (len [] =? 0) with true. cbn [negb].
  destruct (Discovery.index _ _); [|done].
  by rewrite <- !app_assoc.
Qed.

Lemma redirectURL_pod_witness :
  Discovery.redirectURL
    (Discovery.mkCanonicalTaskID (str "task") (str "agent") (str "fw") (str "exec")
       [str "parent"; str "child"]) (str "stdout")
  = Discovery.redirectURL
      (Discovery.mkCanonicalTaskID (str "exec") (str "agent") (str "fw") []
         [str "parent"; str "child"])
      (str "/tasks/" ++ str "task" ++ str "/" ++ str "stdout").
Proof.
  apply (redirectURL_pod
           (Discovery.mkCanonicalTaskID (str "task") (str "agent") (str "fw") (str "exec")
              [str "parent"; str "child"]) (str "stdout")).
  simpl. discriminate.
Defined.

(** X11: the lookups of the handler.  Without task id in the route it makes
    none; otherwise it asks for a running task first, and for a completed
    task only when the first lookup returned an error; it never makes a
    third lookup. *)
Theorem discover_lookups (errorString : error -> gostring) (vars : gmap gostring gostring)
    (nodeInfo : Discovery.NodeInfo) :
  let taskID := Discovery.var vars (str "taskID") in
  let calls := snd (Discovery.discover errorString vars nodeInfo) in
  (taskID = [] -> calls = [])
  /\ (taskID <> [] -> snd (nodeInfo taskID false) = None -> calls = [(taskID, false)])
  /\ (taskID <> [] -> snd (nodeInfo taskID false) <> None ->
      calls = [(taskID, false); (taskID, true)]).
Proof.
  intros taskID calls. subst calls. unfold Discovery.discover. fold taskID.
  split_and!.
  - intros ->. done.
  - intros Hne Hok.
    assert (Ht : (len taskID =? 0) = false).
    { apply Z.eqb_neq. intros E. by apply len_zero_nil in E. }
    rewrite Ht. cbn [Discovery.lookupLoop]. rewrite Hok.
    destruct (nodeInfo taskID false) as [[id|] e0]; simpl in Hok; subst e0; cbn [app snd].
    + by destruct (Discovery.redirectURL id _) as [[u [e|]]|].
    + done.
  - intros Hne Herr.
    assert (Ht : (len taskID =? 0) = false).
    { apply Z.eqb_neq. intros E. by apply len_zero_nil in E. }
    rewrite Ht. cbn [Discovery.lookupLoop].
    destruct (nodeInfo taskID false) as [p0 [e0|]]; [|done]. cbn [snd app].
    destruct (nodeInfo taskID true) as [[id|] [e1|]]; cbn [snd app]; try done.
    by destruct (Discovery.redirectURL id _) as [[u [e|]]|].
Qed.

(** X12: the error replies of the handler.  Every error reply has the
    status 500, and its message is ["taskID is empty"] or the text
    ["unable to get canonical task ID: "] followed by the error of a
    lookup: as [redirectURL] returns a nil error on every input, the
    reply "unable to build redirect URL" is never written.  When both
    lookups fail, the reply carries the error of the second one. *)
Theorem discover_error_replies (errorString : error -> gostring)
    (vars : gmap gostring gostring) (nodeInfo : Discovery.NodeInfo) :
  let taskID := Discovery.var vars (str "taskID") in
  (forall msg code,
      fst (Discovery.discover errorString vars nodeInfo)
      = Discovery.Replied (Discovery.Error msg code) ->
      code = 500
      /\ ((taskID = [] /\ msg = str "taskID is empty")
          \/ (taskID <> []
              /\ exists e, msg = str "unable to get canonical task ID: " ++ e
                           /\ exists completed, snd (nodeInfo taskID completed) = Some e)))
  /\ (forall e1 e2,
         taskID <> [] -> snd (nodeInfo taskID false) = Some e1 ->
         snd (nodeInfo taskID true) = Some e2 ->
         fst (Discovery.discover errorString vars nodeInfo)
         = Discovery.Replied
             (Discovery.Error (str "unable to get canonical task ID: " ++ e2) 500)).
Proof.
  intros taskID. unfold Discovery.discover. fold taskID. split.
  - intros msg code.
    destruct (len taskID =? 0) eqn:Ht.
    { apply Z.eqb_eq, len_zero_nil in Ht. intros [= <- <-]. split; [done|]. by left. }
    assert (Hne : taskID <> []) by (intros E; by rewrite E in Ht).
    cbn [Discovery.lookupLoop].
    destruct (nodeInfo taskID false) as [p0 [e0|]] eqn:E0; cbn [snd].
    + destruct (nodeInfo taskID true) as [p1 [e1|]] eqn:E1; cbn [snd fst].
      * intros [= <- <-]. split; [done|]. right. split; [done|].
        exists e1. split; [done|]. exists true. by rewrite E1.
      * destruct p1 as [id|]; [|done].
        destruct (Discovery.redirectURL id _) as [[u [e|]]|] eqn:Er; try done.
        by apply redirectURL_nil_error in Er.
    + destruct p0 as [id|]; [|done]. cbn [fst].
      destruct (Discovery.redirectURL id _) as [[u [e|]]|] eqn:Er; try done.
      by apply redirectURL_nil_error in Er.
  - intros e1 e2 Hne H1 H2.
    assert (Ht : (len taskID =? 0) = false).
    { apply Z.eqb_neq. intros E. by apply len_zero_nil in E. }
    rewrite Ht. cbn [Discovery.lookupLoop]. rewrite H1, H2.
    destruct (nodeInfo taskID true) as [p1 e]. simpl in H2. by subst e.
Qed.

(** X13: the redirect of the handler.  When the lookup of a running task,
    or after its failure the lookup of a completed task, returns a task
    with at least one container id, the handler redirects with the
    status 303 to the URL that [redirectURL] builds for that task and
    the file of the route, ["stdout"] when the route names none. *)
Theorem discover_redirect (errorString : error -> gostring) (vars : gmap gostring gostring)
    (nodeInfo : Discovery.NodeInfo) (id : Discovery.CanonicalTaskID) :
  Discovery.var vars (str "taskID") <> [] ->
  nodeInfo (Discovery.var vars (str "taskID")) false = (Some id, None)
  \/ (snd (nodeInfo (Discovery.var vars (str "taskID")) false) <> None
      /\ nodeInfo (Discovery.var vars (str "taskID")) true = (Some id, None)) ->
  Discovery.ContainerIDs id <> [] -> len (Discovery.ContainerIDs id) <= maxInt ->
  exists url,
    Discovery.redirectURL id
      (if decide (Discovery.var vars (str "file") = []) then str "stdout"
       else Discovery.var vars (str "file"))
    = Discovery.Returned (url, None)
    /\ fst (Discovery.discover errorString vars nodeInfo)
       = Discovery.Replied (Discovery.Redirect url 303).
Proof.
  set (taskID := Discovery.var vars (str "taskID")).
  set (file := Discovery.var vars (str "file")).
  intros Hne Hfound Hc Hlen.
  set (f := if decide (file = []) then str "stdout" else file).
  assert (Hf : (if len file =? 0 then str "stdout" else file) = f).
  { subst f. destruct (decide (file = [])) as [->|Hn]; [done|].
    destruct (len file =? 0) eqn:E; [|done]. by apply Z.eqb_eq, len_zero_nil in E. }
  assert (Hurl : exists url, Discovery.redirectURL id f = Discovery.Returned (url, None)).
  { unfold Discovery.redirectURL, Discovery.index.
    destruct (Discovery.ContainerIDs id) as [|c cs] using rev_ind; [done|].
    rewrite len_app, len_cons, len_nil in *. pose proof (len_nonneg cs).
    unfold sub. rewrite wrap_id by (unfold isInt, minInt, maxInt in *; lia).
    replace (len cs + (1 + 0) - 1) with (len cs) by lia.
    destruct (len cs <? 0) eqn:H1; [apply Z.ltb_lt in H1; lia|].
    destruct (len cs + (1 + 0) <=? len cs) eqn:H2; [apply Z.leb_le in H2; lia|].
    cbn [orb]. unfold len at 1. rewrite Nat2Z.id, list_lookup_middle by done.
    by eexists. }
  destruct Hurl as (url & Hurl). exists url. split; [exact Hurl|].
  unfold Discovery.discover. fold taskID file. rewrite Hf.
  assert (Ht : (len taskID =? 0) = false).
  { apply Z.eqb_neq. intros E. by apply len_zero_nil in E. }
  rewrite Ht. cbn [Discovery.lookupLoop].
  destruct Hfound as [H0|[H0 H1]].
  - rewrite H0. cbn [snd fst]. by rewrite Hurl.
  - destruct (nodeInfo taskID false) as [p0 [e0|]]; [|done]. cbn [snd].
    rewrite H1. cbn [snd fst]. by rewrite Hurl.
Qed.

(** A task that has completed: the first lookup fails, the second one
    finds it. *)
Lemma discover_redirect_witness :
  exists url,
    Discovery.redirectURL
      (Discovery.mkCanonicalTaskID (str "task") (str "agent") (str "fw") [] [str "c1"])
      (if decide (Discovery.var (<[str "taskID" := str "task"]> ∅) (str "file") = [])
       then str "stdout"
       else Discovery.var (<[str "taskID" := str "task"]> ∅) (str "file"))
    = Discovery.Returned (url, None)
    /\ fst (Discovery.discover (fun _ => [])
              (<[str "taskID" := str "task"]> ∅)
              (fun _ completed =>
                 if completed
                 then (Some (Discovery.mkCanonicalTaskID (str "task") (str "agent") (str "fw")
                               [] [str "c1"]), None)
                 else (None, Some (str "not running"))))
       = Discovery.Replied (Discovery.Redirect url 303).
Proof.
  apply (discover_redirect (fun _ => []) (<[str "taskID" := str "task"]> ∅)
           (fun _ completed =>
              if completed
              then (Some (Discovery.mkCanonicalTaskID (str "task") (str "agent") (str "fw")
                            [] [str "c1"]), None)
              else (None, Some (str "not running")))
           (Discovery.mkCanonicalTaskID (str "task") (str "agent") (str "fw") [] [str "c1"])).
  - vm_compute. discriminate.
  - right. split; [simpl; discriminate | reflexivity].
  - simpl. discriminate.
  - vm_compute. discriminate.
Defined.

(* ===================================================================== *)
(** ** The formatters of journal entries                                  *)
(* ===================================================================== *)

Lemma Join_snoc (l : list gostring) (m sep : gostring) :
  l <> [] -> Journal.Join (l ++ [m]) sep = Journal.Join l sep ++ sep ++ m.
Proof.
  induction l as [|x l IH]; [done|]. intros _.
  destruct l as [|y l]; [done|].
  change (Journal.Join ((x :: y :: l) ++ [m]) sep)
    with (x ++ sep ++ Journal.Join ((y :: l) ++ [m]) sep).
  rewrite IH by done.
  change (Journal.Join (x :: y :: l) sep) with (x ++ sep ++ Journal.Join (y :: l) sep).
  by rewrite <- !app_assoc.
Qed.

Lemma Join_cons (x : gostring) (l : list gostring) (sep : gostring) :
  exists mid, Journal.Join (x :: l) sep = x ++ mid.
Proof. destruct l as [|y l]; [exists []; by rewrite app_nil_r | by eexists]. Qed.

(** The words of a text line before the message. *)
Lemma FormatText_words (formatANSIC : Z -> gostring) (j : Journal.FormatText)
    (entry : Journal.JournalEntry) (m : gostring) :
  Journal.Fields entry !! str "MESSAGE" = Some m ->
  exists ws,
    Journal.FormatText_FormatEntry formatANSIC j entry
    = (Journal.Join
         ((formatANSIC (Z.quot (wrap (Journal.RealtimeTimestamp entry)) 1000000) :: ws) ++ [m])
         (str " ") ++ [nl], None).
Proof.
  intros Hm. unfold Journal.FormatText_FormatEntry. rewrite Hm.
  unfold Journal.ToBytes, Journal.String, Journal.Add.
  destruct (Journal.Fields entry !! str "_HOSTNAME") as [h|];
    destruct (Journal.Fields entry !! str "SYSLOG_IDENTIFIER") as [s|];
    destruct (Journal.Fields entry !! str "_PID") as [p|];
    cbn [app];
    [exists [h; s; str "[" ++ p ++ str "]"] | exists [h; s]
    |exists [h; str "[" ++ p ++ str "]"] | exists [h]
    |exists [s; str "[" ++ p ++ str "]"] | exists [s]
    |exists [str "[" ++ p ++ str "]"] | exists []]; reflexivity.
Qed.

(** X14: the plain-text formatter never returns an error, and it returns
    no bytes exactly when the entry has no ["MESSAGE"] field.  With a
    message, the line starts with the time of the entry, in seconds
    (the microseconds of the realtime timestamp divided by 1000000),
    and ends with a space, the message and one newline. *)
Theorem FormatText_line (formatANSIC : Z -> gostring) (j : Journal.FormatText)
    (entry : Journal.JournalEntry) :
  snd (Journal.FormatText_FormatEntry formatANSIC j entry) = None
  /\ (fst (Journal.FormatText_FormatEntry formatANSIC j entry) = []
      <-> Journal.Fields entry !! str "MESSAGE" = None)
  /\ (forall m, Journal.Fields entry !! str "MESSAGE" = Some m ->
        exists mid,
          fst (Journal.FormatText_FormatEntry formatANSIC j entry)
          = formatANSIC (Z.quot (wrap (Journal.RealtimeTimestamp entry)) 1000000)
            ++ mid ++ str " " ++ m ++ [nl]).
Proof.
  destruct (Journal.Fields entry !! str "MESSAGE") as [m|] eqn:Hm.
  - destruct (FormatText_words formatANSIC j entry m Hm) as (ws & ->). cbn [fst snd].
    rewrite Join_snoc by done.
    destruct (Join_cons (formatANSIC (Z.quot (wrap (Journal.RealtimeTimestamp entry)) 1000000))
                ws (str " ")) as (mid & ->).
    split_and!; [done| |].
    + split; [|done]. intros E. apply app_eq_nil in E as [_ E]. discriminate E.
    + intros ? [= <-]. exists mid. by rewrite <- !app_assoc.
  - unfold Journal.FormatText_FormatEntry. rewrite Hm. by split_and!.
Qed.

(** X15: an entry with a message, a host name, a syslog identifier and a
    pid: the line is the five words separated by one space each, the pid
    in square brackets as a word of its own, and one newline; no colon
    stands before the message. *)
Theorem FormatText_all_fields (formatANSIC : Z -> gostring) (j : Journal.FormatText)
    (entry : Journal.JournalEntry) (m h s p : gostring) :
  Journal.Fields entry !! str "MESSAGE" = Some m ->
  Journal.Fields entry !! str "_HOSTNAME" = Some h ->
  Journal.Fields entry !! str "SYSLOG_IDENTIFIER" = Some s ->
  Journal.Fields entry !! str "_PID" = Some p ->
  Journal.FormatText_FormatEntry formatANSIC j entry
  = (formatANSIC (Z.quot (wrap (Journal.RealtimeTimestamp entry)) 1000000)
     ++ str " " ++ h ++ str " " ++ s ++ str " [" ++ p ++ str "] " ++ m ++ [nl], None).
Proof.
  intros Hm Hh Hs Hp. unfold Journal.FormatText_FormatEntry. rewrite Hm, Hh, Hs, Hp.
  unfold Journal.ToBytes, Journal.String, Journal.Add. cbn [app Journal.Join].
  f_equal. rewrite <- !app_assoc. reflexivity.
Qed.

Lemma FormatText_all_fields_witness :
  Journal.FormatText_FormatEntry (fun _ => str "Thu Jan  1 00:00:00 1970")
    Journal.mkFormatText
    (Journal.mkJournalEntry
       (<[str "MESSAGE" := str "started"]>
          (<[str "_HOSTNAME" := str "node1"]>
             (<[str "SYSLOG_IDENTIFIER" := str "sshd"]>
                (<[str "_PID" := str "42"]> ∅))))
       (str "s=1;i=2") 1500000000000000 77)
  = (str "Thu Jan  1 00:00:00 1970" ++ str " " ++ str "node1" ++ str " " ++ str "sshd"
     ++ str " [" ++ str "42" ++ str "] " ++ str "started" ++ [nl], None).
Proof.
  apply (FormatText_all_fields (fun _ => str "Thu Jan  1 00:00:00 1970")).
  - vm_compute. reflexivity.
  - vm_compute. reflexivity.
  - vm_compute. reflexivity.
  - vm_compute. reflexivity.
Defined.

(** X16: the event-stream formatter and the JSON formatter fail together,
    with the error and the bytes of [json.Marshal]; when they succeed,
    the event is ["data: "], the JSON line of the entry with its newline,
    and one more newline. *)
Theorem FormatSSE_FormatJSON (jsonMarshal : Journal.formattedEntry -> gostring * option error)
    (entry : Journal.JournalEntry) :
  let json := Journal.FormatJSON_FormatEntry jsonMarshal Journal.mkFormatJSON entry in
  let sse := Journal.FormatSSE_FormatEntry jsonMarshal Journal.mkFormatSSE entry in
  snd sse = snd json
  /\ snd json = snd (jsonMarshal entry)
  /\ (snd json = None ->
      fst json = fst (jsonMarshal entry) ++ [nl]
      /\ fst sse = str "data: " ++ fst json ++ [nl])
  /\ (snd json <> None -> fst sse = fst json /\ fst json = fst (jsonMarshal entry)).
Proof.
  unfold Journal.FormatJSON_FormatEntry, Journal.FormatSSE_FormatEntry,
    Journal.marshalJournalEntry.
  replace (Journal.mkJournalEntry (Journal.Fields entry) (Journal.Cursor entry)
             (Journal.RealtimeTimestamp entry) (Journal.MonotonicTimestamp entry))
    with entry by (by destruct entry).
  destruct (jsonMarshal entry) as [bytes [e|]]; cbn [fst snd].
  - by split_and!.
  - split_and!; try done. intros _. split; [done|]. by rewrite <- !app_assoc.
Qed.

(* ===================================================================== *)
(** ** The modifier of the backward search                                *)
(* ===================================================================== *)

Lemma runesFrom_ascii (fuel : nat) (s : gostring) :
  (length s <= fuel)%nat -> Forall (fun c => b2z c < 0x80) s ->
  runesFrom fuel s = map b2z s.
Proof.
  revert s. induction fuel as [|fuel IH]; intros s Hlen Ha.
  - destruct s; [done | simpl in Hlen; lia].
  - destruct s as [|c s]; [done|]. apply Forall_cons in Ha as [Hc Ha].
    cbn [runesFrom DecodeRuneInString]. apply Z.ltb_lt in Hc. rewrite Hc.
    cbn [drop map]. rewrite drop_0, IH; [done | simpl in Hlen; lia | done].
Qed.

Lemma stringOfRunes_ascii (s : gostring) :
  Forall (fun c => b2z c < 0x80) s -> stringOfRunes (map b2z s) = s.
Proof.
  induction 1 as [|c s Hc _ IH]; [done|].
  change (stringOfRunes (map b2z (c :: s))) with (encoderune (b2z c) ++ stringOfRunes (map b2z s)).
  rewrite IH. unfold encoderune. pose proof (b2z_range c).
  rewrite Z.mod_small by lia.
  destruct (b2z c <=? 127) eqn:E; [|apply Z.leb_gt in E; lia].
  by rewrite z2b_b2z.
Qed.

(** X17: the swap loop of [reverse] reverses the slice of runes: the result
    is the encoding of the runes of the string in the opposite order. *)
Theorem reverse_runes (s : gostring) :
  len s <= maxInt -> reverse s = stringOfRunes (rev (runes s)).
Proof.
  intros H. unfold reverse. rewrite swapLoop_rev; [done|].
  pose proof (runesFrom_length (length s) s). unfold runes, len in *. lia.
Qed.

Lemma reverse_runes_witness : reverse (str "ab") = stringOfRunes (rev (runes (str "ab"))).
Proof. apply (reverse_runes (str "ab")). vm_compute. discriminate. Defined.

(** X18: on a chunk of ASCII bytes [reverse] is the reversal of the bytes,
    and reversing twice gives the chunk back. *)
Theorem reverse_ascii (s : gostring) :
  Forall (fun c => b2z c < 0x80) s -> len s <= maxInt ->
  reverse s = rev s /\ reverse (reverse s) = s.
Proof.
  intros Ha Hlen.
  assert (G : forall t, Forall (fun c => b2z c < 0x80) t -> len t <= maxInt ->
                        reverse t = rev t).
  { intros t Ht Hl. unfold reverse, runes. rewrite (runesFrom_ascii _ _ (le_n _) Ht).
    rewrite swapLoop_rev by (unfold len in *; by rewrite length_map).
    rewrite <- map_rev. apply stringOfRunes_ascii. by apply Forall_rev. }
  split; [by apply G|].
  rewrite (G s Ha Hlen), G; [apply rev_involutive | by apply Forall_rev |].
  unfold len in *. by rewrite length_rev.
Qed.

Lemma reverse_ascii_witness :
  reverse (str "ab" ++ [nl] ++ str "c") = rev (str "ab" ++ [nl] ++ str "c")
  /\ reverse (reverse (str "ab" ++ [nl] ++ str "c")) = str "ab" ++ [nl] ++ str "c".
Proof.
  apply (reverse_ascii (str "ab" ++ [nl] ++ str "c")).
  - repeat constructor.
  - vm_compute. discriminate.
Defined.

(* ===================================================================== *)
(** ** The requests of a construction                                     *)
(* ===================================================================== *)

(** Every iteration of the backward search finds at least one line, so
    that it sends no more requests than lines are still to find. *)
Lemma locate_requests (fuel : nat) :
  forall (rm : ReadManager) (f off : Z) (w : World),
    - 2 ^ 62 <= n rm <= 2 ^ 62 ->
    0 <= f -> (f = 0 \/ f < n rm) ->
    Z.max 1 (n rm - f) <= Z.of_nat fuel ->
    boundedAnswers w ->
    exists reqs,
      sent (snd (locate fuel rm f off w)) = sent w ++ reqs
      /\ Z.of_nat (length reqs) <= Z.max 1 (n rm - f)
      /\ Forall (fun req => exists o, req = readRequest rm o chunkSize) reqs.
Proof.
  induction fuel as [|fuel IH]; intros rm f off w Hn Hf Hfn Hfuel Hb; [lia|].
  rewrite locate_step. destruct (off <? 1).
  { exists []. rewrite app_nil_r. split_and!; [done | simpl; lia | constructor]. }
  set (req := readRequest rm off chunkSize).
  assert (Hone : Forall (fun q => exists o, q = readRequest rm o chunkSize) [req]).
  { constructor; [by exists off | constructor]. }
  destruct (answer w req) as [e|r] eqn:Ea.
  { exists [req]. split_and!; [done | simpl; lia | exact Hone]. }
  cbv zeta.
  pose proof (splitChunk_length (Data r) off (Some reverse)) as Hlen.
  pose proof (reverse_length_le (Data r)) as Hrev.
  pose proof (Hb req r Ea) as Hdata. simpl in Hlen.
  set (ls := fst (splitChunk (Data r) off (Some reverse))) in *.
  set (delta := snd (splitChunk (Data r) off (Some reverse))) in *.
  assert (Hadd : add f (len ls) = f + len ls).
  { unfold add. apply wrap_id. unfold isInt, minInt, maxInt. lia. }
  rewrite Hadd. destruct (n rm <=? f + len ls) eqn:Hfound.
  - exists [req]. split_and!; [done | simpl; lia | exact Hone].
  - apply Z.leb_gt in Hfound.
    destruct (IH (set_offset rm (sub off (sub chunkSize delta))) (f + len ls)
                (sub off (sub chunkSize delta)) (afterRequest w req))
      as (reqs & Hsent & Hcount & Hall).
    + done.
    + lia.
    + right. simpl. lia.
    + simpl. lia.
    + intros q r' Hq. apply (Hb q r'). by rewrite <- Hq.
    + exists (req :: reqs). split_and!.
      * rewrite Hsent. simpl. by rewrite <- app_assoc.
      * simpl length. simpl in Hcount. lia.
      * constructor; [by exists off | exact Hall].
Qed.

(** X19: the requests of a construction.  With the direction [TopToBottom]
    the constructor sends no request.  With [BottomToTop] and a line
    count [n] it sends the request for the size of the file and then at
    most [max 1 n] requests, each for [chunkSize] bytes of that file. *)
Theorem NewLineReader_requests (fuel : nat)
    (masterURL agentID frameworkID executorID containerID taskPath file : gostring)
    (format : Formatter) (opts : list (option Option)) (w : World) (rm1 : ReadManager) :
  applyOpts opts
    (mkReadManager masterURL
       (mkSandboxPath agentID frameworkID executorID containerID taskPath)
       ∅ TopToBottom 0 file 0 0 [] 0 false format) = inr rm1 ->
  - 2 ^ 62 <= n rm1 <= 2 ^ 62 -> Z.max 1 (n rm1) <= Z.of_nat fuel ->
  boundedAnswers w ->
  exists reqs,
    sent (snd (NewLineReader fuel masterURL agentID frameworkID executorID containerID
                 taskPath file format opts w)) = sent w ++ reqs
    /\ (readDirection rm1 = TopToBottom -> reqs = [])
    /\ Z.of_nat (length reqs) <= 1 + Z.max 1 (n rm1)
    /\ (forall req tl, reqs = req :: tl ->
          req = sizeRequest rm1
          /\ Forall (fun q => exists o, q = readRequest rm1 o chunkSize) tl).
Proof.
  intros Eopts Hn Hfuel Hb. unfold NewLineReader.
  destruct (notEmpty [agentID; frameworkID; executorID; containerID]).
  { exists []. rewrite app_nil_r. split_and!; [done | done | simpl; lia | done]. }
  rewrite Eopts. destruct (readDirection rm1) eqn:Edir.
  { exists []. rewrite app_nil_r. split_and!; [done | done | simpl; lia | done]. }
  unfold bind. rewrite fileLen_answer. fold (sizeRequest rm1).
  fold (afterRequest w (sizeRequest rm1)).
  destruct (answer w (sizeRequest rm1)) as [e|r] eqn:Esize.
  { exists [sizeRequest rm1]. split_and!; [done | done | simpl; lia |].
    intros req tl [= <- <-]. split; [done | constructor]. }
  destruct (locate_requests fuel (set_offset rm1 (Offset r)) 0 (sub (Offset r) chunkSize)
              (afterRequest w (sizeRequest rm1)))
    as (reqs & Hsent & Hcount & Hall).
  { done. } { done. } { by left. } { simpl. lia. }
  { intros q r' Hq. by apply (Hb q r'). }
  exists (sizeRequest rm1 :: reqs). split_and!.
  - rewrite Hsent. simpl. by rewrite <- app_assoc.
  - done.
  - simpl length. simpl in Hcount. lia.
  - intros req tl [= <- <-]. split; [done | exact Hall].
Qed.

(** A tail of two lines of a file of three lines in two chunks. *)
Lemma NewLineReader_requests_witness :
  exists reqs,
    sent (snd (newReader 3 (tailOpts 2) threeLines)) = sent (fileWorld threeLines) ++ reqs
    /\ (readDirection (set_n (set_readDirection manager0 BottomToTop) 2) = TopToBottom ->
        reqs = [])
    /\ Z.of_nat (length reqs) <= 1 + Z.max 1 (n (set_n (set_readDirection manager0 BottomToTop) 2))
    /\ (forall req tl, reqs = req :: tl ->
          req = sizeRequest (set_n (set_readDirection manager0 BottomToTop) 2)
          /\ Forall (fun q => exists o,
                       q = readRequest (set_n (set_readDirection manager0 BottomToTop) 2)
                             o chunkSize) tl).
Proof.
  apply (NewLineReader_requests 3 (str "http://leader.mesos/files/read")
           (str "agent") (str "framework") (str "executor") (str "container") [] (str "stdout")
           lineFormat (tailOpts 2) (fileWorld threeLines)
           (set_n (set_readDirection manager0 BottomToTop) 2)).
  - reflexivity.
  - simpl. lia.
  - simpl. lia.
  - apply fileWorld_bounded. vm_compute. discriminate.
Defined.

(* ===================================================================== *)
(** ** The options of a construction                                      *)
(* ===================================================================== *)

(** X20: the options are applied one after the other, each to the manager
    that the options before it left; the first error ends the loop, and
    nil options are skipped. *)
Theorem applyOpts_app (opts1 opts2 : list (option Option)) (rm : ReadManager) :
  applyOpts (opts1 ++ opts2) rm
  = match applyOpts opts1 rm with
    | inl e => inl e
    | inr rm' => applyOpts opts2 rm'
    end
  /\ applyOpts (None :: opts1) rm = applyOpts opts1 rm
  /\ applyOpts (opts1 ++ None :: opts2) rm = applyOpts (opts1 ++ opts2) rm.
Proof.
  assert (G : forall o1 o2 r, applyOpts (o1 ++ o2) r
                              = match applyOpts o1 r with
                                | inl e => inl e
                                | inr rm' => applyOpts o2 rm'
                                end).
  { induction o1 as [|[o|] o1 IH]; intros o2 r; simpl; [done| |apply IH].
    destruct (o r) as [e|r']; [done | apply IH]. }
  split_and!; [apply G | done |]. rewrite !G. by destruct (applyOpts opts1 rm).
Qed.

(* ===================================================================== *)
(** ** Reading a small file with a line limit                             *)
(* ===================================================================== *)

Lemma pullAll_emit_world (fuel : nat) (rm rm' : ReadManager) (b : Z) (w w' : World)
    (p : gostring) :
  Read rm b w = (Ok (mkReadResult p None, rm'), w') ->
  snd (pullAll (S fuel) rm b w) = snd (pullAll fuel rm' b w').
Proof.
  intros H. cbn [pullAll]. rewrite H. cbn [err written].
  by destruct (pullAll fuel rm' b w') as [[[out e] rm2] w2].
Qed.

Lemma pullAll_stop_world (fuel : nat) (rm rm' : ReadManager) (b : Z) (w w' : World)
    (p : gostring) (e : error) :
  Read rm b w = (Ok (mkReadResult p (Some e), rm'), w') ->
  snd (pullAll (S fuel) rm b w) = w'.
Proof. intros H. cbn [pullAll]. by rewrite H. Qed.

Lemma Read_limit_reached (rm : ReadManager) (b : Z) (w : World) :
  stream rm = false -> readLines rm = n rm -> Read rm b w = (Ok (eof, rm), w).
Proof. intros Hs Hr. rewrite Read_cases, Hs, Hr, Z.eqb_refl. done. Qed.

(** The pulls on a buffer that holds at least as many lines as the limit
    still allows. *)
Lemma pullAll_limit (b : Z) (q : list Line) :
  forall (fuel : nat) (rm : ReadManager) (w : World),
    lines rm = rev q -> stream rm = false ->
    0 <= readLines rm <= n rm -> n rm - readLines rm <= len q -> n rm < maxInt ->
    Forall (fun line => formatFn rm line <> []) (untilEmpty q) ->
    (length q < fuel)%nat ->
    outputs (pullAll fuel rm b w)
    = map (encoded rm b) (take (Z.to_nat (n rm - readLines rm)) (untilEmpty q))
    /\ ending (pullAll fuel rm b w) = Some EOF
    /\ snd (pullAll fuel rm b w) = w.
Proof.
  induction q as [|l q IH]; intros fuel rm w Hl Hs Hr Hk Hmax Hf Hfuel;
    (destruct fuel as [|fuel]; [simpl in Hfuel; lia|]).
  - rewrite len_nil in Hk.
    assert (Hrn : readLines rm = n rm) by lia.
    pose proof (Read_limit_reached rm b w Hs Hrn) as HR.
    destruct (pullAll_stop fuel rm rm b w w [] EOF HR) as (-> & ->).
    rewrite (pullAll_stop_world fuel rm rm b w w [] EOF HR). cbn [untilEmpty].
    by rewrite take_nil.
  - destruct (decide (readLines rm = n rm)) as [E|E].
    { pose proof (Read_limit_reached rm b w Hs E) as HR.
      destruct (pullAll_stop fuel rm rm b w w [] EOF HR) as (-> & ->).
      rewrite (pullAll_stop_world fuel rm rm b w w [] EOF HR).
      replace (n rm - readLines rm) with 0 by lia. done. }
    simpl in Hl. rewrite len_cons in Hk. pose proof (len_nonneg q) as Hq.
    cbn [untilEmpty] in *.
    destruct (len (Message l) =? 0) eqn:Em.
    + assert (HR : Read rm b w = (Ok (eof, set_lines rm (rev q)), w)).
      { rewrite Read_cases, Hs. cbn [negb andb].
        destruct (readLines rm =? n rm) eqn:E'; [apply Z.eqb_eq in E'; lia|].
        rewrite Hl at 1. rewrite len_app, len_cons, len_nil.
        pose proof (len_nonneg (rev q)).
        destruct (len (rev q) + (1 + 0) =? 0) eqn:E2; [apply Z.eqb_eq in E2; lia|].
        by rewrite (emit_snoc rm b (rev q) l Hl), Em. }
      destruct (pullAll_stop fuel rm _ b w w [] EOF HR) as (-> & ->).
      rewrite (pullAll_stop_world fuel rm _ b w w [] EOF HR). by rewrite take_nil.
    + apply Z.eqb_neq in Em. apply Forall_cons in Hf as [Hfl Hfq].
      assert (Hm : Message l <> []) by (intros E'; by rewrite E' in Em).
      pose proof (Read_buffered_line rm b w (rev q) l Hl (or_intror E) Hm Hfl) as HR.
      destruct (pullAll_emit fuel rm _ b _ _ _ HR) as (-> & ->).
      rewrite (pullAll_emit_world fuel rm _ b _ _ _ HR).
      assert (Hadd1 : add (readLines rm) 1 = readLines rm + 1)
        by (apply add_one; unfold minInt; lia).
      rewrite Hadd1.
      destruct (IH fuel (set_readLines (set_lines rm (rev q)) (readLines rm + 1)) w)
        as (IHout & IHend & IHw);
        [done | done
        |cbn [readLines n set_readLines set_lines]; lia
        |cbn [readLines n set_readLines set_lines]; lia
        |done | done | simpl in Hfuel; lia |].
      cbn [n readLines set_readLines set_lines] in IHout.
      rewrite IHout, IHend, IHw. split_and!; try done.
      replace (Z.to_nat (n rm - readLines rm)) with (S (Z.to_nat (n rm - (readLines rm + 1))))
        by lia.
      done.
Qed.

(** X21: a cursor without streaming and with a limit of [n] lines, at the
    top of a file of at least [n] lines (two or more, newline-terminated,
    at most [chunkSize] bytes in all): a consumer that pulls until
    [io.EOF] receives the encodings of the first [n] lines, in the order
    of the file and each once (fewer when an empty line comes before),
    and the cursor has sent one request, or none when [n] is zero. *)
Theorem pullAll_small_file_limit (rm : ReadManager) (b : Z) (ls : list gostring) (fuel : nat) :
  lines rm = [] -> offset rm = 0 -> readLines rm = 0 ->
  stream rm = false -> 0 <= n rm <= len ls ->
  Forall (fun l => nl ∉ l) ls -> (2 <= length ls)%nat ->
  len (fileOfLines ls) <= chunkSize ->
  Forall (fun line => formatFn rm line <> []) (untilEmpty (linesAt 0 ls)) ->
  (length ls < fuel)%nat ->
  outputs (pullAll fuel rm b (fileWorld (fileOfLines ls)))
  = map (encoded rm b) (take (Z.to_nat (n rm)) (untilEmpty (linesAt 0 ls)))
  /\ ending (pullAll fuel rm b (fileWorld (fileOfLines ls))) = Some EOF
  /\ sent (snd (pullAll fuel rm b (fileWorld (fileOfLines ls))))
     = if n rm =? 0 then [] else [readRequest rm 0 chunkSize].
Proof.
  intros Hl Ho Hr Hs Hn Hnl Hk Hsize Hf Hfuel.
  assert (Hls : len ls = Z.of_nat (length ls)) by done.
  assert (Hfile : Z.of_nat (length ls) <= len (fileOfLines ls)).
  { clear. induction ls as [|l ls IH]; [done|].
    rewrite fileOfLines_cons, len_app, len_cons. pose proof (len_nonneg l).
    simpl length. lia. }
  rewrite chunkSize_eq in Hsize.
  destruct (n rm =? 0) eqn:En.
  { apply Z.eqb_eq in En. destruct fuel as [|fuel]; [lia|].
    assert (Hrn : readLines rm = n rm) by lia.
    pose proof (Read_limit_reached rm b (fileWorld (fileOfLines ls)) Hs Hrn) as HR.
    destruct (pullAll_stop fuel rm rm b _ _ [] EOF HR) as (-> & ->).
    rewrite (pullAll_stop_world fuel rm rm b _ _ [] EOF HR), En. done. }
  apply Z.eqb_neq in En.
  assert (Hlim : stream rm = true \/ readLines rm <> n rm) by (right; lia).
  assert (Hsize' : len (fileOfLines ls) <= chunkSize) by (rewrite chunkSize_eq; lia).
  pose proof (Read_top_small rm b ls [] Hl Ho Hlim Hnl Hk Hsize') as HR1.
  set (rm1 := set_offset (set_lines rm (rev (linesAt 0 ls))) (len (fileOfLines ls) - 1)) in *.
  set (w1 := afterRequest (mkWorld (fileTransport (fileOfLines ls)) []) (readRequest rm 0 chunkSize))
    in *.
  assert (HR2 : Read rm1 b w1 = (Ok (emit rm1 b), w1)).
  { rewrite Read_cases. subst rm1. cbn [stream readLines n lines set_offset set_lines].
    rewrite Hs, Hr. cbn [negb andb].
    destruct (0 =? n rm) eqn:E; [apply Z.eqb_eq in E; lia|].
    destruct (len (rev (linesAt 0 ls)) =? 0) eqn:E2; [|done].
    apply Z.eqb_eq in E2. unfold len in E2. rewrite length_rev, linesAt_length in E2. lia. }
  assert (Hsame : pullAll fuel rm b (fileWorld (fileOfLines ls)) = pullAll fuel rm1 b w1).
  { destruct fuel as [|fuel]; [lia|]. cbn [pullAll]. unfold fileWorld.
    rewrite HR1, HR2. done. }
  rewrite Hsame.
  destruct (pullAll_limit b (linesAt 0 ls) fuel rm1 w1) as (Hout & Hend & Hw);
    subst rm1; cbn [lines offset stream readLines n formatFn set_offset set_lines] in *;
    try done.
  - lia.
  - unfold len. rewrite linesAt_length. lia.
  - unfold maxInt. lia.
  - by rewrite linesAt_length.
  - rewrite Hout, Hend, Hw, Hr, Z.sub_0_r. done.
Qed.

Lemma pullAll_small_file_limit_witness :
  outputs (pullAll 5 (set_n manager0 2) 100 (fileWorld abcd))
  = map (encoded (set_n manager0 2) 100)
      (take (Z.to_nat (n (set_n manager0 2)))
         (untilEmpty (linesAt 0 [str "a"; str "b"; str "c"; str "d"])))
  /\ ending (pullAll 5 (set_n manager0 2) 100 (fileWorld abcd)) = Some EOF
  /\ sent (snd (pullAll 5 (set_n manager0 2) 100 (fileWorld abcd)))
     = if n (set_n manager0 2) =? 0 then [] else [readRequest (set_n manager0 2) 0 chunkSize].
Proof.
  apply (pullAll_small_file_limit (set_n manager0 2) 100
           [str "a"; str "b"; str "c"; str "d"] 5).
  - reflexivity.
  - reflexivity.
  - reflexivity.
  - reflexivity.
  - vm_compute. split; discriminate.
  - repeat constructor; vm_compute; intros H; repeat (inversion H as [|? ? ? H']; clear H; rename H' into H).
  - simpl. lia.
  - vm_compute. discriminate.
  - repeat constructor; discriminate.
  - simpl. lia.
Defined.

(* ===================================================================== *)
(** ** A backward construction without a line count                       *)
(* ===================================================================== *)

(** X22: with the direction [BottomToTop] and a line count of zero (or
    below), on a file larger than [chunkSize]: the constructor asks for
    the size, reads the last chunk, finds the count reached at once and
    subtracts no line, so that the manager starts at the end of the
    file, whatever the chunk holds. *)
Theorem NewLineReader_BottomToTop_no_count (fuel : nat)
    (masterURL agentID frameworkID executorID containerID taskPath file : gostring)
    (format : Formatter) (opts : list (option Option)) (w : World)
    (rm1 : ReadManager) (size chunk : response) :
  agentID <> [] -> frameworkID <> [] -> executorID <> [] -> containerID <> [] ->
  applyOpts opts
    (mkReadManager masterURL
       (mkSandboxPath agentID frameworkID executorID containerID taskPath)
       ∅ TopToBottom 0 file 0 0 [] 0 false format) = inr rm1 ->
  readDirection rm1 = BottomToTop -> - 2 ^ 62 <= n rm1 <= 0 ->
  answer w (sizeRequest rm1) = inr size -> chunkSize < Offset size <= 2 ^ 62 ->
  answer w (readRequest rm1 (Offset size - chunkSize) chunkSize) = inr chunk ->
  len (Data chunk) <= 2 ^ 32 ->
  (0 < fuel)%nat ->
  NewLineReader fuel masterURL agentID frameworkID executorID containerID taskPath file
    format opts w
  = (Ok (set_offset rm1 (Offset size)),
     afterRequest (afterRequest w (sizeRequest rm1))
       (readRequest rm1 (Offset size - chunkSize) chunkSize)).
Proof.
  intros Ha Hf He Hc Hopts Hdir Hn Hsize Hbig Hchunk Hdata Hfuel.
  unfold NewLineReader.
  destruct (notEmpty_four agentID frameworkID executorID containerID)
    as [([?|[?|[?|?]]] & _) | (_ & _ & _ & _ & ->)]; try done.
  rewrite Hopts, Hdir. unfold bind. rewrite fileLen_answer.
  fold (sizeRequest rm1). rewrite Hsize.
  fold (afterRequest w (sizeRequest rm1)).
  destruct fuel as [|fuel]; [lia|]. rewrite locate_step.
  rewrite chunkSize_eq in *.
  assert (Hsub : sub (Offset size) 65536 = Offset size - 65536).
  { unfold sub. apply wrap_id. unfold isInt, minInt, maxInt. lia. }
  rewrite Hsub.
  destruct (Offset size - 65536 <? 1) eqn:Hlt; [apply Z.ltb_lt in Hlt; lia|].
  change (readRequest (set_offset rm1 (Offset size))) with (readRequest rm1).
  change (answer (afterRequest w (sizeRequest rm1))) with (answer w).
  rewrite Hchunk. cbv zeta.
  pose proof (splitChunk_length (Data chunk) (Offset size - 65536) (Some reverse)) as Hlen.
  pose proof (reverse_length_le (Data chunk)) as Hrev. simpl in Hlen.
  set (ls := fst (splitChunk (Data chunk) (Offset size - 65536) (Some reverse))) in *.
  assert (Hadd : add 0 (len ls) = len ls).
  { unfold add. apply wrap_id. unfold isInt, minInt, maxInt. lia. }
  rewrite Hadd. cbn [n set_offset].
  destruct (n rm1 <=? len ls) eqn:Hfound; [|apply Z.leb_gt in Hfound; lia].
  assert (Hi : sub (len ls) (sub (n rm1) 0) = len ls - n rm1).
  { unfold sub. rewrite (wrap_id (n rm1 - 0)) by (unfold isInt, minInt, maxInt; lia).
    rewrite wrap_id; [lia|]. unfold isInt, minInt, maxInt. lia. }
  rewrite Hi. unfold subtractLines.
  destruct (len ls - n rm1 <? len ls) eqn:E; [apply Z.ltb_lt in E; lia|]. done.
Qed.

(** A tail without line count of a file that the remote side reports
    to hold 100000 bytes. *)
Lemma NewLineReader_BottomToTop_no_count_witness :
  NewLineReader 1 (str "http://leader.mesos/files/read")
    (str "agent") (str "framework") (str "executor") (str "container") [] (str "stdout")
    lineFormat [Some (OptReadDirection BottomToTop)]
    (mkWorld (fun req => inr (mkHTTPResponse 200
                                (inr (mkResponse (str "tail") (if reqOffset req =? -1 then 100000
                                                              else reqOffset req))))) [])
  = (Ok (set_offset (set_readDirection manager0 BottomToTop)
           (Offset (mkResponse (str "tail") 100000))),
     afterRequest
       (afterRequest
          (mkWorld (fun req => inr (mkHTTPResponse 200
                                      (inr (mkResponse (str "tail")
                                              (if reqOffset req =? -1 then 100000
                                               else reqOffset req))))) [])
          (sizeRequest (set_readDirection manager0 BottomToTop)))
       (readRequest (set_readDirection manager0 BottomToTop)
          (Offset (mkResponse (str "tail") 100000) - chunkSize) chunkSize)).
Proof.
  apply (NewLineReader_BottomToTop_no_count 1 (str "http://leader.mesos/files/read")
           (str "agent") (str "framework") (str "executor") (str "container") [] (str "stdout")
           lineFormat [Some (OptReadDirection BottomToTop)]
           (mkWorld (fun req => inr (mkHTTPResponse 200
                                       (inr (mkResponse (str "tail")
                                               (if reqOffset req =? -1 then 100000
                                                else reqOffset req))))) [])
           (set_readDirection manager0 BottomToTop)
           (mkResponse (str "tail") 100000)
           (mkResponse (str "tail") (100000 - chunkSize))).
  - discriminate.
  - discriminate.
  - discriminate.
  - discriminate.
  - reflexivity.
  - reflexivity.
  - simpl. lia.
  - reflexivity.
  - vm_compute. split; [reflexivity | discriminate].
  - reflexivity.
  - vm_compute. discriminate.
  - lia.
Defined.
